(** * Doctor appointment booking: Express + SQLite backend and browser demo

    A shallow embedding of the booking logic of the repository:

    - [server.js]: the HTTP handlers of the Express backend, written as
      functions from a database state to a response and a new state;
    - [db.js]: the SQLite schema (primary keys, [UNIQUE(slot_id)], foreign keys
      with [ON DELETE CASCADE]) and the seed data of [init];
    - [app.js]: the browser demo, which keeps the same three collections in
      a single [state] object.

    Conventions.  A string is the sequence of the bytes of its UTF-8
    encoding, the form in which a request body arrives and in which SQLite
    stores a [TEXT] value; the strings considered are the well-formed ones.
    A byte below 128 is an ASCII character; a byte from 128 on is never a
    character of its own but part of a code point of two to four bytes (the
    no-break space U+00A0 is the two bytes [C2 A0]).  Equality,
    concatenation, emptiness, the [BINARY] collation and the classes [\d]
    and [0-5] of the regular expressions read the bytes as they are;
    [trim()] removes white space code points, which take one to three
    bytes.  A request body
    is a record of optional strings: a field is either absent ([None]) or a
    JSON string.  The values [uuidv4()] and [new Date().toISOString()] (and,
    in the demo, [uid(prefix)] and [confirm(...)]) come from the environment
    and are passed to the operation that reads them.  SQL statements are
    functions on the three tables that enforce the constraints declared in
    the schema; a statement that violates one returns the [code] of the
    error better-sqlite3 throws. *)

From Stdlib Require Import Ascii String.
From stdpp Require Import base decidable option list strings.

(** ** Strings as JavaScript sees them *)

(** The class [\s] of a regular expression, which is also what
    [String.prototype.trim] removes: the white space and the line
    terminators of ECMAScript.  Six of them take one byte: tab, line feed,
    vertical tab, form feed, carriage return and space. *)
Definition is_space (c : ascii) : bool :=
  let n := nat_of_ascii c in
  ((9 <=? n) && (n <=? 13)) || (n =? 32).

(** One takes two bytes: the no-break space U+00A0 ([C2 A0]). *)
Definition is_space2 (c1 c2 : ascii) : bool :=
  (nat_of_ascii c1 =? 194) && (nat_of_ascii c2 =? 160).

(** The others take three bytes: U+1680 ([E1 9A 80]), U+2000 to U+200A
    ([E2 80 80] to [E2 80 8A]), the line and paragraph separators U+2028 and
    U+2029 ([E2 80 A8], [E2 80 A9]), U+202F ([E2 80 AF]), U+205F
    ([E2 81 9F]), U+3000 ([E3 80 80]) and the byte order mark U+FEFF
    ([EF BB BF]). *)
Definition is_space3 (c1 c2 c3 : ascii) : bool :=
  let n1 := nat_of_ascii c1 in
  let n2 := nat_of_ascii c2 in
  let n3 := nat_of_ascii c3 in
  ((n1 =? 225) && (n2 =? 154) && (n3 =? 128))
  || ((n1 =? 226) && (n2 =? 128)
      && (((128 <=? n3) && (n3 <=? 138)) || (n3 =? 168) || (n3 =? 169) || (n3 =? 175)))
  || ((n1 =? 226) && (n2 =? 129) && (n3 =? 159))
  || ((n1 =? 227) && (n2 =? 128) && (n3 =? 128))
  || ((n1 =? 239) && (n2 =? 187) && (n3 =? 191)).

(** The class [\d]. *)
Definition is_digit (c : ascii) : bool :=
  let n := nat_of_ascii c in
  (48 <=? n) && (n <=? 57).

(** A character in the range [lo-hi] of a character class. *)
Definition in_range (lo hi c : ascii) : bool :=
  (nat_of_ascii lo <=? nat_of_ascii c) && (nat_of_ascii c <=? nat_of_ascii hi).

(** [str.replace(/^\s+/g, '')]: the white space code points at the front
    are dropped, one after the other. *)
Fixpoint ltrim (s : string) : string :=
  match s with
  | EmptyString => EmptyString
  | String c1 s1 =>
      if is_space c1 then ltrim s1
      else
        match s1 with
        | EmptyString => s
        | String c2 s2 =>
            if is_space2 c1 c2 then ltrim s2
            else
              match s2 with
              | EmptyString => s
              | String c3 s3 => if is_space3 c1 c2 c3 then ltrim s3 else s
              end
        end
  end.

(** [/^\s*$/.test(s)]: nothing but white space. *)
Definition blank (s : string) : bool :=
  match ltrim s with EmptyString => true | _ => false end.

(** The white space code points at the end are dropped: the string is cut
    where what follows is nothing but white space.  A position inside a code
    point is never such a place, since no white space begins with a
    continuation byte. *)
Fixpoint rtrim (s : string) : string :=
  match s with
  | EmptyString => EmptyString
  | String c s' => if blank s then EmptyString else String c (rtrim s')
  end.

(** [str.trim()], and the [trim()] sanitizer of the validation chains. *)
Definition trim (s : string) : string := rtrim (ltrim s).

(** The string with the given bytes. *)
Definition utf8 (bytes : list nat) : string :=
  foldr (λ n s, String (ascii_of_nat n) s) EmptyString bytes.

(** The white space code points, each as the bytes of its encoding: U+0009
    to U+000D, U+0020, U+00A0, U+1680, U+2000 to U+200A, U+2028, U+2029,
    U+202F, U+205F, U+3000 and U+FEFF. *)
Definition white_space : list string :=
  utf8 <$>
    [ [9]; [10]; [11]; [12]; [13]; [32];
      [194; 160];
      [225; 154; 128];
      [226; 128; 128]; [226; 128; 129]; [226; 128; 130]; [226; 128; 131];
      [226; 128; 132]; [226; 128; 133]; [226; 128; 134]; [226; 128; 135];
      [226; 128; 136]; [226; 128; 137]; [226; 128; 138];
      [226; 128; 168]; [226; 128; 169];
      [226; 128; 175];
      [226; 129; 159];
      [227; 128; 128];
      [239; 187; 191] ].

(** A string made of white space code points and nothing else. *)
Inductive whitespace_only : string → Prop :=
  | whitespace_none : whitespace_only EmptyString
  | whitespace_more w s :
      w ∈ white_space → whitespace_only s → whitespace_only (w +:+ s).

(** Truthiness of a string: every string but the empty one. *)
Definition truthy (s : string) : bool :=
  match s with EmptyString => false | _ => true end.

(** Truthiness of a value that may be [undefined]. *)
Definition truthy_opt (v : option string) : bool :=
  match v with Some s => truthy s | None => false end.

(** [v || dflt] where [dflt] is a string. *)
Definition or_else (v : option string) (dflt : string) : string :=
  match v with
  | Some s => if truthy s then s else dflt
  | None => dflt
  end.

(** [v || null]. *)
Definition or_null (v : option string) : option string :=
  match v with
  | Some s => if truthy s then Some s else None
  | None => None
  end.

(** Destructuring with a default, [{ f = dflt } = req.body]: the default is
    taken only when the field is [undefined]. *)
Definition default_to {A} (v : option A) (dflt : A) : A :=
  match v with Some x => x | None => dflt end.

(** The regular expression [/^([0-1]\d|2[0-3]):([0-5]\d)$/]. *)
Definition time_regex (s : string) : bool :=
  match s with
  | String h1 (String h2 (String c (String m1 (String m2 EmptyString)))) =>
      ((in_range "0" "1" h1 && is_digit h2) || (Ascii.eqb h1 "2" && in_range "0" "3" h2))
      && Ascii.eqb c ":"
      && in_range "0" "5" m1 && is_digit m2
  | _ => false
  end.

(** [code.startsWith(p)]. *)
Definition startsWith (code p : string) : bool := String.prefix p code.

(** ** The database of db.js *)

(** [CREATE TABLE doctors (id TEXT PRIMARY KEY, name TEXT NOT NULL,
    speciality TEXT, room TEXT)]. *)
Record doctor := Doctor {
  d_id : string;
  d_name : string;
  d_speciality : option string;
  d_room : option string
}.

(** [CREATE TABLE slots (id TEXT PRIMARY KEY, doctor_id TEXT NOT NULL,
    date TEXT NOT NULL, time TEXT NOT NULL,
    FOREIGN KEY (doctor_id) REFERENCES doctors(id) ON DELETE CASCADE)]. *)
Record slot := Slot {
  s_id : string;
  s_doctor_id : string;
  s_date : string;
  s_time : string
}.

(** [CREATE TABLE appointments (id TEXT PRIMARY KEY,
    slot_id TEXT NOT NULL UNIQUE, patient_name TEXT NOT NULL,
    patient_phone TEXT, reason TEXT, status TEXT NOT NULL DEFAULT 'Confirmed',
    created_at TEXT NOT NULL,
    FOREIGN KEY (slot_id) REFERENCES slots(id) ON DELETE CASCADE)]. *)
Record appointment := Appointment {
  a_id : string;
  a_slot_id : string;
  a_patient_name : string;
  a_patient_phone : option string;
  a_reason : option string;
  a_status : string;
  a_created_at : string
}.

(** The three tables, each in insertion order. *)
Record DB := MkDB {
  doctors : list doctor;
  slots : list slot;
  appointments : list appointment
}.

(** An SQL statement either commits a new state or throws an error whose
    [code] is kept. *)
Definition sql_result : Type := string + DB.

Definition SQLITE_CONSTRAINT_PRIMARYKEY : string := "SQLITE_CONSTRAINT_PRIMARYKEY".
Definition SQLITE_CONSTRAINT_UNIQUE : string := "SQLITE_CONSTRAINT_UNIQUE".
Definition SQLITE_CONSTRAINT_FOREIGNKEY : string := "SQLITE_CONSTRAINT_FOREIGNKEY".

(** [SELECT * FROM doctors WHERE id = ?], [.get(id)]. *)
Definition select_doctor (id : string) (db : DB) : option doctor :=
  head (filter (λ r, d_id r = id) (doctors db)).

(** [SELECT * FROM slots WHERE id = ?], [.get(id)]. *)
Definition select_slot (id : string) (db : DB) : option slot :=
  head (filter (λ r, s_id r = id) (slots db)).

(** [SELECT * FROM appointments WHERE slot_id = ?], [.get(id)]. *)
Definition select_appointment_by_slot (id : string) (db : DB) : option appointment :=
  head (filter (λ r, a_slot_id r = id) (appointments db)).

(** [SELECT * FROM appointments WHERE id = ?], [.get(id)]. *)
Definition select_appointment (id : string) (db : DB) : option appointment :=
  head (filter (λ r, a_id r = id) (appointments db)).

(** [INSERT INTO doctors (id,name,speciality,room) VALUES (?, ?, ?, ?)]. *)
Definition insert_doctor (r : doctor) (db : DB) : sql_result :=
  if decide (d_id r ∈ d_id <$> doctors db) then inl SQLITE_CONSTRAINT_PRIMARYKEY
  else inr (MkDB (doctors db ++ [r]) (slots db) (appointments db)).

(** [INSERT INTO slots (id, doctor_id, date, time) VALUES (?, ?, ?, ?)]:
    the primary key, then the foreign key to [doctors]. *)
Definition insert_slot (r : slot) (db : DB) : sql_result :=
  if decide (s_id r ∈ s_id <$> slots db) then inl SQLITE_CONSTRAINT_PRIMARYKEY
  else if decide (s_doctor_id r ∈ d_id <$> doctors db)
       then inr (MkDB (doctors db) (slots db ++ [r]) (appointments db))
       else inl SQLITE_CONSTRAINT_FOREIGNKEY.

(** [INSERT INTO appointments (...) VALUES (...)]: the primary key, the
    [UNIQUE] index on [slot_id], then the foreign key to [slots]. *)
Definition insert_appointment (r : appointment) (db : DB) : sql_result :=
  if decide (a_id r ∈ a_id <$> appointments db) then inl SQLITE_CONSTRAINT_PRIMARYKEY
  else if decide (a_slot_id r ∈ a_slot_id <$> appointments db) then inl SQLITE_CONSTRAINT_UNIQUE
  else if decide (a_slot_id r ∈ s_id <$> slots db)
       then inr (MkDB (doctors db) (slots db) (appointments db ++ [r]))
       else inl SQLITE_CONSTRAINT_FOREIGNKEY.

(** [UPDATE doctors SET name = ?, speciality = ?, room = ? WHERE id = ?]. *)
Definition update_doctor (id name : string) (speciality room : option string)
    (db : DB) : DB :=
  MkDB ((λ r, if decide (d_id r = id) then Doctor (d_id r) name speciality room else r)
          <$> doctors db)
       (slots db) (appointments db).

(** [UPDATE slots SET doctor_id = ?, date = ?, time = ? WHERE id = ?]: a row
    that is rewritten must still reference an existing doctor. *)
Definition update_slot (id doctorId date time : string) (db : DB) : sql_result :=
  if decide (id ∈ s_id <$> slots db) then
    if decide (doctorId ∈ d_id <$> doctors db)
    then inr (MkDB (doctors db)
                ((λ r, if decide (s_id r = id) then Slot (s_id r) doctorId date time else r)
                   <$> slots db)
                (appointments db))
    else inl SQLITE_CONSTRAINT_FOREIGNKEY
  else inr db.

(** [DELETE FROM appointments WHERE id = ?]. *)
Definition delete_appointment (id : string) (db : DB) : DB :=
  MkDB (doctors db) (slots db) (filter (λ r, a_id r ≠ id) (appointments db)).

(** [DELETE FROM slots WHERE id = ?]: the appointments that reference a
    deleted slot go with it ([ON DELETE CASCADE]). *)
Definition delete_slot (id : string) (db : DB) : DB :=
  let deleted := filter (λ r, s_id r = id) (slots db) in
  MkDB (doctors db)
       (filter (λ r, s_id r ≠ id) (slots db))
       (filter (λ r, a_slot_id r ∉ s_id <$> deleted) (appointments db)).

(** [DELETE FROM doctors WHERE id = ?]: the slots that reference a deleted
    doctor go with it, and the appointments of those slots with them. *)
Definition delete_doctor (id : string) (db : DB) : DB :=
  let deleted := filter (λ r, d_id r = id) (doctors db) in
  let dead_slots := filter (λ r, s_doctor_id r ∈ d_id <$> deleted) (slots db) in
  MkDB (filter (λ r, d_id r ≠ id) (doctors db))
       (filter (λ r, s_doctor_id r ∉ d_id <$> deleted) (slots db))
       (filter (λ r, a_slot_id r ∉ s_id <$> dead_slots) (appointments db)).

(** The database [init] creates: two doctors and three open slots dated
    [today]. *)
Definition init (today : string) : DB :=
  MkDB [ Doctor "D001" "Dr. Asha Mehta" (Some "General Physician") (Some "101");
         Doctor "D002" "Dr. Rajesh Singh" (Some "Cardiologist") (Some "201") ]
       [ Slot "SL1" "D001" today "09:00";
         Slot "SL2" "D001" today "09:30";
         Slot "SL3" "D002" today "10:00" ]
       [].

(** ** The HTTP layer of server.js *)

(** The JSON bodies the handlers send. *)
Inductive json :=
| JEmpty                                   (* [res.status(204).send()] *)
| JError (error : string)                  (* [{ error }] *)
| JErrors (params : list string)           (* [{ errors: errs.array() }], by failing field *)
| JDoctor (id name : string) (speciality room : option string)
| JSlot (id doctorId date time : string)
| JAppointment (row : option appointment)  (* the row [.get(id)] returned *)
| JUncaught (code : string).               (* an exception the handler did not catch *)

Record response := Response { status : nat; body : json }.

(** Fields of [req.body] read by the doctor routes. *)
Record doctor_body := DoctorBody {
  req_id : option string;
  req_name : option string;
  req_speciality : option string;
  req_room : option string
}.

(** Fields of [req.body] read by the slot routes. *)
Record slot_body := SlotBody {
  req_doctorId : option string;
  req_date : option string;
  req_time : option string
}.

(** Fields of [req.body] read by [POST /appointments]. *)
Record appointment_body := AppointmentBody {
  req_slotId : option string;
  req_patientName : option string;
  req_patientPhone : option string;
  req_reason : option string
}.

(** *** Validation chains *)

(** One chain: the field is reported when its validators fail. *)
Definition check (field : string) (ok : bool) : list string :=
  if ok then [] else [field].

(** [isString().trim().notEmpty()]. *)
Definition string_trim_notEmpty (v : option string) : bool :=
  match v with Some s => truthy (trim s) | None => false end.

(** [isString().notEmpty()]. *)
Definition string_notEmpty (v : option string) : bool :=
  match v with Some s => truthy s | None => false end.

(** [optional().isString()]: skipped when the field is [undefined], and a
    field that is present is a string. *)
Definition optional_string (v : option string) : bool :=
  match v with Some _ => true | None => true end.

(** A validator [p] on a required field. *)
Definition required (p : string → bool) (v : option string) : bool :=
  match v with Some s => p s | None => false end.

(** [optional()] followed by a validator [p]. *)
Definition optional (p : string → bool) (v : option string) : bool :=
  match v with Some s => p s | None => true end.

(** The value the [trim()] sanitizer leaves in [req.body]; a field that
    passed [isString()] is a string. *)
Definition sanitized (v : option string) : string :=
  match v with Some s => trim s | None => "" end.

(** [handleValidation]: the 400 response when some chain failed. *)
Definition handleValidation (errs : list string) : option response :=
  match errs with
  | [] => None
  | _ => Some (Response 400 (JErrors errs))
  end.

(** *** Doctors *)

Definition validate_post_doctors (b : doctor_body) : list string :=
  check "id" (string_trim_notEmpty (req_id b))
  ++ check "name" (string_trim_notEmpty (req_name b))
  ++ check "speciality" (optional_string (req_speciality b))
  ++ check "room" (optional_string (req_room b)).

(** [app.post('/doctors', ...)]. *)
Definition post_doctors (b : doctor_body) (db : DB) : response * DB :=
  match handleValidation (validate_post_doctors b) with
  | Some r => (r, db)
  | None =>
      let id := sanitized (req_id b) in
      let name := sanitized (req_name b) in
      match insert_doctor (Doctor id name (or_null (req_speciality b))
                             (or_null (req_room b))) db with
      | inr db' => (Response 201 (JDoctor id name (req_speciality b) (req_room b)), db')
      | inl code =>
          if String.eqb code "SQLITE_CONSTRAINT_PRIMARYKEY"
          then (Response 409 (JError "Doctor ID already exists"), db)
          else (Response 500 (JError "Internal error"), db)
      end
  end.

Definition validate_put_doctors (b : doctor_body) : list string :=
  check "name" (optional_string (req_name b))
  ++ check "speciality" (optional_string (req_speciality b))
  ++ check "room" (optional_string (req_room b)).

(** [app.put('/doctors/:id', ...)]. *)
Definition put_doctors (id : string) (b : doctor_body) (db : DB) : response * DB :=
  match handleValidation (validate_put_doctors b) with
  | Some r => (r, db)
  | None =>
      match select_doctor id db with
      | None => (Response 404 (JError "Doctor not found"), db)
      | Some doc =>
          let name := default_to (req_name b) (d_name doc) in
          let speciality := default_to (Some <$> req_speciality b) (d_speciality doc) in
          let room := default_to (Some <$> req_room b) (d_room doc) in
          (Response 200 (JDoctor id name speciality room),
           update_doctor id name speciality room db)
      end
  end.

(** [app.delete('/doctors/:id', ...)]. *)
Definition delete_doctors (id : string) (db : DB) : response * DB :=
  (Response 204 JEmpty, delete_doctor id db).

(** The validator of validator.js that server.js reaches through
    express-validator and that is not part of the repository; the handlers
    only ask whether it accepts a string. *)
Class validator := { isISO8601 : string → bool }.

Section Server.

Context `{validator}.

(** *** Slots *)

Definition validate_post_slots (b : slot_body) : list string :=
  check "doctorId" (string_notEmpty (req_doctorId b))
  ++ check "date" (required isISO8601 (req_date b))
  ++ check "time" (required time_regex (req_time b)).

(** [app.post('/slots', ...)]; [uuid] is the value of [uuidv4()]. *)
Definition post_slots (uuid : string) (b : slot_body) (db : DB) : response * DB :=
  match handleValidation (validate_post_slots b) with
  | Some r => (r, db)
  | None =>
      let doctorId := default_to (req_doctorId b) "" in
      let date := default_to (req_date b) "" in
      let time := default_to (req_time b) "" in
      match select_doctor doctorId db with
      | None => (Response 400 (JError "Doctor not found"), db)
      | Some _ =>
          let id := uuid in
          match insert_slot (Slot id doctorId date time) db with
          | inr db' => (Response 201 (JSlot id doctorId date time), db')
          | inl _ => (Response 500 (JError "Internal error"), db)
          end
      end
  end.

Definition validate_put_slots (b : slot_body) : list string :=
  check "doctorId" (optional_string (req_doctorId b))
  ++ check "date" (optional isISO8601 (req_date b))
  ++ check "time" (optional time_regex (req_time b)).

(** [app.put('/slots/:id', ...)].  The [UPDATE] is not inside a [try]: an
    error it throws reaches Express, which answers 500. *)
Definition put_slots (id : string) (b : slot_body) (db : DB) : response * DB :=
  match handleValidation (validate_put_slots b) with
  | Some r => (r, db)
  | None =>
      match select_slot id db with
      | None => (Response 404 (JError "Slot not found"), db)
      | Some s =>
          match select_appointment_by_slot id db with
          | Some _ =>
              (Response 409 (JError "Cannot edit slot with an existing appointment"), db)
          | None =>
              let doctorId := or_else (req_doctorId b) (s_doctor_id s) in
              let date := or_else (req_date b) (s_date s) in
              let time := or_else (req_time b) (s_time s) in
              match update_slot id doctorId date time db with
              | inr db' => (Response 200 (JSlot id doctorId date time), db')
              | inl code => (Response 500 (JUncaught code), db)
              end
          end
      end
  end.

(** [app.delete('/slots/:id', ...)]. *)
Definition delete_slots (id : string) (db : DB) : response * DB :=
  (Response 204 JEmpty, delete_slot id db).

(** *** Appointments *)

Definition validate_post_appointments (b : appointment_body) : list string :=
  check "slotId" (string_notEmpty (req_slotId b))
  ++ check "patientName" (string_trim_notEmpty (req_patientName b))
  ++ check "patientPhone" (optional_string (req_patientPhone b))
  ++ check "reason" (optional_string (req_reason b)).

(** The row [insert.run(...)] is given. *)
Definition new_appointment (uuid now : string) (b : appointment_body) : appointment :=
  Appointment uuid (default_to (req_slotId b) "") (sanitized (req_patientName b))
    (or_null (req_patientPhone b)) (or_null (req_reason b)) "Confirmed" now.

(** [app.post('/appointments', ...)]; [uuid] is the value of [uuidv4()] and
    [now] that of [new Date().toISOString()].  The handler reads the slot,
    then runs the insert in a transaction of its own; [between] is what
    other writers of the database file commit between the two statements. *)
Definition post_appointments_with (between : DB → DB) (uuid now : string)
    (b : appointment_body) (db : DB) : response * DB :=
  match handleValidation (validate_post_appointments b) with
  | Some r => (r, db)
  | None =>
      let slotId := default_to (req_slotId b) "" in
      match select_slot slotId db with
      | None => (Response 400 (JError "Slot not found"), db)
      | Some _ =>
          let id := uuid in
          let createdAt := now in
          let db := between db in
          match insert_appointment (new_appointment id createdAt b) db with
          | inr db' => (Response 201 (JAppointment (select_appointment id db')), db')
          | inl code =>
              if startsWith code "SQLITE_CONSTRAINT"
              then (Response 409 (JError "Slot already booked"), db)
              else (Response 500 (JError "Internal error"), db)
          end
      end
  end.

(** The handler as the server runs it: it does not yield between the two
    statements, so nothing is committed in between. *)
Definition post_appointments : string → string → appointment_body → DB → response * DB :=
  post_appointments_with (λ db, db).

(** [app.delete('/appointments/:id', ...)]. *)
Definition delete_appointments (id : string) (db : DB) : response * DB :=
  (Response 204 JEmpty, delete_appointment id db).

(** *** The server as a transition system *)

(** A request that writes, with the values its handler reads from the
    environment.  (The [GET] routes only run [SELECT] statements.) *)
Inductive request :=
| POST_doctors (b : doctor_body)
| PUT_doctors (id : string) (b : doctor_body)
| DELETE_doctors (id : string)
| POST_slots (uuid : string) (b : slot_body)
| PUT_slots (id : string) (b : slot_body)
| DELETE_slots (id : string)
| POST_appointments (uuid now : string) (b : appointment_body)
| DELETE_appointments (id : string).

(** Express runs each handler to completion before the next one starts. *)
Definition handle (r : request) (db : DB) : response * DB :=
  match r with
  | POST_doctors b => post_doctors b db
  | PUT_doctors id b => put_doctors id b db
  | DELETE_doctors id => delete_doctors id db
  | POST_slots uuid b => post_slots uuid b db
  | PUT_slots id b => put_slots id b db
  | DELETE_slots id => delete_slots id db
  | POST_appointments uuid now b => post_appointments uuid now b db
  | DELETE_appointments id => delete_appointments id db
  end.

(** The responses and the final database of a sequence of requests. *)
Fixpoint serve (rs : list request) (db : DB) : list response * DB :=
  match rs with
  | [] => ([], db)
  | r :: rs' =>
      let '(resp, db1) := handle r db in
      let '(resps, db2) := serve rs' db1 in
      (resp :: resps, db2)
  end.

(** The databases the server can be in: the one [init] created, and every
    database a handled request leaves. *)
Inductive reachable : DB → Prop :=
| reachable_init today : reachable (init today)
| reachable_step r db : reachable db → reachable (handle r db).2.

End Server.

(** ** Invariants of the database *)

(** The appointments that reference a slot. *)
Definition bookings (slotId : string) (db : DB) : list appointment :=
  filter (λ a, a_slot_id a = slotId) (appointments db).

(** At most one appointment references any given slot. *)
Definition unique_booking (db : DB) : Prop :=
  ∀ slotId, length (bookings slotId db) ≤ 1.

(** What the schema promises of a database whose writers all run with
    [foreign_keys = ON]: keys are unique, [slot_id] is unique, and every
    reference has a target. *)
Record wf (db : DB) : Prop := Wf {
  wf_doctor_pk : NoDup (d_id <$> doctors db);
  wf_slot_pk : NoDup (s_id <$> slots db);
  wf_appointment_pk : NoDup (a_id <$> appointments db);
  wf_slot_unique : NoDup (a_slot_id <$> appointments db);
  wf_slot_fk : Forall (λ s, s_doctor_id s ∈ d_id <$> doctors db) (slots db);
  wf_appointment_fk : Forall (λ a, a_slot_id a ∈ s_id <$> slots db) (appointments db)
}.

(** The slots a doctor owns, and the appointments booked on them. *)
Definition slots_of (doctorId : string) (db : DB) : list slot :=
  filter (λ s, s_doctor_id s = doctorId) (slots db).

Definition appointments_of (doctorId : string) (db : DB) : list appointment :=
  filter (λ a, a_slot_id a ∈ s_id <$> slots_of doctorId db) (appointments db).

(** The slots of a doctor that are booked. *)
Definition booked_slots_of (doctorId : string) (db : DB) : list slot :=
  filter (λ s, s_id s ∈ a_slot_id <$> appointments db) (slots_of doctorId db).

(** The 201 and 409 answers of [POST /appointments]. *)
Definition created (row : appointment) : response :=
  Response 201 (JAppointment (Some row)).

Definition conflict : response := Response 409 (JError "Slot already booked").

(** A request [POST /appointments] for [slotId] that passes validation and
    whose generated id is not the id of an appointment of [db]. *)
Definition books (slotId : string) (db : DB) (r : request) : Prop :=
  match r with
  | POST_appointments uuid now b =>
      req_slotId b = Some slotId
      ∧ validate_post_appointments b = []
      ∧ uuid ∉ a_id <$> appointments db
  | _ => False
  end.

(** ** Sample data *)

(** The calendar dates [YYYY-MM-DD], which [isISO8601] accepts; the sample
    runs below validate dates with it. *)
Definition calendar_date (s : string) : bool :=
  match s with
  | String y1 (String y2 (String y3 (String y4 (String d1
      (String m1 (String m2 (String d2 (String n1 (String n2 EmptyString))))))))) =>
      is_digit y1 && is_digit y2 && is_digit y3 && is_digit y4
      && Ascii.eqb d1 "-" && is_digit m1 && is_digit m2
      && Ascii.eqb d2 "-" && is_digit n1 && is_digit n2
  | _ => false
  end.

Definition calendar_dates : validator := {| isISO8601 := calendar_date |}.

(** The seeded database on 10 January 2024. *)
Definition seeded : DB := init "2024-01-10".

Definition alice : appointment_body :=
  AppointmentBody (Some "SL1") (Some "Alice") None None.

Definition bob : appointment_body :=
  AppointmentBody (Some "SL1") (Some "Bob") (Some "555-0100") (Some "checkup").

(** A blank patient name for a slot that does not exist. *)
Definition blank_for_unknown_slot : appointment_body :=
  AppointmentBody (Some "S9") (Some "   ") None None.

(** A patch whose [time] is not a time of day. *)
Definition bad_time : slot_body := SlotBody None None (Some "25:00").

(** A well-formed patch that moves a slot to another doctor and time. *)
Definition reschedule : slot_body := SlotBody (Some "D002") None (Some "11:00").

(** A patch that renames a doctor and changes the room. *)
Definition rename : doctor_body :=
  DoctorBody None (Some "Dr. A. Mehta") None (Some "102").

(** Two clients booking slot [SL1] at once. *)
Definition race : list request :=
  [ POST_appointments "a1" "2024-01-10T08:00:00.000Z" alice;
    POST_appointments "a2" "2024-01-10T08:00:00.000Z" bob ].

(** The seeded database after Alice booked slot [SL1]. *)
Definition seeded_booked : DB :=
  (post_appointments "a1" "2024-01-10T08:00:00.000Z" alice seeded).2.

(** ** The browser demo of app.js *)

Module Demo.

(** The objects kept in [state]; every field is a string read from a form. *)
Record doctor := Doctor {
  d_id : string;
  d_name : string;
  d_speciality : string;
  d_room : string
}.

Record slot := Slot {
  s_id : string;
  s_doctorId : string;
  s_date : string;
  s_time : string
}.

Record appointment := Appointment {
  a_id : string;
  a_slotId : string;
  a_patientName : string;
  a_patientPhone : string;
  a_reason : string;
  a_status : string;
  a_createdAt : string
}.

(** [state], without [settings] (the theme). *)
Record state := State {
  doctors : list doctor;
  slots : list slot;
  appointments : list appointment
}.

(** [defaultState]; [today] is [todayISO(0)]. *)
Definition defaultState (today : string) : state :=
  State [ Doctor "D001" "Dr. Asha Mehta" "General Physician" "101";
          Doctor "D002" "Dr. Rajesh Singh" "Cardiologist" "201" ]
        [ Slot "S1" "D001" today "09:00";
          Slot "S2" "D001" today "09:30";
          Slot "S3" "D002" today "10:00" ]
        [].

(** [uid(prefix)]; [rnd] is [Math.random().toString(36).slice(2,9)]. *)
Definition uid (prefix rnd : string) : string := prefix +:+ rnd.

(** [state.appointments.some(a => a.slotId === slotId)]. *)
Definition isSlotBooked (st : state) (slotId : string) : bool :=
  bool_decide (Exists (λ a, a_slotId a = slotId) (appointments st)).

(** [state.appointments.find(a => a.slotId === slotId)]. *)
Definition getAppointmentForSlot (st : state) (slotId : string) : option appointment :=
  head (filter (λ a, a_slotId a = slotId) (appointments st)).

(** How a click handler ends: it ran through, it stopped at an [alert], or
    it threw. *)
Inductive outcome :=
| Done
| Alert (msg : string)
| Threw.

(** [Object.assign(l.find(P), patch)]: the first object that satisfies [P]
    is changed in place. *)
Fixpoint assign_found {A} (P : A → Prop) `{∀ x, Decision (P x)} (patch : A → A)
    (l : list A) : list A :=
  match l with
  | [] => []
  | x :: l' => if decide (P x) then patch x :: l' else x :: assign_found P patch l'
  end.

(** The Save button of [renderDoctorForm(doctor)]; [editing] says whether
    [doctor] was given, the other arguments are the values of the inputs. *)
Definition saveDoctor (editing : bool) (docId docName docSpec docRoom : string)
    (st : state) : outcome * state :=
  let idv := trim docId in
  let name := trim docName in
  let spec := trim docSpec in
  let room := trim docRoom in
  if negb (truthy idv) || negb (truthy name) then (Alert "ID and name required", st)
  else if editing then
    if bool_decide (Exists (λ x, d_id x = idv) (doctors st))
    then (Done, State (assign_found (λ x, d_id x = idv)
                         (λ x, Doctor (d_id x) name spec room) (doctors st))
                      (slots st) (appointments st))
    else (Threw, st)
  else
    if bool_decide (Exists (λ x, d_id x = idv) (doctors st))
    then (Alert "Doctor ID already exists", st)
    else (Done, State (doctors st ++ [Doctor idv name spec room]) (slots st) (appointments st)).

(** [deleteDoctor(doctorId)]; [confirmed] is the answer to [confirm(...)]. *)
Definition deleteDoctor (confirmed : bool) (doctorId : string) (st : state) : state :=
  if negb confirmed then st
  else
    let remainingSlots := filter (λ s, s_doctorId s ≠ doctorId) (slots st) in
    let remainingAppointments :=
      filter (λ a, Exists (λ s, s_id s = a_slotId a) remainingSlots) (appointments st) in
    State (filter (λ d, d_id d ≠ doctorId) (doctors st)) remainingSlots remainingAppointments.

(** The Save slot button of [renderSlotForm(data)]; [data_id] is [data.id],
    the next three arguments are the values of the inputs and [rnd] feeds
    [uid('SL')]. *)
Definition saveSlot (data_id : option string) (slotDoctor slotDate slotTime rnd : string)
    (st : state) : outcome * state :=
  let doctorId := slotDoctor in
  let date := slotDate in
  let time := slotTime in
  if negb (truthy doctorId) || negb (truthy date) || negb (truthy time)
  then (Alert "Doctor, date and time are required", st)
  else if truthy_opt data_id then
    let id := default_to data_id "" in
    if bool_decide (Exists (λ x, s_id x = id) (slots st))
    then (Done, State (doctors st)
                      (assign_found (λ x, s_id x = id)
                         (λ x, Slot (s_id x) doctorId date time) (slots st))
                      (appointments st))
    else (Threw, st)
  else
    let id := uid "SL" rnd in
    (Done, State (doctors st) (slots st ++ [Slot id doctorId date time]) (appointments st)).

(** The Confirm Appointment button of [renderBookingForm]; the first four
    arguments are the values of the inputs, [rnd] feeds [uid('AP')] and
    [now] is [new Date().toISOString()]. *)
Definition confirmAppointment (bookingSlot patientNameInput patientPhoneInput reasonInput
    rnd now : string) (st : state) : outcome * state :=
  let slotId := bookingSlot in
  let patientName := trim patientNameInput in
  let patientPhone := trim patientPhoneInput in
  let reason := trim reasonInput in
  if negb (truthy slotId) then (Alert "Select a slot", st)
  else if negb (truthy patientName) then (Alert "Enter patient name", st)
  else if isSlotBooked st slotId then (Alert "Sorry — that slot is already booked", st)
  else
    let id := uid "AP" rnd in
    let appointment := Appointment id slotId patientName patientPhone reason "Confirmed" now in
    (Done, State (doctors st) (slots st) (appointments st ++ [appointment])).

(** [cancelAppointment(appointmentId)]; [confirmed] is the answer to
    [confirm(...)]. *)
Definition cancelAppointment (confirmed : bool) (appointmentId : string) (st : state) : state :=
  if negb confirmed then st
  else State (doctors st) (slots st) (filter (λ a, a_id a ≠ appointmentId) (appointments st)).

(** What the single user of the page can do to [state]. *)
Inductive action :=
| SaveDoctor (editing : bool) (docId docName docSpec docRoom : string)
| DeleteDoctor (confirmed : bool) (doctorId : string)
| SaveSlot (data_id : option string) (slotDoctor slotDate slotTime rnd : string)
| ConfirmAppointment (bookingSlot patientName patientPhone reason rnd now : string)
| CancelAppointment (confirmed : bool) (appointmentId : string).

Definition step (a : action) (st : state) : state :=
  match a with
  | SaveDoctor e i n s r => (saveDoctor e i n s r st).2
  | DeleteDoctor c d => deleteDoctor c d st
  | SaveSlot i d dt t r => (saveSlot i d dt t r st).2
  | ConfirmAppointment s n p r u t => (confirmAppointment s n p r u t st).2
  | CancelAppointment c i => cancelAppointment c i st
  end.

(** The state after a sequence of actions, one after the other. *)
Definition run (acts : list action) (st : state) : state :=
  foldl (λ st a, step a st) st acts.

(** At most one appointment of the demo references any given slot. *)
Definition unique_booking (st : state) : Prop :=
  ∀ slotId, length (filter (λ a, a_slotId a = slotId) (appointments st)) ≤ 1.

End Demo.


(** ** Sample data for the demo *)

(** The default state on 10 January 2024, after Alice booked slot [S1]. *)
Definition demo_booked : Demo.state :=
  (Demo.confirmAppointment "S1" "Alice" "" "" "k3x9q2a" "2024-01-10T08:00:00.000Z"
     (Demo.defaultState "2024-01-10")).2.

(** ** The read routes of server.js *)

(** [ORDER BY]: the rows in ascending order of [le].  Rows that compare
    equal stay in the order they had; SQLite leaves their order open. *)
Fixpoint insert_by {A} (le : A → A → bool) (x : A) (l : list A) : list A :=
  match l with
  | [] => [x]
  | y :: l' => if le x y then x :: l else y :: insert_by le x l'
  end.

Definition order_by {A} (le : A → A → bool) (l : list A) : list A :=
  foldr (insert_by le) [] l.

(** [app.get('/doctors', ...)]: [SELECT * FROM doctors ORDER BY name].  Text
    is compared byte by byte. *)
Definition get_doctors (db : DB) : list doctor :=
  order_by (λ a b, String.leb (d_name a) (d_name b)) (doctors db).

(** A row of [SELECT s.*, d.name as doctor_name, d.speciality]. *)
Record slot_row := SlotRow {
  r_slot : slot;
  r_doctor_name : string;
  r_speciality : option string
}.

(** [FROM slots s JOIN doctors d ON d.id = s.doctor_id]. *)
Definition slots_join_doctors (db : DB) : list slot_row :=
  s ← slots db;
  d ← filter (λ d, d_id d = s_doctor_id s) (doctors db);
  [SlotRow s (d_name d) (d_speciality d)].

(** [ORDER BY s.date, s.time]. *)
Definition by_date_time (a b : slot) : bool :=
  match String.compare (s_date a) (s_date b) with
  | Lt => true
  | Eq => String.leb (s_time a) (s_time b)
  | Gt => false
  end.

(** [app.get('/slots', ...)]; [doctorId] and [date] are the fields of
    [req.query].  The route declares validators for them but never calls
    [handleValidation], so whatever arrives is used as a filter. *)
Definition get_slots (doctorId date : option string) (db : DB) : list slot_row :=
  let rows := slots_join_doctors db in
  let rows :=
    if truthy_opt doctorId
    then filter (λ r, s_doctor_id (r_slot r) = default_to doctorId "") rows
    else rows in
  let rows :=
    if truthy_opt date
    then filter (λ r, s_date (r_slot r) = default_to date "") rows
    else rows in
  order_by (λ a b, by_date_time (r_slot a) (r_slot b)) rows.

(** A row of [SELECT a.*, s.date, s.time, s.doctor_id, d.name as
    doctor_name, d.speciality]; the joined columns are [NULL] when the join
    found nothing. *)
Record appointment_row := AppointmentRow {
  r_appointment : appointment;
  r_date : option string;
  r_time : option string;
  r_doctor_id : option string;
  r_appointment_doctor_name : option string;
  r_appointment_speciality : option string
}.

(** [LEFT JOIN]: the rows that match, or one [NULL] row when none does. *)
Definition left_join {B} (matching : list B) : list (option B) :=
  match matching with
  | [] => [None]
  | _ => Some <$> matching
  end.

(** [FROM appointments a LEFT JOIN slots s ON s.id = a.slot_id
    LEFT JOIN doctors d ON d.id = s.doctor_id]. *)
Definition appointments_joined (db : DB) : list appointment_row :=
  a ← appointments db;
  s ← left_join (filter (λ s, s_id s = a_slot_id a) (slots db));
  d ← match s with
      | Some s => left_join (filter (λ d, d_id d = s_doctor_id s) (doctors db))
      | None => [None]
      end;
  [AppointmentRow a (s_date <$> s) (s_time <$> s) (s_doctor_id <$> s)
     (d_name <$> d) (d ≫= d_speciality)].

(** [app.get('/appointments', ...)]: [ORDER BY a.created_at DESC]. *)
Definition get_appointments (db : DB) : list appointment_row :=
  order_by (λ a b, String.leb (a_created_at (r_appointment b))
                      (a_created_at (r_appointment a)))
    (appointments_joined db).

(** What [GET /appointments/:id] sends. *)
Inductive read_json :=
| RAppointment (row : appointment_row)
| RError (error : string).

(** [app.get('/appointments/:id', ...)]. *)
Definition get_appointment (id : string) (db : DB) : nat * read_json :=
  match head (filter (λ r, a_id (r_appointment r) = id) (appointments_joined db)) with
  | None => (404, RError "Appointment not found")
  | Some a => (200, RAppointment a)
  end.

(** Every row but the last is followed by a row that is not smaller. *)
Definition ordered {A} (le : A → A → bool) (l : list A) : Prop :=
  ∀ i x y, l !! i = Some x → l !! S i = Some y → le x y = true.

(** ** The forms of app.js *)

Module DemoUI.
Import Demo.

(** The status column of [renderSlotTable] for the slot [s]. *)
Definition slotStatus (st : state) (s : slot) : string :=
  match getAppointmentForSlot st (s_id s) with
  | Some _ => "Booked"
  | None => "Available"
  end.

(** [availableSlots] of [renderBookingForm(prefill)], with the alert the
    function may show.  [sort] is [Array.prototype.sort] with the comparator
    of the form, [(a.date + a.time).localeCompare(b.date + b.time)];
    [prefill_slotId] is [prefill.slotId]. *)
Definition availableSlots (sort : list slot → list slot) (prefill_slotId : option string)
    (st : state) : list slot * option string :=
  let availableSlots := sort (filter (λ s, isSlotBooked st (s_id s) = false) (slots st)) in
  let slotId := default_to prefill_slotId "" in
  if truthy_opt prefill_slotId && negb (isSlotBooked st slotId) then
    match list_find (λ s, s_id s = slotId) availableSlots with
    | Some (idx, s) => (s :: delete idx availableSlots, None)
    | None =>
        if isSlotBooked st slotId
        then (availableSlots, Some "Selected slot already booked. Choose another slot.")
        else (availableSlots, None)
    end
  else (availableSlots, None).

(** The values the [bookingSlot] select can have: one per available slot,
    or the empty value of the placeholder when there is none. *)
Definition bookingSlot_values (available : list slot) : list string :=
  match available with
  | [] => [""]
  | _ => s_id <$> available
  end.

(** The values the [slotDoctor] select of [renderDoctorSelect] can have: one
    per doctor; a select without options has the empty value. *)
Definition slotDoctor_values (st : state) : list string :=
  match doctors st with
  | [] => [""]
  | ds => d_id <$> ds
  end.

(** The action reads its selects from forms rendered on the state it is
    applied to. *)
Definition from_forms (sort : list slot → list slot) (a : action) (st : state) : Prop :=
  match a with
  | ConfirmAppointment bookingSlot _ _ _ _ _ =>
      ∃ prefill, bookingSlot ∈ bookingSlot_values (availableSlots sort prefill st).1
  | SaveSlot _ slotDoctor _ _ _ => slotDoctor ∈ slotDoctor_values st
  | _ => True
  end.

Fixpoint all_from_forms (sort : list slot → list slot) (acts : list action) (st : state)
    : Prop :=
  match acts with
  | [] => True
  | a :: acts' => from_forms sort a st ∧ all_from_forms sort acts' (step a st)
  end.

(** Every appointment references a slot of the state and every slot a
    doctor of the state. *)
Definition integrity (st : state) : Prop :=
  Forall (λ ap, a_slotId ap ∈ s_id <$> slots st) (appointments st)
  ∧ Forall (λ s, s_doctorId s ∈ d_id <$> doctors st) (slots st).

End DemoUI.

(** ** Times of day *)

(** The character of a decimal digit. *)
Definition digit_char (n : nat) : ascii := ascii_of_nat (48 + n).

(** A number below 100 written with two digits. *)
Definition two_digits (n : nat) : string :=
  String (digit_char (n / 10)) (String (digit_char (n mod 10)) EmptyString).

(** The time [h] hours [m] minutes written [HH:MM]. *)
Definition time_of_day (h m : nat) : string :=
  two_digits h +:+ ":" +:+ two_digits m.

(** ** More sample data *)

(** A new doctor whose id arrives with blanks around it and whose
    speciality is empty. *)
Definition new_doctor : doctor_body :=
  DoctorBody (Some " D003 ") (Some "Dr. Lee") (Some "") None.

(** A new slot for doctor [D002]. *)
Definition new_slot : slot_body :=
  SlotBody (Some "D002") (Some "2024-01-11") (Some "14:30").

(** A booking of the slot with id [s4]. *)
Definition carol : appointment_body :=
  AppointmentBody (Some "s4") (Some "Carol") None None.

(** The appointment Alice holds in [demo_booked]. *)
Definition demo_alice : Demo.appointment :=
  Demo.Appointment (Demo.uid "AP" "k3x9q2a") "S1" "Alice" "" "" "Confirmed"
    "2024-01-10T08:00:00.000Z".

(** A sort of the demo's slots by date and time, comparing bytes. *)
Definition sort_slots (l : list Demo.slot) : list Demo.slot :=
  order_by (λ a b, String.leb (Demo.s_date a +:+ Demo.s_time a)
                      (Demo.s_date b +:+ Demo.s_time b)) l.

(** The no-break space U+00A0, the ideographic space U+3000, the line
    separator U+2028, and the letter U+00E0, whose second byte is the
    second byte of the no-break space. *)
Definition nbsp : string := utf8 [194; 160].
Definition ideographic_space : string := utf8 [227; 128; 128].
Definition line_separator : string := utf8 [226; 128; 168].
Definition a_grave : string := utf8 [195; 160].

(** A booking of slot [s2] whose patient name is two no-break spaces. *)
Definition no_break_spaces : appointment_body :=
  AppointmentBody (Some "s2") (Some (nbsp +:+ nbsp)) None None.

(** The user books slot [S2] from the form, then deletes doctor [D002]. *)
Definition demo_session : list Demo.action :=
  [ Demo.ConfirmAppointment "S2" "Bob" "" "" "p0q1r2s" "2024-01-10T09:00:00.000Z";
    Demo.DeleteDoctor true "D002" ].

(** * Properties *)

(** ** White space *)

Section white_space_facts.

Lemma ltrim_fixed s : ltrim (ltrim s) = ltrim s.
Proof.
  remember (String.length s) as n eqn:Hn.
  revert s Hn. induction (lt_wf n) as [n _ IH]. intros s ->.
  destruct s as [|c1 s1]; [done|]. cbn [ltrim].
  destruct (is_space c1) eqn:H1; [eapply IH; [|done]; simpl; lia|].
  destruct s1 as [|c2 s2]; [by cbn [ltrim]; rewrite H1|].
  destruct (is_space2 c1 c2) eqn:H2; [eapply IH; [|done]; simpl; lia|].
  destruct s2 as [|c3 s3]; [by cbn [ltrim]; rewrite H1, H2|].
  destruct (is_space3 c1 c2 c3) eqn:H3; [eapply IH; [|done]; simpl; lia|].
  cbn [ltrim]. by rewrite H1, H2, H3.
Qed.

Lemma rtrim_empty s : rtrim s = "" ↔ blank s = true.
Proof.
  destruct s as [|c s]; [done|]. cbn [rtrim]. by destruct (blank _).
Qed.

Lemma trim_empty s : trim s = "" ↔ ltrim s = "".
Proof.
  unfold trim. rewrite rtrim_empty. unfold blank. rewrite ltrim_fixed.
  by destruct (ltrim s).
Qed.

Lemma ltrim_white_space w s : w ∈ white_space → ltrim (w +:+ s) = ltrim s.
Proof.
  intros Hw. unfold white_space in Hw. cbn [fmap list_fmap] in Hw.
  repeat (apply elem_of_cons in Hw as [->|Hw]); try done.
  by apply not_elem_of_nil in Hw.
Qed.

Lemma code_is n c : (nat_of_ascii c =? n) = true → c = ascii_of_nat n.
Proof. intros <-%Nat.eqb_eq. by rewrite ascii_nat_embedding. Qed.

Lemma is_space_white c : is_space c = true → String c "" ∈ white_space.
Proof.
  unfold is_space. intros Hc.
  assert (∃ n, c = ascii_of_nat n ∧ n ∈ [9; 10; 11; 12; 13; 32]) as (n & -> & Hn).
  { exists (nat_of_ascii c). split; [by rewrite ascii_nat_embedding|].
    apply (bool_decide_unpack _).
    destruct (nat_of_ascii c) as [|[|[|[|[|[|[|[|[|[|[|[|[|[|k]]]]]]]]]]]]]]; try done.
    do 19 (destruct k as [|k]; [done|]). by destruct k. }
  repeat (apply elem_of_cons in Hn as [->|Hn]);
    try by (apply (bool_decide_unpack _); vm_compute).
  by apply not_elem_of_nil in Hn.
Qed.

Lemma is_space2_white c1 c2 :
  is_space2 c1 c2 = true → String c1 (String c2 "") ∈ white_space.
Proof.
  unfold is_space2. intros [H1%code_is H2%code_is]%andb_true_iff. subst.
  by apply (bool_decide_unpack _); vm_compute.
Qed.

Lemma is_space3_white c1 c2 c3 :
  is_space3 c1 c2 c3 = true → String c1 (String c2 (String c3 "")) ∈ white_space.
Proof.
  unfold is_space3. cbv zeta.
  rewrite <- (ascii_nat_embedding c1), <- (ascii_nat_embedding c2),
    <- (ascii_nat_embedding c3).
  rewrite !nat_ascii_embedding by apply nat_ascii_bounded.
  generalize (nat_of_ascii c1) (nat_of_ascii c2) (nat_of_ascii c3). intros n1 n2 n3.
  repeat (rewrite orb_true_iff || rewrite andb_true_iff).
  rewrite !Nat.eqb_eq, !Nat.leb_le. intros Hc.
  assert (n1 = 225 ∧ n2 = 154 ∧ n3 = 128
          ∨ n1 = 226 ∧ n2 = 128
            ∧ (n3 = 128 ∨ n3 = 129 ∨ n3 = 130 ∨ n3 = 131 ∨ n3 = 132 ∨ n3 = 133
               ∨ n3 = 134 ∨ n3 = 135 ∨ n3 = 136 ∨ n3 = 137 ∨ n3 = 138
               ∨ n3 = 168 ∨ n3 = 169 ∨ n3 = 175)
          ∨ n1 = 226 ∧ n2 = 129 ∧ n3 = 159
          ∨ n1 = 227 ∧ n2 = 128 ∧ n3 = 128
          ∨ n1 = 239 ∧ n2 = 187 ∧ n3 = 191) as Hn by lia.
  clear Hc.
  destruct Hn
    as [(-> & -> & ->)|[(-> & -> & Hn)|[(-> & -> & ->)|[(-> & -> & ->)|(-> & -> & ->)]]]];
    try by (apply (bool_decide_unpack _); vm_compute).
  repeat (destruct Hn as [-> | Hn]; [by apply (bool_decide_unpack _); vm_compute|]).
  subst. by apply (bool_decide_unpack _); vm_compute.
Qed.

(** [ltrim] leaves nothing exactly of the strings made of white space. *)
Lemma ltrim_empty s : ltrim s = "" ↔ whitespace_only s.
Proof.
  split.
  - remember (String.length s) as n eqn:Hn.
    revert s Hn. induction (lt_wf n) as [n _ IH]. intros s ->.
    destruct s as [|c1 s1]; [constructor|]. cbn [ltrim].
    destruct (is_space c1) eqn:H1.
    { intros Hs. apply (whitespace_more (String c1 "")); [by apply is_space_white|].
      eapply IH; [|done..]. simpl. lia. }
    destruct s1 as [|c2 s2]; [done|].
    destruct (is_space2 c1 c2) eqn:H2.
    { intros Hs. apply (whitespace_more (String c1 (String c2 "")));
        [by apply is_space2_white|].
      eapply IH; [|done..]. simpl. lia. }
    destruct s2 as [|c3 s3]; [done|].
    destruct (is_space3 c1 c2 c3) eqn:H3; [|done].
    intros Hs. apply (whitespace_more (String c1 (String c2 (String c3 ""))));
      [by apply is_space3_white|].
    eapply IH; [|done..]. simpl. lia.
  - induction 1 as [|w s Hw _ IH]; [done|]. by rewrite ltrim_white_space.
Qed.

(** [trim()] gives the empty string exactly on the strings made of white
    space: these are the values the chains [trim().notEmpty()] refuse and
    the demo calls empty. *)
Lemma trim_whitespace_only s : trim s = "" ↔ whitespace_only s.
Proof. by rewrite trim_empty, ltrim_empty. Qed.

End white_space_facts.

(** ** Lists *)

Section list_facts.
Context {A B : Type} (f : A → B).

Lemma NoDup_fmap_filter (P : A → Prop) `{∀ x, Decision (P x)} (l : list A) :
  NoDup (f <$> l) → NoDup (f <$> filter P l).
Proof.
  induction l as [|x l IH]; [done|].
  rewrite fmap_cons, NoDup_cons. intros [Hx Hl].
  rewrite filter_cons. case_decide; [|by apply IH].
  rewrite fmap_cons, NoDup_cons. split; [|by apply IH].
  intros (y & Hy & Hin)%list_elem_of_fmap.
  apply list_elem_of_filter in Hin as [_ Hin].
  apply Hx. rewrite Hy. by apply list_elem_of_fmap_2.
Qed.

Lemma filter_key_nil `{EqDecision B} (l : list A) (y : B) :
  filter (λ a, f a = y) l = [] ↔ y ∉ f <$> l.
Proof.
  split.
  - intros Hnil (x & -> & Hin)%list_elem_of_fmap.
    eapply filter_nil_not_elem_of; [exact Hnil| |exact Hin]. done.
  - intros Hy. induction l as [|x l IH]; [done|].
    rewrite filter_cons. case_decide as Hx.
    + exfalso. apply Hy. rewrite <- Hx. apply list_elem_of_fmap_2. left.
    + apply IH. intros Hin. apply Hy. rewrite fmap_cons. by right.
Qed.

(** Keys are pairwise distinct exactly when every key selects at most one
    element. *)
Lemma NoDup_fmap_count `{EqDecision B} (l : list A) :
  NoDup (f <$> l) ↔ ∀ y, length (filter (λ a, f a = y) l) ≤ 1.
Proof.
  induction l as [|x l IH].
  - split; [intros _ y; simpl; lia | intros _; constructor].
  - rewrite fmap_cons, NoDup_cons, IH. split.
    + intros [Hx Hl] y. rewrite filter_cons. case_decide as Hy.
      * subst y. apply filter_key_nil in Hx. rewrite Hx. simpl. lia.
      * apply Hl.
    + intros Hc. split.
      * intros Hin. apply (filter_key_nil l (f x)) in Hin; [done|].
        specialize (Hc (f x)). rewrite filter_cons in Hc.
        case_decide; [|done]. simpl in Hc.
        destruct (filter _ l); [done|simpl in Hc; lia].
      * intros y. specialize (Hc y). rewrite filter_cons in Hc.
        case_decide; simpl in Hc; lia.
Qed.

Lemma head_filter_None (P : A → Prop) `{∀ x, Decision (P x)} (l : list A) :
  head (filter P l) = None ↔ Forall (λ x, ¬ P x) l.
Proof.
  rewrite head_None, Forall_forall. split.
  - intros Hnil x Hin HP. eapply filter_nil_not_elem_of; [exact Hnil|exact HP|exact Hin].
  - intros Hall. induction l as [|x l IH]; [done|].
    rewrite filter_cons. case_decide as HP.
    + exfalso. eapply Hall; [left|done].
    + apply IH. intros y Hy. apply Hall. by right.
Qed.

Lemma head_filter_key_None `{EqDecision B} (l : list A) (y : B) :
  head (filter (λ a, f a = y) l) = None ↔ y ∉ f <$> l.
Proof. by rewrite head_None, filter_key_nil. Qed.

Lemma head_filter_key_Some `{EqDecision B} (l : list A) (y : B) :
  y ∈ f <$> l → ∃ x, head (filter (λ a, f a = y) l) = Some x ∧ f x = y ∧ x ∈ l.
Proof.
  intros Hin. destruct (head (filter (λ a, f a = y) l)) as [x|] eqn:Hh.
  - exists x. split; [done|].
    apply head_Some_elem_of, list_elem_of_filter in Hh. tauto.
  - by apply head_filter_key_None in Hh.
Qed.

Lemma filter_all (P : A → Prop) `{∀ x, Decision (P x)} (l : list A) :
  Forall P l → filter P l = l.
Proof.
  induction 1 as [|x l HP _ IH]; [done|].
  by rewrite filter_cons_True, IH.
Qed.

Lemma filter_none (P : A → Prop) `{∀ x, Decision (P x)} (l : list A) :
  Forall (λ x, ¬ P x) l → filter P l = [].
Proof.
  induction 1 as [|x l HP _ IH]; [done|]. by rewrite filter_cons_False.
Qed.

Lemma filter_ext_in (P Q : A → Prop)
    `{∀ x, Decision (P x)} `{∀ x, Decision (Q x)} (l : list A) :
  (∀ x, x ∈ l → P x ↔ Q x) → filter P l = filter Q l.
Proof.
  induction l as [|x l IH]; intros Hext; [done|].
  rewrite !filter_cons.
  rewrite IH by (intros y Hy; apply Hext; by right).
  destruct (decide (P x)) as [HP|HP].
  - rewrite decide_True; [done|]. apply Hext; [left|done].
  - rewrite decide_False; [done|]. intros HQ. apply HP, Hext; [left|done].
Qed.

Lemma Forall_filter_keep (P Q : A → Prop) `{∀ x, Decision (Q x)} (l : list A) :
  Forall P l → Forall P (filter Q l).
Proof.
  rewrite !Forall_forall. intros Hall x [_ Hx]%list_elem_of_filter. by apply Hall.
Qed.

Lemma NoDup_fmap_elem_inj (l : list A) (x y : A) :
  NoDup (f <$> l) → x ∈ l → y ∈ l → f x = f y → x = y.
Proof.
  induction l as [|z l IH]; [by intros _ ?%not_elem_of_nil|].
  rewrite fmap_cons, NoDup_cons. intros [Hz Hl].
  intros [->|Hx]%elem_of_cons [->|Hy]%elem_of_cons Heq; [done| | |by apply IH].
  - exfalso. apply Hz. rewrite Heq. by apply list_elem_of_fmap_2.
  - exfalso. apply Hz. rewrite <- Heq. by apply list_elem_of_fmap_2.
Qed.

Lemma length_filter_split (P Q : A → Prop)
    `{∀ x, Decision (P x)} `{∀ x, Decision (Q x)} (l : list A) :
  (∀ x, Q x ↔ ¬ P x) →
  length l = length (filter P l) + length (filter Q l).
Proof.
  intros HQ. induction l as [|x l IH]; [done|].
  rewrite !filter_cons. destruct (decide (P x)) as [HP|HP].
  - rewrite decide_False by (by rewrite HQ; intros []). simpl. lia.
  - rewrite decide_True by (by rewrite HQ). simpl. lia.
Qed.

End list_facts.

(** ** The storage layer keeps the schema's promises *)

Section storage.
Implicit Types (db : DB) (id : string).

Lemma elem_of_keys_selected {A} (f : A → string) (k y : string) (l : list A) :
  y ∈ f <$> filter (λ a, f a = k) l ↔ y = k ∧ k ∈ f <$> l.
Proof.
  rewrite !list_elem_of_fmap. split.
  - intros (x & -> & [Hk Hin]%list_elem_of_filter). split; [done|]. by exists x.
  - intros [-> (x & -> & Hin)]. exists x. split; [done|].
    by apply list_elem_of_filter.
Qed.

Lemma NoDup_snoc_fresh {A} (f : A → string) (l : list A) (x : A) :
  NoDup (f <$> l) → f x ∉ f <$> l → NoDup (f <$> l ++ [x]).
Proof.
  intros Hl Hx. rewrite fmap_app. apply NoDup_app. split_and!; [done| |].
  - intros y Hy ->%list_elem_of_singleton. done.
  - apply NoDup_singleton.
Qed.

Lemma wf_init today : wf (init today).
Proof. split; simpl; by apply (bool_decide_unpack _). Qed.

Lemma insert_doctor_wf r db db' : wf db → insert_doctor r db = inr db' → wf db'.
Proof.
  intros [] Hins. unfold insert_doctor in Hins. case_decide; [done|]. simplify_eq.
  split; simpl; try done.
  - by apply NoDup_snoc_fresh.
  - eapply Forall_impl; [done|]. intros s Hs. rewrite fmap_app, elem_of_app. by left.
Qed.

Lemma insert_slot_wf r db db' : wf db → insert_slot r db = inr db' → wf db'.
Proof.
  intros [] Hins. unfold insert_slot in Hins. repeat case_decide; try done. simplify_eq.
  split; simpl; try done.
  - by apply NoDup_snoc_fresh.
  - apply Forall_app. split; [done|]. by apply Forall_singleton.
  - eapply Forall_impl; [done|]. intros a Ha. rewrite fmap_app, elem_of_app. by left.
Qed.

Lemma insert_appointment_wf r db db' : wf db → insert_appointment r db = inr db' → wf db'.
Proof.
  intros [] Hins. unfold insert_appointment in Hins. repeat case_decide; try done. simplify_eq.
  split; simpl; try done.
  - by apply NoDup_snoc_fresh.
  - by apply NoDup_snoc_fresh.
  - apply Forall_app. split; [done|]. by apply Forall_singleton.
Qed.

Lemma update_doctor_ids id name speciality room db :
  d_id <$> doctors (update_doctor id name speciality room db) = d_id <$> doctors db.
Proof.
  simpl. rewrite <- list_fmap_compose. apply list_fmap_ext.
  intros i r _. simpl. by case_decide.
Qed.

Lemma update_doctor_wf id name speciality room db :
  wf db → wf (update_doctor id name speciality room db).
Proof.
  intros []. split; try done.
  - by rewrite update_doctor_ids.
  - rewrite update_doctor_ids. done.
Qed.

Lemma update_slot_wf id doctorId date time db db' :
  wf db → update_slot id doctorId date time db = inr db' → wf db'.
Proof.
  intros [] Hupd. unfold update_slot in Hupd. repeat case_decide; simplify_eq; try done.
  assert (s_id <$> ((λ r, if decide (s_id r = id) then Slot (s_id r) doctorId date time else r)
                      <$> slots db) = s_id <$> slots db) as Hids.
  { rewrite <- list_fmap_compose. apply list_fmap_ext. intros i r _. simpl. by case_decide. }
  split; simpl; try done.
  - by rewrite Hids.
  - apply Forall_fmap. eapply Forall_impl; [done|]. intros s Hs. simpl. by case_decide.
  - by rewrite Hids.
Qed.

Lemma delete_appointment_wf id db : wf db → wf (delete_appointment id db).
Proof.
  intros []. split; simpl; try done.
  - by apply NoDup_fmap_filter.
  - by apply NoDup_fmap_filter.
  - by apply Forall_filter_keep.
Qed.

Lemma delete_slot_wf id db : wf db → wf (delete_slot id db).
Proof.
  intros []. split; simpl; try done.
  - by apply NoDup_fmap_filter.
  - by apply NoDup_fmap_filter.
  - by apply NoDup_fmap_filter.
  - by apply Forall_filter_keep.
  - apply Forall_forall. intros a [Hkeep Ha]%list_elem_of_filter.
    rewrite Forall_forall in wf_appointment_fk0.
    apply wf_appointment_fk0 in Ha as (s & Hs & Hin)%list_elem_of_fmap.
    rewrite Hs. apply list_elem_of_fmap_2, list_elem_of_filter. split; [|done].
    intros Heq. apply Hkeep, elem_of_keys_selected. split; [congruence|].
    rewrite <- Heq. by apply list_elem_of_fmap_2.
Qed.

Lemma delete_doctor_wf id db : wf db → wf (delete_doctor id db).
Proof.
  intros []. split; simpl; try done.
  - by apply NoDup_fmap_filter.
  - by apply NoDup_fmap_filter.
  - by apply NoDup_fmap_filter.
  - by apply NoDup_fmap_filter.
  - apply Forall_forall. intros s [Hkeep Hs]%list_elem_of_filter.
    rewrite Forall_forall in wf_slot_fk0.
    apply wf_slot_fk0 in Hs as (d & Hd & Hin)%list_elem_of_fmap.
    rewrite Hd. apply list_elem_of_fmap_2, list_elem_of_filter. split; [|done].
    intros Heq. apply Hkeep, elem_of_keys_selected. split; [congruence|].
    rewrite <- Heq. by apply list_elem_of_fmap_2.
  - apply Forall_forall. intros a [Hkeep Ha]%list_elem_of_filter.
    rewrite Forall_forall in wf_appointment_fk0.
    apply wf_appointment_fk0 in Ha as (s & Hs & Hin)%list_elem_of_fmap.
    rewrite Hs. apply list_elem_of_fmap_2, list_elem_of_filter. split; [|done].
    intros Hdead. apply Hkeep. rewrite Hs.
    apply list_elem_of_fmap_2, list_elem_of_filter. done.
Qed.

End storage.

(** ** Every handler keeps the database well formed *)

Section handlers.
Context `{validator}.
Implicit Types (db : DB) (r : request).

Lemma unique_booking_NoDup db :
  unique_booking db ↔ NoDup (a_slot_id <$> appointments db).
Proof. unfold unique_booking, bookings. by rewrite NoDup_fmap_count. Qed.

(** What a handler can do to the appointments table: delete some rows, or
    append one row that passed the checks of [insert_appointment]. *)
Lemma handle_appointments r db :
  (∃ (P : appointment → Prop) (dec : ∀ a, Decision (P a)),
      appointments (handle r db).2 = filter P (appointments db))
  ∨ (∃ row, insert_appointment row db = inr (handle r db).2
            ∧ appointments (handle r db).2 = appointments db ++ [row]).
Proof.
  assert (∀ db', appointments db' = appointments db →
    ∃ (P : appointment → Prop) (dec : ∀ a, Decision (P a)),
      appointments db' = filter P (appointments db)) as Hsame.
  { intros db' ->. exists (λ _, True), _. symmetry. apply filter_all.
    by apply Forall_true. }
  destruct r as [b|id b|id|uuid b|id b|id|uuid now b|id]; simpl.
  - left. apply Hsame. unfold post_doctors.
    destruct (handleValidation _); [done|].
    destruct (insert_doctor _ db) as [code|db'] eqn:Hins; simpl.
    + by destruct (String.eqb _ _).
    + unfold insert_doctor in Hins. case_decide; by simplify_eq.
  - left. apply Hsame. unfold put_doctors.
    destruct (handleValidation _); [done|]. by destruct (select_doctor _ _).
  - left. by eexists _, _.
  - left. apply Hsame. unfold post_slots.
    destruct (handleValidation _); [done|]. destruct (select_doctor _ _); [|done].
    destruct (insert_slot _ db) as [code|db'] eqn:Hins; [done|]. simpl.
    unfold insert_slot in Hins. repeat case_decide; by simplify_eq.
  - left. apply Hsame. unfold put_slots.
    destruct (handleValidation _); [done|]. destruct (select_slot _ _); [|done].
    destruct (select_appointment_by_slot _ _); [done|].
    destruct (update_slot _ _ _ _ db) as [code|db'] eqn:Hupd; [done|]. simpl.
    unfold update_slot in Hupd. repeat case_decide; by simplify_eq.
  - left. by eexists _, _.
  - unfold post_appointments, post_appointments_with.
    destruct (handleValidation _); [by left; apply Hsame|].
    destruct (select_slot _ _); [|by left; apply Hsame].
    destruct (insert_appointment _ db) as [code|db'] eqn:Hins; simpl.
    + left. apply Hsame. by destruct (startsWith _ _).
    + right. eexists. split; [done|].
      unfold insert_appointment in Hins. repeat case_decide; by simplify_eq.
  - left. by eexists _, _.
Qed.

Lemma insert_appointment_unique row db db' :
  unique_booking db → insert_appointment row db = inr db' → unique_booking db'.
Proof.
  rewrite !unique_booking_NoDup. intros Hu Hins.
  unfold insert_appointment in Hins. repeat case_decide; try done. simplify_eq. simpl.
  by apply NoDup_snoc_fresh.
Qed.

Lemma handle_unique_booking r db :
  unique_booking db → unique_booking (handle r db).2.
Proof.
  intros Hu. destruct (handle_appointments r db) as [(P & dec & Heq)|(row & Hins & _)].
  - apply unique_booking_NoDup. rewrite Heq.
    by apply NoDup_fmap_filter, unique_booking_NoDup.
  - by eapply insert_appointment_unique.
Qed.

Lemma handle_wf r db : wf db → wf (handle r db).2.
Proof.
  intros Hwf.
  destruct r as [b|id b|id|uuid b|id b|id|uuid now b|id]; simpl.
  - unfold post_doctors. destruct (handleValidation _); [done|].
    destruct (insert_doctor _ db) as [code|db'] eqn:Hins; simpl.
    + by destruct (String.eqb _ _).
    + by eapply insert_doctor_wf.
  - unfold put_doctors. destruct (handleValidation _); [done|].
    destruct (select_doctor _ _); [|done]. by apply update_doctor_wf.
  - by apply delete_doctor_wf.
  - unfold post_slots. destruct (handleValidation _); [done|].
    destruct (select_doctor _ _); [|done].
    destruct (insert_slot _ db) as [code|db'] eqn:Hins; [done|]. by eapply insert_slot_wf.
  - unfold put_slots. destruct (handleValidation _); [done|].
    destruct (select_slot _ _); [|done].
    destruct (select_appointment_by_slot _ _); [done|].
    destruct (update_slot _ _ _ _ db) as [code|db'] eqn:Hupd; [done|].
    by eapply update_slot_wf.
  - by apply delete_slot_wf.
  - unfold post_appointments, post_appointments_with.
    destruct (handleValidation _); [done|]. destruct (select_slot _ _); [|done].
    destruct (insert_appointment _ db) as [code|db'] eqn:Hins; simpl.
    + by destruct (startsWith _ _).
    + by eapply insert_appointment_wf.
  - by apply delete_appointment_wf.
Qed.

Lemma reachable_wf db : reachable db → wf db.
Proof. induction 1; [apply wf_init|by apply handle_wf]. Qed.

Lemma serve_snd_wf rs db : wf db → wf (serve rs db).2.
Proof.
  revert db. induction rs as [|r rs IH]; intros db Hwf; [done|].
  simpl. destruct (handle r db) as [resp db1] eqn:Hh.
  specialize (IH db1). destruct (serve rs db1) as [resps db2]. simpl in *.
  apply IH. change db1 with (resp, db1).2. rewrite <- Hh. by apply handle_wf.
Qed.

(** Whatever [insert_appointment] throws is a constraint error. *)
Lemma insert_appointment_error row db code :
  insert_appointment row db = inl code → startsWith code "SQLITE_CONSTRAINT" = true.
Proof.
  unfold insert_appointment. repeat case_decide; intros; by simplify_eq.
Qed.

(** [C1] At most one appointment references any given slot, in every
    database the server can reach.  The storage layer enforces it: an
    insert whose [slot_id] is already referenced is refused with a
    constraint error, and an insert that commits keeps the slots of the
    appointments pairwise distinct.  Every write request (creating,
    updating or deleting a doctor or a slot, booking, cancelling) keeps the
    invariant. *)
Theorem unique_booking_invariant :
  (∀ row db, a_slot_id row ∈ a_slot_id <$> appointments db →
     ∃ code, insert_appointment row db = inl code
             ∧ startsWith code "SQLITE_CONSTRAINT" = true)
  ∧ (∀ row db db', unique_booking db → insert_appointment row db = inr db' →
       unique_booking db')
  ∧ (∀ r db, unique_booking db → unique_booking (handle r db).2)
  ∧ (∀ db, reachable db → unique_booking db).
Proof.
  split_and!.
  - intros row db Hin. unfold insert_appointment.
    case_decide; [by eexists|]. case_decide; [by eexists|done].
  - apply insert_appointment_unique.
  - apply handle_unique_booking.
  - intros db Hr. apply unique_booking_NoDup, wf_slot_unique. by apply reachable_wf.
Qed.

End handlers.

(** ** Booking *)

Section booking.
Implicit Types (db : DB) (b : appointment_body).

Lemma check_nil field ok : check field ok = [] ↔ ok = true.
Proof. destruct ok; simpl; split; congruence. Qed.

Lemma truthy_true s : truthy s = true ↔ s ≠ "".
Proof. destruct s; simpl; split; congruence. Qed.

Lemma handleValidation_nil : handleValidation [] = None.
Proof. done. Qed.

Lemma handleValidation_errors errs :
  errs ≠ [] → handleValidation errs = Some (Response 400 (JErrors errs)).
Proof. by destruct errs. Qed.

Lemma string_notEmpty_true v :
  string_notEmpty v = true ↔ ∃ s, v = Some s ∧ s ≠ "".
Proof.
  destruct v as [s|]; simpl.
  - rewrite truthy_true. split; [by eexists|]. by intros (s' & [= <-] & Hs).
  - split; [done|]. by intros (s' & ? & _).
Qed.

Lemma string_trim_notEmpty_true v :
  string_trim_notEmpty v = true ↔ ∃ s, v = Some s ∧ trim s ≠ "".
Proof.
  destruct v as [s|]; simpl.
  - rewrite truthy_true. split; [by eexists|]. by intros (s' & [= <-] & Hs).
  - split; [done|]. by intros (s' & ? & _).
Qed.

Lemma optional_string_true v : optional_string v = true.
Proof. by destruct v. Qed.

(** Which bodies [POST /appointments] accepts. *)
Lemma validate_post_appointments_nil b :
  validate_post_appointments b = []
  ↔ (∃ s, req_slotId b = Some s ∧ s ≠ "")
    ∧ (∃ n, req_patientName b = Some n ∧ trim n ≠ "").
Proof.
  unfold validate_post_appointments.
  rewrite !app_nil, !check_nil, !optional_string_true.
  rewrite string_notEmpty_true, string_trim_notEmpty_true. tauto.
Qed.

Lemma select_slot_None id db : select_slot id db = None ↔ id ∉ s_id <$> slots db.
Proof. apply head_filter_key_None. Qed.

Lemma select_slot_Some id db :
  id ∈ s_id <$> slots db → ∃ s, select_slot id db = Some s ∧ s_id s = id ∧ s ∈ slots db.
Proof. apply head_filter_key_Some. Qed.

Lemma book_invalid between uuid now b db :
  validate_post_appointments b ≠ [] →
  post_appointments_with between uuid now b db
  = (Response 400 (JErrors (validate_post_appointments b)), db).
Proof.
  intros Hv. unfold post_appointments_with. by rewrite handleValidation_errors.
Qed.

Lemma book_no_slot between uuid now b db :
  validate_post_appointments b = [] →
  default_to (req_slotId b) "" ∉ s_id <$> slots db →
  post_appointments_with between uuid now b db = (Response 400 (JError "Slot not found"), db).
Proof.
  intros Hv Hs. unfold post_appointments_with. rewrite Hv, handleValidation_nil.
  apply select_slot_None in Hs. by rewrite Hs.
Qed.

(** Past the two checks, the answer is decided by the insert. *)
Lemma book_insert between uuid now b db :
  validate_post_appointments b = [] →
  default_to (req_slotId b) "" ∈ s_id <$> slots db →
  post_appointments_with between uuid now b db
  = match insert_appointment (new_appointment uuid now b) (between db) with
    | inr db' => (Response 201 (JAppointment (select_appointment uuid db')), db')
    | inl code => (conflict, between db)
    end.
Proof.
  intros Hv (s & Hs & _)%select_slot_Some. unfold post_appointments_with.
  rewrite Hv, handleValidation_nil, Hs.
  destruct (insert_appointment _ _) as [code|db'] eqn:Hins; [|done].
  by rewrite (insert_appointment_error _ _ _ Hins).
Qed.

Lemma book_taken uuid now b db :
  validate_post_appointments b = [] →
  default_to (req_slotId b) "" ∈ s_id <$> slots db →
  default_to (req_slotId b) "" ∈ a_slot_id <$> appointments db →
  post_appointments uuid now b db = (conflict, db).
Proof.
  intros Hv Hs Hb. unfold post_appointments. rewrite book_insert by done.
  unfold insert_appointment. simpl. by repeat case_decide.
Qed.

Lemma book_id_taken uuid now b db :
  validate_post_appointments b = [] →
  default_to (req_slotId b) "" ∈ s_id <$> slots db →
  uuid ∈ a_id <$> appointments db →
  post_appointments uuid now b db = (conflict, db).
Proof.
  intros Hv Hs Hb. unfold post_appointments. rewrite book_insert by done.
  unfold insert_appointment. simpl. by repeat case_decide.
Qed.

Lemma book_open uuid now b db :
  validate_post_appointments b = [] →
  default_to (req_slotId b) "" ∈ s_id <$> slots db →
  default_to (req_slotId b) "" ∉ a_slot_id <$> appointments db →
  uuid ∉ a_id <$> appointments db →
  post_appointments uuid now b db
  = (Response 201 (JAppointment (Some (new_appointment uuid now b))),
     MkDB (doctors db) (slots db) (appointments db ++ [new_appointment uuid now b])).
Proof.
  intros Hv Hs Hb Hid. unfold post_appointments. rewrite book_insert by done.
  unfold insert_appointment. simpl. repeat case_decide; try done.
  do 3 f_equal. unfold select_appointment. simpl.
  rewrite filter_app. apply (filter_key_nil a_id) in Hid. rewrite Hid. simpl.
  rewrite filter_cons_True by done. done.
Qed.

End booking.

Section races.
Context `{validator}.
Implicit Types (db : DB) (r : request) (rs : list request).

Lemma serve_cons r rs db :
  serve (r :: rs) db = ((handle r db).1 :: (serve rs (handle r db).2).1,
                        (serve rs (handle r db).2).2).
Proof.
  simpl. destruct (handle r db) as [resp db1]. simpl.
  by destruct (serve rs db1) as [resps db2].
Qed.

(** Once the slot is taken, every further booking of it is a conflict and
    leaves the database alone. *)
Lemma serve_taken slotId db0 db rs :
  Forall (books slotId db0) rs →
  slotId ∈ s_id <$> slots db →
  slotId ∈ a_slot_id <$> appointments db →
  serve rs db = (replicate (length rs) conflict, db).
Proof.
  intros Hrs Hs Hb. induction Hrs as [|r rs Hr _ IH]; [done|].
  destruct r as [| | | | | |uuid now b|]; try done.
  destruct Hr as (Hslot & Hv & _).
  rewrite serve_cons. simpl handle.
  rewrite book_taken; [|done|by rewrite Hslot..]. simpl. by rewrite IH.
Qed.

(** The first booking of an open slot wins; the others lose. *)
Lemma serve_open slotId db r rs :
  Forall (books slotId db) (r :: rs) →
  slotId ∈ s_id <$> slots db →
  slotId ∉ a_slot_id <$> appointments db →
  ∃ row, a_slot_id row = slotId
    ∧ serve (r :: rs) db
      = (created row :: replicate (length rs) conflict,
         MkDB (doctors db) (slots db) (appointments db ++ [row])).
Proof.
  intros [Hr Hrs]%Forall_cons Hs Hb.
  destruct r as [| | | | | |uuid now b|]; try done.
  destruct Hr as (Hslot & Hv & Hid).
  exists (new_appointment uuid now b). split; [by simpl; rewrite Hslot|].
  rewrite serve_cons. simpl handle.
  rewrite book_open; [|done|by rewrite Hslot..|done]. simpl.
  erewrite serve_taken; [done|exact Hrs|done|]. simpl.
  rewrite fmap_app, elem_of_app. right. simpl. rewrite Hslot. simpl.
  by apply list_elem_of_singleton.
Qed.

Lemma bookings_after_insert slotId db row :
  slotId ∉ a_slot_id <$> appointments db → a_slot_id row = slotId →
  bookings slotId (MkDB (doctors db) (slots db) (appointments db ++ [row])) = [row].
Proof.
  intros Hb Hrow. unfold bookings. simpl. rewrite filter_app.
  apply (filter_key_nil a_slot_id) in Hb. rewrite Hb. simpl.
  by rewrite filter_cons_True.
Qed.

Lemma conflicts_not_created n :
  filter (λ resp, status resp = 201) (replicate n conflict) = [].
Proof.
  induction n as [|n IH]; [done|]. cbn [replicate]. by rewrite filter_cons_False.
Qed.

Lemma conflicts_all_conflict n :
  filter (λ resp, status resp = 409) (replicate n conflict) = replicate n conflict.
Proof.
  induction n as [|n IH]; [done|]. cbn [replicate].
  rewrite filter_cons_True by done. by rewrite IH.
Qed.

(** [C2] [N] bookings of the same open slot, handled in any order (each
    handler runs to completion before the next starts): the first one
    handled is answered 201, each of the other [N-1] is answered 409 "Slot
    already booked", and after any number of them at most one appointment
    references the slot. *)
Theorem concurrent_bookings_one_winner slotId db rs sched :
  slotId ∈ s_id <$> slots db →
  slotId ∉ a_slot_id <$> appointments db →
  Forall (books slotId db) rs →
  rs ≠ [] →
  sched ≡ₚ rs →
  (∃ row, (serve sched db).1 = created row :: replicate (length rs - 1) conflict)
  ∧ length (filter (λ resp, status resp = 201) (serve sched db).1) = 1
  ∧ length (filter (λ resp, status resp = 409) (serve sched db).1) = length rs - 1
  ∧ length (bookings slotId (serve sched db).2) = 1
  ∧ ∀ k, length (bookings slotId (serve (take k sched) db).2) ≤ 1.
Proof.
  intros Hs Hb Hrs Hne Hperm.
  rewrite <- Hperm in Hrs. rewrite <- (Permutation_length Hperm).
  assert (sched ≠ []) as Hne'.
  { intros ->. by apply Permutation_nil_l in Hperm. }
  clear rs Hne Hperm.
  destruct sched as [|r sched]; [done|].
  destruct (serve_open slotId db r sched Hrs Hs Hb) as (row & Hrow & Hserve).
  rewrite Hserve. cbn [fst snd].
  replace (length (r :: sched) - 1) with (length sched) by (simpl; lia).
  split_and!.
  - by exists row.
  - rewrite filter_cons_True by done. by rewrite conflicts_not_created.
  - rewrite filter_cons_False by done.
    by rewrite conflicts_all_conflict, length_replicate.
  - by rewrite bookings_after_insert.
  - intros [|k]; simpl take.
    + simpl. unfold bookings. apply (filter_key_nil a_slot_id) in Hb. rewrite Hb.
      simpl. lia.
    + assert (Forall (books slotId db) (r :: take k sched)) as Hpre.
      { apply Forall_cons in Hrs as [Hr Hrest]. apply Forall_cons. split; [done|].
        by apply Forall_take. }
      destruct (serve_open slotId db r (take k sched) Hpre Hs Hb) as (row' & Hrow' & ->).
      cbn [snd]. by rewrite bookings_after_insert.
Qed.

End races.

Section booking_outcomes.
Implicit Types (db : DB) (b : appointment_body).

(** [C3] What [POST /appointments] answers, for every body,
    generated id and database.  The body is validated first: unless
    [slotId] is a non-empty string and [patientName] is a string that is
    not blank, the answer is 400 with the validation errors, whether or
    not the slot exists.  A valid body whose slot does not exist is
    answered 400 "Slot not found"; one whose slot is already referenced by
    an appointment, or whose generated id is already the id of one, is
    answered 409 "Slot already booked".  In these cases the database is
    left as it was.  Otherwise the answer is 201 with the row that was
    appended to the appointments: its id is the generated id, its status
    is Confirmed, its creation time is the current time, its slot is the
    requested one and its patient name is the trimmed name. *)
Theorem book_outcomes uuid now b db :
  (validate_post_appointments b = []
   ↔ (∃ s, req_slotId b = Some s ∧ s ≠ "")
     ∧ (∃ n, req_patientName b = Some n ∧ trim n ≠ ""))
  ∧ (validate_post_appointments b ≠ [] →
     post_appointments uuid now b db
     = (Response 400 (JErrors (validate_post_appointments b)), db))
  ∧ (validate_post_appointments b = [] →
     default_to (req_slotId b) "" ∉ s_id <$> slots db →
     post_appointments uuid now b db = (Response 400 (JError "Slot not found"), db))
  ∧ (validate_post_appointments b = [] →
     default_to (req_slotId b) "" ∈ s_id <$> slots db →
     default_to (req_slotId b) "" ∈ a_slot_id <$> appointments db
     ∨ uuid ∈ a_id <$> appointments db →
     post_appointments uuid now b db = (Response 409 (JError "Slot already booked"), db))
  ∧ (validate_post_appointments b = [] →
     default_to (req_slotId b) "" ∈ s_id <$> slots db →
     default_to (req_slotId b) "" ∉ a_slot_id <$> appointments db →
     uuid ∉ a_id <$> appointments db →
     ∃ row,
       post_appointments uuid now b db
       = (Response 201 (JAppointment (Some row)),
          MkDB (doctors db) (slots db) (appointments db ++ [row]))
       ∧ a_id row = uuid
       ∧ a_slot_id row = default_to (req_slotId b) ""
       ∧ a_patient_name row = sanitized (req_patientName b)
       ∧ a_status row = "Confirmed"
       ∧ a_created_at row = now).
Proof.
  split_and!.
  - apply validate_post_appointments_nil.
  - apply book_invalid.
  - apply book_no_slot.
  - intros Hv Hs [Hb|Hid]; [by apply book_taken|by apply book_id_taken].
  - intros Hv Hs Hb Hid. exists (new_appointment uuid now b).
    split; [by apply book_open|done].
Qed.

(** [C10] Past validation and the slot lookup, every error the insert
    throws is answered 409 "Slot already booked", whatever other writers
    committed between the lookup and the insert.  In particular, when the
    slot is deleted in between, the insert fails on the foreign key and the
    answer is still 409 "Slot already booked", not "Slot not found". *)
Theorem insert_failure_is_conflict uuid now b db :
  validate_post_appointments b = [] →
  default_to (req_slotId b) "" ∈ s_id <$> slots db →
  (∀ between code,
     insert_appointment (new_appointment uuid now b) (between db) = inl code →
     post_appointments_with between uuid now b db
     = (Response 409 (JError "Slot already booked"), between db))
  ∧ (uuid ∉ a_id <$> appointments db →
     insert_appointment (new_appointment uuid now b)
       (delete_slot (default_to (req_slotId b) "") db)
     = inl SQLITE_CONSTRAINT_FOREIGNKEY
     ∧ post_appointments_with (delete_slot (default_to (req_slotId b) "")) uuid now b db
       = (Response 409 (JError "Slot already booked"),
          delete_slot (default_to (req_slotId b) "") db)).
Proof.
  intros Hv Hs. split.
  - intros between code Hins. rewrite book_insert by done. by rewrite Hins.
  - intros Hid.
    assert (insert_appointment (new_appointment uuid now b)
              (delete_slot (default_to (req_slotId b) "") db)
            = inl SQLITE_CONSTRAINT_FOREIGNKEY) as Hins.
    { unfold insert_appointment. simpl.
      case_decide as Hpk.
      { exfalso. apply Hid. apply list_elem_of_fmap in Hpk as (a & -> & Ha).
        apply list_elem_of_filter in Ha as [_ Ha]. by apply list_elem_of_fmap_2. }
      case_decide as Hun.
      { exfalso. apply list_elem_of_fmap in Hun as (a & Heq & Ha).
        apply list_elem_of_filter in Ha as [Hkeep Ha]. apply Hkeep.
        rewrite <- Heq. by apply elem_of_keys_selected. }
      case_decide as Hfk; [|done].
      exfalso. apply list_elem_of_fmap in Hfk as (s & Heq & Hin).
      by apply list_elem_of_filter in Hin as [Hne _]. }
    split; [done|]. rewrite book_insert by done. by rewrite Hins.
Qed.

End booking_outcomes.

(** ** Cancelling and deleting *)

Section lifecycle.
Implicit Types (db : DB) (id : string).

Lemma delete_doctor_absent id db : id ∉ d_id <$> doctors db → delete_doctor id db = db.
Proof.
  intros Hid. unfold delete_doctor.
  apply (filter_key_nil d_id) in Hid as Hnil.
  destruct db as [ds ss aps]. simpl in *. f_equal.
  - apply filter_all, Forall_forall. intros d Hd Heq. apply Hid. rewrite <- Heq.
    by apply list_elem_of_fmap_2.
  - apply filter_all, Forall_forall. intros s _ Hin. rewrite Hnil in Hin.
    by apply not_elem_of_nil in Hin.
  - apply filter_all, Forall_forall. intros a _ Hin.
    apply list_elem_of_fmap in Hin as (s & _ & Hs).
    apply list_elem_of_filter in Hs as [Hd _]. rewrite Hnil in Hd.
    by apply not_elem_of_nil in Hd.
Qed.

Lemma delete_slot_absent id db : id ∉ s_id <$> slots db → delete_slot id db = db.
Proof.
  intros Hid. unfold delete_slot.
  apply (filter_key_nil s_id) in Hid as Hnil.
  destruct db as [ds ss aps]. simpl in *. f_equal.
  - apply filter_all, Forall_forall. intros s Hs Heq. apply Hid. rewrite <- Heq.
    by apply list_elem_of_fmap_2.
  - apply filter_all, Forall_forall. intros a _ Hin. rewrite Hnil in Hin.
    by apply not_elem_of_nil in Hin.
Qed.

Lemma delete_appointment_absent id db :
  id ∉ a_id <$> appointments db → delete_appointment id db = db.
Proof.
  intros Hid. unfold delete_appointment.
  destruct db as [ds ss aps]. simpl in *. f_equal.
  apply filter_all, Forall_forall. intros a Ha Heq. apply Hid. rewrite <- Heq.
  by apply list_elem_of_fmap_2.
Qed.

(** [C7] Deleting by an id that names no doctor, no slot or no
    appointment is answered 204, as a deletion that removed something is,
    and leaves the database as it was. *)
Theorem delete_missing_is_success id db :
  (id ∉ d_id <$> doctors db → delete_doctors id db = (Response 204 JEmpty, db))
  ∧ (id ∉ s_id <$> slots db → delete_slots id db = (Response 204 JEmpty, db))
  ∧ (id ∉ a_id <$> appointments db →
     delete_appointments id db = (Response 204 JEmpty, db)).
Proof.
  split_and!; intros Hid.
  - unfold delete_doctors. by rewrite delete_doctor_absent.
  - unfold delete_slots. by rewrite delete_slot_absent.
  - unfold delete_appointments. by rewrite delete_appointment_absent.
Qed.


(** [C8] [PUT /doctors/:id] on a doctor that exists touches nothing but
    the name, speciality and room of that doctor: the slots and the
    appointments are as before, every doctor keeps its place and its id,
    and every other doctor is as before.  When the body is accepted the row
    of the doctor holds the fields of the body, each absent field keeping
    its old value, and the answer is 200 with those fields. *)
Theorem update_doctor_frame id b db :
  id ∈ d_id <$> doctors db →
  slots (put_doctors id b db).2 = slots db
  ∧ appointments (put_doctors id b db).2 = appointments db
  ∧ d_id <$> doctors (put_doctors id b db).2 = d_id <$> doctors db
  ∧ (∀ i r, doctors db !! i = Some r → d_id r ≠ id →
       doctors (put_doctors id b db).2 !! i = Some r)
  ∧ (validate_put_doctors b = [] →
     ∃ doc, select_doctor id db = Some doc
       ∧ let name := default_to (req_name b) (d_name doc) in
         let speciality := default_to (Some <$> req_speciality b) (d_speciality doc) in
         let room := default_to (Some <$> req_room b) (d_room doc) in
         (put_doctors id b db).1 = Response 200 (JDoctor id name speciality room)
         ∧ ∀ i r, doctors db !! i = Some r → d_id r = id →
             doctors (put_doctors id b db).2 !! i = Some (Doctor id name speciality room)).
Proof.
  intros Hid.
  destruct (head_filter_key_Some d_id (doctors db) id Hid) as (doc & Hdoc & _ & _).
  fold (select_doctor id db) in Hdoc.
  unfold put_doctors. rewrite Hdoc.
  destruct (handleValidation (validate_put_doctors b)) as [resp|] eqn:Hv.
  - simpl. split_and!; try done. intros Hnil. by rewrite Hnil in Hv.
  - cbn [fst snd]. split_and!; try done.
    + apply update_doctor_ids.
    + intros i r Hi Hne. simpl. rewrite list_lookup_fmap, Hi. simpl.
      by rewrite decide_False.
    + intros _. exists doc. split; [done|]. simpl. split; [done|].
      intros i r Hi Heq. rewrite list_lookup_fmap, Hi. simpl.
      rewrite decide_True by done. by rewrite Heq.
Qed.

Lemma select_appointment_by_slot_Some id db :
  id ∈ a_slot_id <$> appointments db →
  ∃ a, select_appointment_by_slot id db = Some a.
Proof.
  intros Hid. destruct (head_filter_key_Some a_slot_id _ _ Hid) as (a & Ha & _).
  by exists a.
Qed.

Lemma delete_doctor_present id db :
  id ∈ d_id <$> doctors db →
  delete_doctor id db
  = MkDB (filter (λ d, d_id d ≠ id) (doctors db))
         (filter (λ s, s_doctor_id s ≠ id) (slots db))
         (filter (λ a, a_slot_id a ∉ s_id <$> slots_of id db) (appointments db)).
Proof.
  intros Hid. unfold delete_doctor, slots_of.
  assert (∀ y, y ∈ d_id <$> filter (λ r, d_id r = id) (doctors db) ↔ y = id) as Hdel.
  { intros y. rewrite elem_of_keys_selected. tauto. }
  f_equal.
  - apply list_filter_iff. intros s. by rewrite Hdel.
  - rewrite (list_filter_iff (λ r, s_doctor_id r ∈ _) (λ r, s_doctor_id r = id)); [done|].
    intros s. by rewrite Hdel.
Qed.

(** As many appointments are booked on the slots of a doctor as the doctor
    has booked slots. *)
Lemma appointments_of_booked_slots id db :
  wf db → length (appointments_of id db) = length (booked_slots_of id db).
Proof.
  intros Hwf.
  rewrite <- (length_fmap a_slot_id (appointments_of id db)).
  rewrite <- (length_fmap s_id (booked_slots_of id db)).
  apply Permutation_length, NoDup_Permutation.
  - apply NoDup_fmap_filter, Hwf.
  - unfold booked_slots_of, slots_of. do 2 apply NoDup_fmap_filter. apply Hwf.
  - intros x. unfold appointments_of, booked_slots_of.
    rewrite !list_elem_of_fmap. split.
    + intros (a & -> & [(s & Hs & Hin)%list_elem_of_fmap Ha]%list_elem_of_filter).
      exists s. split; [done|]. apply list_elem_of_filter. split; [|done].
      rewrite <- Hs. by apply list_elem_of_fmap_2.
    + intros (s & -> & [(a & Ha & Hin)%list_elem_of_fmap Hs]%list_elem_of_filter).
      exists a. split; [done|]. apply list_elem_of_filter. split; [|done].
      rewrite <- Ha. by apply list_elem_of_fmap_2.
Qed.

(** [C4] [DELETE /doctors/:id] on a doctor with [k] slots of which [m] are
    booked is one statement, so it takes the database from one state to the
    next with nothing in between.  The next state lacks that doctor, those
    [k] slots and the [m] appointments booked on them; the other rows are
    kept, in their order.  No slot of the doctor and no appointment on such
    a slot is left, and every reference has a target. *)
Theorem delete_doctor_cascade id db :
  wf db →
  id ∈ d_id <$> doctors db →
  (delete_doctors id db).1 = Response 204 JEmpty
  ∧ doctors (delete_doctors id db).2 = filter (λ d, d_id d ≠ id) (doctors db)
  ∧ slots (delete_doctors id db).2 = filter (λ s, s_doctor_id s ≠ id) (slots db)
  ∧ appointments (delete_doctors id db).2
    = filter (λ a, a_slot_id a ∉ s_id <$> slots_of id db) (appointments db)
  ∧ length (doctors db) = length (doctors (delete_doctors id db).2) + 1
  ∧ length (slots db)
    = length (slots (delete_doctors id db).2) + length (slots_of id db)
  ∧ length (appointments db)
    = length (appointments (delete_doctors id db).2) + length (appointments_of id db)
  ∧ length (appointments_of id db) = length (booked_slots_of id db)
  ∧ (id ∉ d_id <$> doctors (delete_doctors id db).2)
  ∧ slots_of id (delete_doctors id db).2 = []
  ∧ appointments_of id (delete_doctors id db).2 = []
  ∧ wf (delete_doctors id db).2.
Proof.
  intros Hwf Hid. unfold delete_doctors. cbn [fst snd].
  split; [done|].
  assert (wf (delete_doctor id db)) as Hwf' by by apply delete_doctor_wf.
  rewrite delete_doctor_present in * by done. cbn [doctors slots appointments].
  split_and!; try done.
  - rewrite (length_filter_split (λ d, d_id d ≠ id) (λ d, d_id d = id) (doctors db)).
    + f_equal.
      pose proof (proj1 (NoDup_fmap_count d_id (doctors db)) (wf_doctor_pk _ Hwf) id) as Hle.
      destruct (filter (λ d, d_id d = id) (doctors db)) as [|d l] eqn:Hf.
      * by apply (filter_key_nil d_id) in Hf.
      * simpl in *. lia.
    + intros d. destruct (decide (d_id d = id)); tauto.
  - apply length_filter_split. intros s. unfold slots_of.
    destruct (decide (s_doctor_id s = id)); tauto.
  - apply length_filter_split. intros a.
    destruct (decide (a_slot_id a ∈ s_id <$> slots_of id db)); tauto.
  - by apply appointments_of_booked_slots.
  - intros (d & Hd & [Hne _]%list_elem_of_filter)%list_elem_of_fmap. done.
  - unfold slots_of. cbn [slots]. apply filter_none, Forall_forall.
    intros s [Hne _]%list_elem_of_filter. done.
  - unfold appointments_of, slots_of. cbn [slots appointments].
    apply filter_none, Forall_forall.
    intros a _ (s & _ & [Heq [Hne _]%list_elem_of_filter]%list_elem_of_filter)%list_elem_of_fmap.
    done.
Qed.

End lifecycle.

Section slots.
Context `{validator}.
Implicit Types (db : DB) (id : string) (b : slot_body).

(** Which patches [PUT /slots/:id] accepts. *)
Lemma validate_put_slots_nil b :
  validate_put_slots b = []
  ↔ optional isISO8601 (req_date b) = true ∧ optional time_regex (req_time b) = true.
Proof.
  unfold validate_put_slots.
  rewrite !app_nil, !check_nil, optional_string_true. tauto.
Qed.

(** [C5] On the backend, [PUT /slots/:id] on a slot that has an
    appointment never changes the database.  A patch that passes validation
    (an absent or ISO 8601 [date], an absent or [HH:MM] [time]) is answered
    409 "Cannot edit slot with an existing appointment", whichever of
    [doctorId], [date] and [time] it carries; a patch that fails validation
    is answered 400 with the validation errors. *)
Theorem update_booked_slot_rejected id b db :
  id ∈ s_id <$> slots db →
  id ∈ a_slot_id <$> appointments db →
  (put_slots id b db).2 = db
  ∧ (validate_put_slots b = [] →
     (put_slots id b db).1
     = Response 409 (JError "Cannot edit slot with an existing appointment"))
  ∧ (validate_put_slots b ≠ [] →
     (put_slots id b db).1 = Response 400 (JErrors (validate_put_slots b))).
Proof.
  intros (s & Hs & _)%select_slot_Some (a & Ha)%select_appointment_by_slot_Some.
  unfold put_slots. rewrite Hs, Ha.
  destruct (validate_put_slots b) as [|e errs]; simpl; by split_and!.
Qed.

End slots.

(** ** The browser demo *)

Module DemoFacts.
Import Demo.

Section demo.
Implicit Types (st : state) (a : action).

Lemma demo_unique_booking_NoDup st :
  unique_booking st ↔ NoDup (a_slotId <$> appointments st).
Proof. unfold unique_booking. by rewrite NoDup_fmap_count. Qed.

Lemma isSlotBooked_true st slotId :
  isSlotBooked st slotId = true ↔ slotId ∈ a_slotId <$> appointments st.
Proof.
  unfold isSlotBooked. rewrite bool_decide_eq_true, Exists_exists, list_elem_of_fmap.
  split; intros (x & H1 & H2); exists x; by split.
Qed.

Lemma isSlotBooked_false st slotId :
  isSlotBooked st slotId = false ↔ slotId ∉ a_slotId <$> appointments st.
Proof. rewrite <- isSlotBooked_true. by destruct (isSlotBooked st slotId). Qed.

Lemma saveDoctor_appointments e i n s r st :
  appointments (saveDoctor e i n s r st).2 = appointments st.
Proof.
  unfold saveDoctor. destruct (negb _ || negb _); [done|].
  destruct e; by case_bool_decide.
Qed.

Lemma saveSlot_appointments i d dt t r st :
  appointments (saveSlot i d dt t r st).2 = appointments st.
Proof.
  unfold saveSlot. destruct (negb _ || negb _ || negb _); [done|].
  destruct (truthy_opt i); [by case_bool_decide|done].
Qed.

(** The booking button leaves alone a slot that has an appointment. *)
Lemma confirmAppointment_booked slotId n p r rnd now st :
  isSlotBooked st slotId = true →
  (confirmAppointment slotId n p r rnd now st).2 = st
  ∧ ∃ msg, (confirmAppointment slotId n p r rnd now st).1 = Alert msg.
Proof.
  intros Hb. unfold confirmAppointment.
  destruct (negb (truthy slotId)); [by eauto|].
  destruct (negb (truthy (trim n))); [by eauto|].
  rewrite Hb. by eauto.
Qed.

Lemma step_unique_booking a st : unique_booking st → unique_booking (step a st).
Proof.
  rewrite !demo_unique_booking_NoDup. intros Hu.
  destruct a as [e i n s r|c d|i d dt t r|slotId n p r rnd now|c i]; simpl.
  - by rewrite saveDoctor_appointments.
  - unfold deleteDoctor. destruct (negb c); [done|]. simpl. by apply NoDup_fmap_filter.
  - by rewrite saveSlot_appointments.
  - unfold confirmAppointment.
    destruct (negb (truthy slotId)); [done|].
    destruct (negb (truthy (trim n))); [done|].
    destruct (isSlotBooked st slotId) eqn:Hb; [done|]. simpl.
    apply isSlotBooked_false in Hb. by apply NoDup_snoc_fresh.
  - unfold cancelAppointment. destruct (negb c); [done|]. simpl. by apply NoDup_fmap_filter.
Qed.

Lemma run_unique_booking acts st : unique_booking st → unique_booking (run acts st).
Proof.
  revert st. induction acts as [|a acts IH]; intros st Hu; [done|].
  simpl. by apply IH, step_unique_booking.
Qed.

(** [C9] The demo, driven by one user one action at a time, never holds
    two appointments for the same slot: its booking button answers a slot
    that has an appointment with an alert and changes nothing, and every
    action keeps the slots of the appointments pairwise distinct, from the
    default state on.  After a confirmed [deleteDoctor] the doctor is gone,
    no slot of that doctor is left, and every appointment left references a
    slot that is left; when the ids of the slots are pairwise distinct, no
    appointment left references a slot that the doctor had. *)
Theorem demo_single_writer_invariants :
  (∀ today, unique_booking (defaultState today))
  ∧ (∀ slotId n p r rnd now st,
       isSlotBooked st slotId = true →
       (confirmAppointment slotId n p r rnd now st).2 = st
       ∧ ∃ msg, (confirmAppointment slotId n p r rnd now st).1 = Alert msg)
  ∧ (∀ a st, unique_booking st → unique_booking (step a st))
  ∧ (∀ acts st, unique_booking st → unique_booking (run acts st))
  ∧ (∀ doctorId st,
       (doctorId ∉ d_id <$> doctors (deleteDoctor true doctorId st))
       ∧ (∀ s, s ∈ slots (deleteDoctor true doctorId st) → s_doctorId s ≠ doctorId)
       ∧ (∀ ap, ap ∈ appointments (deleteDoctor true doctorId st) →
            ∃ s, s ∈ slots (deleteDoctor true doctorId st) ∧ s_id s = a_slotId ap)
       ∧ (NoDup (s_id <$> slots st) →
          ∀ ap s, ap ∈ appointments (deleteDoctor true doctorId st) →
            s ∈ slots st → s_doctorId s = doctorId → a_slotId ap ≠ s_id s)).
Proof.
  split_and!.
  - intros today slotId. simpl. lia.
  - apply confirmAppointment_booked.
  - apply step_unique_booking.
  - apply run_unique_booking.
  - intros doctorId st. unfold deleteDoctor. simpl. split_and!.
    + intros (d & Hd & [Hne _]%list_elem_of_filter)%list_elem_of_fmap. done.
    + by intros s [Hne _]%list_elem_of_filter.
    + intros ap [(s & Hs & Heq)%Exists_exists _]%list_elem_of_filter. by exists s.
    + intros Hnd ap s [(s' & Hs' & Heq)%Exists_exists _]%list_elem_of_filter Hs Hd Hid.
      apply list_elem_of_filter in Hs' as [Hne Hs'].
      assert (s' = s) as ->; [|done].
      eapply (NoDup_fmap_elem_inj s_id); [done..|congruence].
Qed.

(** [X27] When every appointment references a slot and the ids of the slots are
    pairwise distinct, a confirmed [deleteDoctor] removes the doctor, the
    slots of the doctor and the appointments on those slots, and keeps
    every other object, in its place. *)
Lemma deleteDoctor_exact doctorId st :
  Forall (λ ap, a_slotId ap ∈ s_id <$> slots st) (appointments st) →
  NoDup (s_id <$> slots st) →
  deleteDoctor true doctorId st
  = State (filter (λ d, d_id d ≠ doctorId) (doctors st))
          (filter (λ s, s_doctorId s ≠ doctorId) (slots st))
          (filter (λ ap, a_slotId ap
                         ∉ s_id <$> filter (λ s, s_doctorId s = doctorId) (slots st))
             (appointments st)).
Proof.
  intros Hfk Hnd. unfold deleteDoctor. simpl. f_equal.
  apply filter_ext_in. intros ap Hap. rewrite Exists_exists. split.
  - intros (s & [Hne Hs]%list_elem_of_filter & Heq).
    intros (s' & Heq' & [Hd Hs']%list_elem_of_filter)%list_elem_of_fmap.
    assert (s = s') as -> by (eapply (NoDup_fmap_elem_inj s_id); [done..|congruence]).
    done.
  - intros Hnot. rewrite Forall_forall in Hfk.
    destruct (proj1 (list_elem_of_fmap _ _ _) (Hfk ap Hap)) as (s & Heq & Hs).
    exists s. split; [|done]. apply list_elem_of_filter. split; [|done].
    intros Hd. apply Hnot. rewrite Heq.
    apply list_elem_of_fmap_2, list_elem_of_filter. done.
Qed.

(** [X28] In the demo too a cancelled slot can be booked again at once; the
    new appointment carries the id [uid('AP')] draws. *)
Lemma cancel_then_rebook_demo ap n p r rnd now st :
  unique_booking st →
  ap ∈ appointments st →
  a_slotId ap ≠ "" →
  trim n ≠ "" →
  isSlotBooked (cancelAppointment true (a_id ap) st) (a_slotId ap) = false
  ∧ confirmAppointment (a_slotId ap) n p r rnd now (cancelAppointment true (a_id ap) st)
    = (Done,
       State (doctors st) (slots st)
         (filter (λ x, a_id x ≠ a_id ap) (appointments st)
          ++ [Appointment (uid "AP" rnd) (a_slotId ap) (trim n) (trim p) (trim r)
                "Confirmed" now])).
Proof.
  intros Hu Hap Hslot Hn.
  assert (isSlotBooked (cancelAppointment true (a_id ap) st) (a_slotId ap) = false) as Hfree.
  { apply isSlotBooked_false. simpl. intros (a' & Heq & Ha')%list_elem_of_fmap.
    apply list_elem_of_filter in Ha' as [Hne Ha']. apply Hne. f_equal. symmetry.
    eapply (NoDup_fmap_elem_inj a_slotId); [by apply demo_unique_booking_NoDup|done..]. }
  split; [done|]. unfold confirmAppointment. rewrite Hfree.
  apply truthy_true in Hslot, Hn. by rewrite Hslot, Hn.
Qed.

End demo.

End DemoFacts.

(** ** The properties on the sample data *)

Section samples.
Local Existing Instance calendar_dates.

Ltac by_computation := by apply (bool_decide_unpack _); vm_compute.

Lemma wf_seeded_booked : wf seeded_booked.
Proof. split; by_computation. Qed.

(** Validation comes before the slot lookup: a blank patient name for a
    slot that does not exist is answered with the validation errors, not
    with "Slot not found". *)
Lemma book_validates_before_lookup :
  select_slot "S9" seeded = None
  ∧ post_appointments "a1" "2024-01-10T08:00:00.000Z" blank_for_unknown_slot seeded
    = (Response 400 (JErrors ["patientName"]), seeded)
  ∧ (post_appointments "a1" "2024-01-10T08:00:00.000Z" blank_for_unknown_slot seeded).1
    ≠ Response 400 (JError "Slot not found").
Proof. split_and!; [by vm_compute..|]. vm_compute. intros [=]. Qed.

(** A malformed patch for a booked slot is answered 400, not 409; and the
    demo saves an edit of a booked slot. *)
Lemma booked_slot_edit_not_always_conflict :
  "SL1" ∈ a_slot_id <$> appointments seeded_booked
  ∧ put_slots "SL1" bad_time seeded_booked
    = (Response 400 (JErrors ["time"]), seeded_booked)
  ∧ Demo.isSlotBooked demo_booked "S1" = true
  ∧ (Demo.saveSlot (Some "S1") "D002" "2024-02-01" "11:00" "" demo_booked).1 = Demo.Done
  ∧ Demo.slots (Demo.saveSlot (Some "S1") "D002" "2024-02-01" "11:00" "" demo_booked).2
    = [ Demo.Slot "S1" "D002" "2024-02-01" "11:00";
        Demo.Slot "S2" "D001" "2024-01-10" "09:30";
        Demo.Slot "S3" "D002" "2024-01-10" "10:00" ].
Proof. split_and!; [by_computation|by vm_compute..]. Qed.

(** Deleting what does not exist is answered 204, not 404. *)
Lemma delete_missing_answers_204 :
  ("D9" ∉ d_id <$> doctors seeded_booked)
  ∧ delete_doctors "D9" seeded_booked = (Response 204 JEmpty, seeded_booked)
  ∧ ("SL9" ∉ s_id <$> slots seeded_booked)
  ∧ delete_slots "SL9" seeded_booked = (Response 204 JEmpty, seeded_booked)
  ∧ ("a9" ∉ a_id <$> appointments seeded_booked)
  ∧ delete_appointments "a9" seeded_booked = (Response 204 JEmpty, seeded_booked)
  ∧ status (delete_doctors "D9" seeded_booked).1 ≠ 404
  ∧ status (delete_slots "SL9" seeded_booked).1 ≠ 404
  ∧ status (delete_appointments "a9" seeded_booked).1 ≠ 404.
Proof.
  split_and!; try by_computation; by vm_compute.
Qed.

(** [trim()] on white space that takes more than one byte: it goes from
    both ends and stays inside; the byte a letter shares with the no-break
    space stays. *)
Lemma trim_samples :
  trim (nbsp +:+ " Bob" +:+ ideographic_space +:+ line_separator) = "Bob"
  ∧ trim (" Dr." +:+ nbsp +:+ "Lee" +:+ nbsp) = "Dr." +:+ nbsp +:+ "Lee"
  ∧ trim (a_grave +:+ " ") = a_grave
  ∧ trim (nbsp +:+ nbsp) = "".
Proof. split_and!; by vm_compute. Qed.

(** A patient name of no-break spaces is white space only: the booking is
    answered 400 and the demo alerts. *)
Lemma no_break_spaces_rejected :
  whitespace_only (nbsp +:+ nbsp)
  ∧ post_appointments "a2" "2024-01-10T09:00:00.000Z" no_break_spaces seeded
    = (Response 400 (JErrors ["patientName"]), seeded)
  ∧ Demo.confirmAppointment "S2" (nbsp +:+ nbsp) "" "" "p0q1r2s"
      "2024-01-10T09:00:00.000Z" demo_booked
    = (Demo.Alert "Enter patient name", demo_booked).
Proof.
  split_and!; [|by vm_compute..].
  apply (whitespace_more nbsp); [by_computation|].
  apply (whitespace_more nbsp ""); [by_computation|constructor].
Qed.


Lemma unique_booking_invariant_witness :
  unique_booking seeded_booked
  ∧ unique_booking
      (handle (POST_appointments "a2" "2024-01-10T09:00:00.000Z" bob) seeded_booked).2.
Proof.
  assert (unique_booking seeded_booked) as Hu.
  { apply unique_booking_NoDup. by_computation. }
  split; [exact Hu|].
  exact (proj1 (proj2 (proj2 unique_booking_invariant)) _ _ Hu).
Defined.

Lemma concurrent_bookings_witness :
  ("SL1" ∈ s_id <$> slots seeded)
  ∧ ("SL1" ∉ a_slot_id <$> appointments seeded)
  ∧ Forall (books "SL1" seeded) race
  ∧ race ≠ []
  ∧ reverse race ≡ₚ race
  ∧ (∃ row, (serve (reverse race) seeded).1
            = created row :: replicate (length race - 1) conflict)
  ∧ length (filter (λ resp, status resp = 201) (serve (reverse race) seeded).1) = 1
  ∧ length (filter (λ resp, status resp = 409) (serve (reverse race) seeded).1)
    = length race - 1
  ∧ length (bookings "SL1" (serve (reverse race) seeded).2) = 1
  ∧ ∀ k, length (bookings "SL1" (serve (take k (reverse race)) seeded).2) ≤ 1.
Proof.
  assert ("SL1" ∈ s_id <$> slots seeded) as Hs by by_computation.
  assert ("SL1" ∉ a_slot_id <$> appointments seeded) as Hb by by_computation.
  assert (Forall (books "SL1" seeded) race) as Hrs.
  { repeat apply Forall_cons_2; [| |apply Forall_nil_2];
      (split_and!; [done|by vm_compute|by_computation]). }
  assert (race ≠ []) as Hne by done.
  assert (reverse race ≡ₚ race) as Hp by apply reverse_Permutation.
  refine (conj Hs (conj Hb (conj Hrs (conj Hne (conj Hp _))))).
  exact (concurrent_bookings_one_winner "SL1" seeded race (reverse race) Hs Hb Hrs Hne Hp).
Defined.

Lemma book_outcomes_witness :
  validate_post_appointments bob = []
  ∧ (default_to (req_slotId bob) "" ∈ s_id <$> slots seeded)
  ∧ (default_to (req_slotId bob) "" ∉ a_slot_id <$> appointments seeded)
  ∧ ("a2" ∉ a_id <$> appointments seeded)
  ∧ ∃ row,
      post_appointments "a2" "2024-01-10T09:00:00.000Z" bob seeded
      = (Response 201 (JAppointment (Some row)),
         MkDB (doctors seeded) (slots seeded) (appointments seeded ++ [row]))
      ∧ a_id row = "a2"
      ∧ a_slot_id row = default_to (req_slotId bob) ""
      ∧ a_patient_name row = sanitized (req_patientName bob)
      ∧ a_status row = "Confirmed"
      ∧ a_created_at row = "2024-01-10T09:00:00.000Z".
Proof.
  assert (validate_post_appointments bob = []) as Hv by by vm_compute.
  assert (default_to (req_slotId bob) "" ∈ s_id <$> slots seeded) as Hs by by_computation.
  assert (default_to (req_slotId bob) "" ∉ a_slot_id <$> appointments seeded) as Hb
    by by_computation.
  assert ("a2" ∉ a_id <$> appointments seeded) as Hid by by_computation.
  refine (conj Hv (conj Hs (conj Hb (conj Hid _)))).
  exact (proj2 (proj2 (proj2 (proj2
           (book_outcomes "a2" "2024-01-10T09:00:00.000Z" bob seeded)))) Hv Hs Hb Hid).
Defined.

Lemma insert_failure_is_conflict_witness :
  validate_post_appointments bob = []
  ∧ (default_to (req_slotId bob) "" ∈ s_id <$> slots seeded)
  ∧ ("a2" ∉ a_id <$> appointments seeded)
  ∧ insert_appointment (new_appointment "a2" "2024-01-10T09:00:00.000Z" bob)
      (delete_slot (default_to (req_slotId bob) "") seeded)
    = inl SQLITE_CONSTRAINT_FOREIGNKEY
  ∧ post_appointments_with (delete_slot (default_to (req_slotId bob) ""))
      "a2" "2024-01-10T09:00:00.000Z" bob seeded
    = (Response 409 (JError "Slot already booked"),
       delete_slot (default_to (req_slotId bob) "") seeded).
Proof.
  assert (validate_post_appointments bob = []) as Hv by by vm_compute.
  assert (default_to (req_slotId bob) "" ∈ s_id <$> slots seeded) as Hs by by_computation.
  assert ("a2" ∉ a_id <$> appointments seeded) as Hid by by_computation.
  refine (conj Hv (conj Hs (conj Hid _))).
  exact (proj2 (insert_failure_is_conflict "a2" "2024-01-10T09:00:00.000Z" bob seeded Hv Hs)
           Hid).
Defined.

Lemma delete_doctor_cascade_witness :
  wf seeded_booked
  ∧ ("D001" ∈ d_id <$> doctors seeded_booked)
  ∧ (delete_doctors "D001" seeded_booked).1 = Response 204 JEmpty
  ∧ doctors (delete_doctors "D001" seeded_booked).2
    = filter (λ d, d_id d ≠ "D001") (doctors seeded_booked)
  ∧ slots (delete_doctors "D001" seeded_booked).2
    = filter (λ s, s_doctor_id s ≠ "D001") (slots seeded_booked)
  ∧ appointments (delete_doctors "D001" seeded_booked).2
    = filter (λ a, a_slot_id a ∉ s_id <$> slots_of "D001" seeded_booked)
        (appointments seeded_booked)
  ∧ length (doctors seeded_booked)
    = length (doctors (delete_doctors "D001" seeded_booked).2) + 1
  ∧ length (slots seeded_booked)
    = length (slots (delete_doctors "D001" seeded_booked).2)
      + length (slots_of "D001" seeded_booked)
  ∧ length (appointments seeded_booked)
    = length (appointments (delete_doctors "D001" seeded_booked).2)
      + length (appointments_of "D001" seeded_booked)
  ∧ length (appointments_of "D001" seeded_booked)
    = length (booked_slots_of "D001" seeded_booked)
  ∧ ("D001" ∉ d_id <$> doctors (delete_doctors "D001" seeded_booked).2)
  ∧ slots_of "D001" (delete_doctors "D001" seeded_booked).2 = []
  ∧ appointments_of "D001" (delete_doctors "D001" seeded_booked).2 = []
  ∧ wf (delete_doctors "D001" seeded_booked).2.
Proof.
  pose proof wf_seeded_booked as Hwf.
  assert ("D001" ∈ d_id <$> doctors seeded_booked) as Hid by by_computation.
  refine (conj Hwf (conj Hid _)).
  exact (delete_doctor_cascade "D001" seeded_booked Hwf Hid).
Defined.

Lemma update_booked_slot_rejected_witness :
  ("SL1" ∈ s_id <$> slots seeded_booked)
  ∧ ("SL1" ∈ a_slot_id <$> appointments seeded_booked)
  ∧ validate_put_slots reschedule = []
  ∧ (put_slots "SL1" reschedule seeded_booked).2 = seeded_booked
  ∧ (put_slots "SL1" reschedule seeded_booked).1
    = Response 409 (JError "Cannot edit slot with an existing appointment").
Proof.
  assert ("SL1" ∈ s_id <$> slots seeded_booked) as Hs by by_computation.
  assert ("SL1" ∈ a_slot_id <$> appointments seeded_booked) as Hb by by_computation.
  assert (validate_put_slots reschedule = []) as Hv by by vm_compute.
  refine (conj Hs (conj Hb (conj Hv _))).
  destruct (update_booked_slot_rejected "SL1" reschedule seeded_booked Hs Hb)
    as (Hsame & Hvalid & _).
  exact (conj Hsame (Hvalid Hv)).
Defined.


Lemma delete_missing_is_success_witness :
  ("D9" ∉ d_id <$> doctors seeded_booked)
  ∧ ("D9" ∉ s_id <$> slots seeded_booked)
  ∧ ("D9" ∉ a_id <$> appointments seeded_booked)
  ∧ delete_doctors "D9" seeded_booked = (Response 204 JEmpty, seeded_booked)
  ∧ delete_slots "D9" seeded_booked = (Response 204 JEmpty, seeded_booked)
  ∧ delete_appointments "D9" seeded_booked = (Response 204 JEmpty, seeded_booked).
Proof.
  assert ("D9" ∉ d_id <$> doctors seeded_booked) as Hd by by_computation.
  assert ("D9" ∉ s_id <$> slots seeded_booked) as Hs by by_computation.
  assert ("D9" ∉ a_id <$> appointments seeded_booked) as Ha by by_computation.
  refine (conj Hd (conj Hs (conj Ha _))).
  destruct (delete_missing_is_success "D9" seeded_booked) as (H1 & H2 & H3).
  exact (conj (H1 Hd) (conj (H2 Hs) (H3 Ha))).
Defined.

Lemma update_doctor_frame_witness :
  ("D001" ∈ d_id <$> doctors seeded_booked)
  ∧ validate_put_doctors rename = []
  ∧ slots (put_doctors "D001" rename seeded_booked).2 = slots seeded_booked
  ∧ appointments (put_doctors "D001" rename seeded_booked).2 = appointments seeded_booked
  ∧ d_id <$> doctors (put_doctors "D001" rename seeded_booked).2
    = d_id <$> doctors seeded_booked
  ∧ (∀ i r, doctors seeded_booked !! i = Some r → d_id r ≠ "D001" →
       doctors (put_doctors "D001" rename seeded_booked).2 !! i = Some r)
  ∧ ∃ doc, select_doctor "D001" seeded_booked = Some doc
      ∧ let name := default_to (req_name rename) (d_name doc) in
        let speciality := default_to (Some <$> req_speciality rename) (d_speciality doc) in
        let room := default_to (Some <$> req_room rename) (d_room doc) in
        (put_doctors "D001" rename seeded_booked).1
        = Response 200 (JDoctor "D001" name speciality room)
        ∧ ∀ i r, doctors seeded_booked !! i = Some r → d_id r = "D001" →
            doctors (put_doctors "D001" rename seeded_booked).2 !! i
            = Some (Doctor "D001" name speciality room).
Proof.
  assert ("D001" ∈ d_id <$> doctors seeded_booked) as Hid by by_computation.
  assert (validate_put_doctors rename = []) as Hv by by vm_compute.
  refine (conj Hid (conj Hv _)).
  destruct (update_doctor_frame "D001" rename seeded_booked Hid)
    as (H1 & H2 & H3 & H4 & H5).
  exact (conj H1 (conj H2 (conj H3 (conj H4 (H5 Hv))))).
Defined.

Lemma demo_single_writer_invariants_witness :
  Demo.isSlotBooked demo_booked "S1" = true
  ∧ Demo.unique_booking demo_booked
  ∧ NoDup (Demo.s_id <$> Demo.slots demo_booked)
  ∧ (Demo.confirmAppointment "S1" "Bob" "" "" "p0q1r2s" "2024-01-10T09:00:00.000Z"
       demo_booked).2 = demo_booked
  ∧ Demo.unique_booking
      (Demo.run [ Demo.ConfirmAppointment "S2" "Bob" "" "" "p0q1r2s" "2024-01-10T09:00:00.000Z";
                  Demo.DeleteDoctor true "D002" ] demo_booked)
  ∧ ∀ ap s, ap ∈ Demo.appointments (Demo.deleteDoctor true "D001" demo_booked) →
      s ∈ Demo.slots demo_booked → Demo.s_doctorId s = "D001" →
      Demo.a_slotId ap ≠ Demo.s_id s.
Proof.
  assert (Demo.isSlotBooked demo_booked "S1" = true) as Hb by by vm_compute.
  assert (Demo.unique_booking demo_booked) as Hu.
  { apply DemoFacts.demo_unique_booking_NoDup. by_computation. }
  assert (NoDup (Demo.s_id <$> Demo.slots demo_booked)) as Hnd by by_computation.
  refine (conj Hb (conj Hu (conj Hnd _))).
  destruct DemoFacts.demo_single_writer_invariants as (_ & Hbook & _ & Hrun & Hdel).
  split; [exact (proj1 (Hbook _ _ _ _ _ _ _ Hb))|].
  split; [exact (Hrun _ _ Hu)|].
  exact (proj2 (proj2 (proj2 (Hdel "D001" demo_booked))) Hnd).
Defined.

End samples.

(** ** More about the write routes *)

Section write_routes.
Context `{validator}.
Implicit Types (db : DB) (r : request).

(** [X1] In every database the server can reach, the ids of the doctors,
    of the slots and of the appointments are pairwise distinct, every slot
    belongs to a doctor of the database and every appointment to a slot of
    the database. *)
Theorem referential_integrity db :
  reachable db →
  NoDup (d_id <$> doctors db)
  ∧ NoDup (s_id <$> slots db)
  ∧ NoDup (a_id <$> appointments db)
  ∧ (∀ s, s ∈ slots db → ∃ d, d ∈ doctors db ∧ d_id d = s_doctor_id s)
  ∧ (∀ a, a ∈ appointments db → ∃ s, s ∈ slots db ∧ s_id s = a_slot_id a).
Proof.
  intros Hr.
  assert (wf db) as [Hd Hs Ha _ Hsfk Hafk].
  { induction Hr; [apply wf_init|by apply handle_wf]. }
  split_and!; try done.
  - intros s Hin. rewrite Forall_forall in Hsfk.
    destruct (proj1 (list_elem_of_fmap _ _ _) (Hsfk s Hin)) as (d & Heq & Hdin).
    by exists d.
  - intros a Hin. rewrite Forall_forall in Hafk.
    destruct (proj1 (list_elem_of_fmap _ _ _) (Hafk a Hin)) as (s & Heq & Hsin).
    by exists s.
Qed.

(** [X2] A request that is answered with an error status (400 or above)
    leaves the database exactly as it was. *)
Theorem failure_changes_nothing r db :
  400 ≤ status (handle r db).1 → (handle r db).2 = db.
Proof.
  destruct r as [b|id b|id|uuid b|id b|id|uuid now b|id]; simpl.
  - unfold post_doctors. destruct (handleValidation _); [done|].
    destruct (insert_doctor _ db) as [code|db']; simpl; [by destruct (String.eqb _ _)|lia].
  - unfold put_doctors. destruct (handleValidation _); [done|].
    destruct (select_doctor _ _); simpl; [lia|done].
  - lia.
  - unfold post_slots. destruct (handleValidation _); [done|].
    destruct (select_doctor _ _); [|done].
    destruct (insert_slot _ db) as [code|db']; simpl; [done|lia].
  - unfold put_slots. destruct (handleValidation _); [done|].
    destruct (select_slot _ _); [|done].
    destruct (select_appointment_by_slot _ _); [done|].
    destruct (update_slot _ _ _ _ db) as [code|db']; simpl; [done|lia].
  - lia.
  - unfold post_appointments, post_appointments_with.
    destruct (handleValidation _); [done|]. destruct (select_slot _ _); [|done].
    destruct (insert_appointment _ db) as [code|db']; simpl;
      [by destruct (startsWith _ _)|lia].
  - lia.
Qed.

(** [X3] The tables a write route can change.  [POST] and [PUT /doctors]
    leave the slots and the appointments as they are; [POST] and
    [PUT /slots] leave the doctors and the appointments as they are; booking
    and cancelling leave the doctors and the slots as they are.  The two
    deletions that cascade reach further, and take rows away only:
    [DELETE /slots/:id] leaves the doctors as they are, and the slots and
    the appointments it leaves are rows that were there, in their order;
    [DELETE /doctors/:id] reaches all three tables, and what it leaves of
    each is rows that were there, in their order. *)
Theorem write_footprint r db :
  match r with
  | POST_doctors _ | PUT_doctors _ _ =>
      slots (handle r db).2 = slots db ∧ appointments (handle r db).2 = appointments db
  | POST_slots _ _ | PUT_slots _ _ =>
      doctors (handle r db).2 = doctors db ∧ appointments (handle r db).2 = appointments db
  | POST_appointments _ _ _ | DELETE_appointments _ =>
      doctors (handle r db).2 = doctors db ∧ slots (handle r db).2 = slots db
  | DELETE_slots _ =>
      doctors (handle r db).2 = doctors db
      ∧ slots (handle r db).2 `sublist_of` slots db
      ∧ appointments (handle r db).2 `sublist_of` appointments db
  | DELETE_doctors _ =>
      doctors (handle r db).2 `sublist_of` doctors db
      ∧ slots (handle r db).2 `sublist_of` slots db
      ∧ appointments (handle r db).2 `sublist_of` appointments db
  end.
Proof.
  destruct r as [b|id b|id|uuid b|id b|id|uuid now b|id]; simpl; try done.
  - unfold post_doctors. destruct (handleValidation _); [done|].
    destruct (insert_doctor _ db) as [code|db'] eqn:Hins; simpl.
    + by destruct (String.eqb _ _).
    + unfold insert_doctor in Hins. case_decide; by simplify_eq.
  - unfold put_doctors. destruct (handleValidation _); [done|].
    by destruct (select_doctor _ _).
  - split_and!; apply sublist_filter.
  - unfold post_slots. destruct (handleValidation _); [done|].
    destruct (select_doctor _ _); [|done].
    destruct (insert_slot _ db) as [code|db'] eqn:Hins; [done|]. simpl.
    unfold insert_slot in Hins. repeat case_decide; by simplify_eq.
  - unfold put_slots. destruct (handleValidation _); [done|].
    destruct (select_slot _ _); [|done].
    destruct (select_appointment_by_slot _ _); [done|].
    destruct (update_slot _ _ _ _ db) as [code|db'] eqn:Hupd; [done|]. simpl.
    unfold update_slot in Hupd. repeat case_decide; by simplify_eq.
  - split_and!; [done|apply sublist_filter..].
  - unfold post_appointments, post_appointments_with.
    destruct (handleValidation _); [done|]. destruct (select_slot _ _); [|done].
    destruct (insert_appointment _ db) as [code|db'] eqn:Hins; simpl.
    + by destruct (startsWith _ _).
    + unfold insert_appointment in Hins. repeat case_decide; by simplify_eq.
Qed.

(** [X4] Only the [DELETE] routes remove rows: after any other request
    every doctor and every slot is still there under its id, in its place,
    and every appointment is still there unchanged; what is new comes
    after them. *)
Theorem only_delete_removes r db :
  match r with
  | DELETE_doctors _ | DELETE_slots _ | DELETE_appointments _ => True
  | _ =>
      (d_id <$> doctors db) `prefix_of` (d_id <$> doctors (handle r db).2)
      ∧ (s_id <$> slots db) `prefix_of` (s_id <$> slots (handle r db).2)
      ∧ appointments db `prefix_of` appointments (handle r db).2
  end.
Proof.
  assert (∀ db', d_id <$> doctors db' = d_id <$> doctors db →
                 s_id <$> slots db' = s_id <$> slots db →
                 appointments db' = appointments db →
    (d_id <$> doctors db) `prefix_of` (d_id <$> doctors db')
    ∧ (s_id <$> slots db) `prefix_of` (s_id <$> slots db')
    ∧ appointments db `prefix_of` appointments db') as Hsame.
  { intros db' -> -> ->. done. }
  destruct r as [b|id b|id|uuid b|id b|id|uuid now b|id]; simpl; try done.
  - unfold post_doctors. destruct (handleValidation _); [by apply Hsame|].
    destruct (insert_doctor _ db) as [code|db'] eqn:Hins; simpl.
    + destruct (String.eqb _ _); by apply Hsame.
    + unfold insert_doctor in Hins. case_decide; simplify_eq. simpl.
      split_and!; [|done..]. rewrite fmap_app. by apply prefix_app_r.
  - unfold put_doctors. destruct (handleValidation _); [by apply Hsame|].
    destruct (select_doctor _ _); [|by apply Hsame].
    apply Hsame; [|done..]. apply update_doctor_ids.
  - unfold post_slots. destruct (handleValidation _); [by apply Hsame|].
    destruct (select_doctor _ _); [|by apply Hsame].
    destruct (insert_slot _ db) as [code|db'] eqn:Hins; [by apply Hsame|]. simpl.
    unfold insert_slot in Hins. repeat case_decide; simplify_eq. simpl.
    split_and!; [done| |done]. rewrite fmap_app. by apply prefix_app_r.
  - unfold put_slots. destruct (handleValidation _); [by apply Hsame|].
    destruct (select_slot _ _); [|by apply Hsame].
    destruct (select_appointment_by_slot _ _); [by apply Hsame|].
    destruct (update_slot _ _ _ _ db) as [code|db'] eqn:Hupd; [by apply Hsame|]. simpl.
    unfold update_slot in Hupd. repeat case_decide; simplify_eq; [|by apply Hsame].
    apply Hsame; [done| |done]. simpl.
    rewrite <- list_fmap_compose. apply list_fmap_ext. intros i x _. simpl. by case_decide.
  - unfold post_appointments, post_appointments_with.
    destruct (handleValidation _); [by apply Hsame|].
    destruct (select_slot _ _); [|by apply Hsame].
    destruct (insert_appointment _ db) as [code|db'] eqn:Hins; simpl.
    + destruct (startsWith _ _); by apply Hsame.
    + unfold insert_appointment in Hins. repeat case_decide; simplify_eq. simpl.
      split_and!; [done..|]. by apply prefix_app_r.
Qed.

End write_routes.

Section doctor_routes.
Implicit Types (db : DB) (b : doctor_body) (id : string).

Lemma validate_post_doctors_nil b :
  validate_post_doctors b = []
  ↔ (∃ i, req_id b = Some i ∧ trim i ≠ "") ∧ (∃ n, req_name b = Some n ∧ trim n ≠ "").
Proof.
  unfold validate_post_doctors.
  rewrite !app_nil, !check_nil, !optional_string_true, !string_trim_notEmpty_true. tauto.
Qed.

Lemma validate_put_doctors_nil b : validate_put_doctors b = [].
Proof. unfold validate_put_doctors. by rewrite !optional_string_true. Qed.

Lemma select_doctor_None id db : select_doctor id db = None ↔ id ∉ d_id <$> doctors db.
Proof. apply head_filter_key_None. Qed.

Lemma select_doctor_Some id db :
  id ∈ d_id <$> doctors db →
  ∃ d, select_doctor id db = Some d ∧ d_id d = id ∧ d ∈ doctors db.
Proof. apply head_filter_key_Some. Qed.

Lemma post_doctors_fresh b db :
  validate_post_doctors b = [] →
  sanitized (req_id b) ∉ d_id <$> doctors db →
  post_doctors b db
  = (Response 201 (JDoctor (sanitized (req_id b)) (sanitized (req_name b))
                     (req_speciality b) (req_room b)),
     MkDB (doctors db
           ++ [Doctor (sanitized (req_id b)) (sanitized (req_name b))
                 (or_null (req_speciality b)) (or_null (req_room b))])
       (slots db) (appointments db)).
Proof.
  intros Hv Hid. unfold post_doctors. rewrite Hv, handleValidation_nil.
  unfold insert_doctor. simpl. by rewrite decide_False.
Qed.

Lemma post_doctors_201 b db :
  status (post_doctors b db).1 = 201 →
  validate_post_doctors b = [] ∧ sanitized (req_id b) ∉ d_id <$> doctors db.
Proof.
  unfold post_doctors.
  destruct (validate_post_doctors b) as [|e errs] eqn:Hv; [|done]. simpl.
  unfold insert_doctor. simpl. case_decide; [done|]. done.
Qed.

(** [X5] What [POST /doctors] answers, for every body and database.  Unless
    [id] and [name] are strings that are not blank the answer is 400 with
    the validation errors.  The id is compared after trimming: when the
    trimmed id is already the id of a doctor the answer is 409 "Doctor ID
    already exists".  In both cases the database is as before.  Otherwise
    the answer is 201 and one row was appended: it holds the trimmed id
    and name, an empty speciality or room is stored as [NULL], and the row
    is the one a lookup by the trimmed id finds. *)
Theorem post_doctors_outcomes b db :
  (validate_post_doctors b = []
   ↔ (∃ i, req_id b = Some i ∧ trim i ≠ "") ∧ (∃ n, req_name b = Some n ∧ trim n ≠ ""))
  ∧ (validate_post_doctors b ≠ [] →
     post_doctors b db = (Response 400 (JErrors (validate_post_doctors b)), db))
  ∧ (validate_post_doctors b = [] →
     sanitized (req_id b) ∈ d_id <$> doctors db →
     post_doctors b db = (Response 409 (JError "Doctor ID already exists"), db))
  ∧ (validate_post_doctors b = [] →
     sanitized (req_id b) ∉ d_id <$> doctors db →
     post_doctors b db
     = (Response 201 (JDoctor (sanitized (req_id b)) (sanitized (req_name b))
                        (req_speciality b) (req_room b)),
        MkDB (doctors db
              ++ [Doctor (sanitized (req_id b)) (sanitized (req_name b))
                    (or_null (req_speciality b)) (or_null (req_room b))])
          (slots db) (appointments db))
     ∧ select_doctor (sanitized (req_id b)) (post_doctors b db).2
       = Some (Doctor (sanitized (req_id b)) (sanitized (req_name b))
                 (or_null (req_speciality b)) (or_null (req_room b)))).
Proof.
  split_and!.
  - apply validate_post_doctors_nil.
  - intros Hv. unfold post_doctors. by rewrite handleValidation_errors.
  - intros Hv Hid. unfold post_doctors. rewrite Hv, handleValidation_nil.
    unfold insert_doctor. simpl. by rewrite decide_True.
  - intros Hv Hid. rewrite post_doctors_fresh by done. split; [done|].
    unfold select_doctor. simpl. rewrite filter_app.
    apply (filter_key_nil d_id) in Hid. rewrite Hid. simpl.
    by rewrite filter_cons_True.
Qed.

Lemma head_filter_fmap {A} (P : A → Prop) `{∀ x, Decision (P x)} (f : A → A) (l : list A) :
  (∀ x, P (f x) ↔ P x) → head (filter P (f <$> l)) = f <$> head (filter P l).
Proof.
  intros HP. induction l as [|x l IH]; [done|].
  rewrite fmap_cons, !filter_cons.
  destruct (decide (P x)) as [Hx|Hx].
  - by rewrite decide_True by by apply HP.
  - by rewrite decide_False by by rewrite HP.
Qed.

(** [X6] [PUT /doctors/:id] is idempotent: sending the same request again
    gets the same answer and leaves the database as the first one left
    it. *)
Theorem put_doctors_idempotent id b db :
  put_doctors id b (put_doctors id b db).2 = put_doctors id b db.
Proof.
  unfold put_doctors at 2 3. rewrite validate_put_doctors_nil, handleValidation_nil.
  destruct (select_doctor id db) as [doc|] eqn:Hdoc; simpl.
  - unfold put_doctors. rewrite validate_put_doctors_nil, handleValidation_nil.
    set (name := default_to (req_name b) (d_name doc)).
    set (speciality := default_to (Some <$> req_speciality b) (d_speciality doc)).
    set (room := default_to (Some <$> req_room b) (d_room doc)).
    assert (select_doctor id (update_doctor id name speciality room db)
            = Some (Doctor id name speciality room)) as ->.
    { unfold select_doctor, update_doctor. simpl.
      rewrite head_filter_fmap by (intros x; by case_decide).
      fold (select_doctor id db). rewrite Hdoc. simpl.
      apply head_Some_elem_of, list_elem_of_filter in Hdoc as [Hid _].
      rewrite decide_True by done. by rewrite Hid. }
    simpl.
    assert (default_to (req_name b) name = name) as -> by (subst name; by destruct (req_name b)).
    assert (default_to (Some <$> req_speciality b) speciality = speciality) as ->
      by (subst speciality; by destruct (req_speciality b)).
    assert (default_to (Some <$> req_room b) room = room) as ->
      by (subst room; by destruct (req_room b)).
    f_equal. unfold update_doctor. simpl. f_equal.
    rewrite <- list_fmap_compose. apply list_fmap_ext. intros i x _. simpl.
    destruct (decide (d_id x = id)) as [Hx|Hx]; simpl;
      [by rewrite decide_True|by rewrite decide_False].
  - unfold put_doctors. by rewrite validate_put_doctors_nil, handleValidation_nil, Hdoc.
Qed.

(** [X7] [PUT /doctors/:id] for an id that no doctor has is answered 404
    "Doctor not found" and changes nothing.  For a doctor that exists (ids
    being distinct) a body without [name], [speciality] and [room] is
    answered 200 with the row as it is, and changes nothing. *)
Theorem put_doctors_missing_or_empty id b db :
  (id ∉ d_id <$> doctors db →
   put_doctors id b db = (Response 404 (JError "Doctor not found"), db))
  ∧ (NoDup (d_id <$> doctors db) →
     ∀ doc, doc ∈ doctors db → d_id doc = id →
       req_name b = None → req_speciality b = None → req_room b = None →
       put_doctors id b db
       = (Response 200 (JDoctor id (d_name doc) (d_speciality doc) (d_room doc)), db)).
Proof.
  split.
  - intros Hid%select_doctor_None. unfold put_doctors.
    by rewrite validate_put_doctors_nil, handleValidation_nil, Hid.
  - intros Hnd doc Hdoc Hid Hn Hs Hr. unfold put_doctors.
    rewrite validate_put_doctors_nil, handleValidation_nil.
    destruct (select_doctor_Some id db) as (doc' & Hsel & Hid' & Hdoc').
    { rewrite <- Hid. by apply list_elem_of_fmap_2. }
    assert (doc' = doc) as ->.
    { eapply (NoDup_fmap_elem_inj d_id); [done..|congruence]. }
    rewrite Hsel, Hn, Hs, Hr. simpl. f_equal.
    destruct db as [ds ss aps]. unfold update_doctor. simpl in *. f_equal.
    rewrite <- (list_fmap_id ds) at 2. apply list_fmap_ext. intros i x Hx. simpl.
    case_decide as Hx'; [|done].
    assert (x = doc) as ->.
    { eapply (NoDup_fmap_elem_inj d_id); [done|by eapply list_elem_of_lookup_2|done|congruence]. }
    by destruct doc.
Qed.

End doctor_routes.

Section slot_routes.
Context `{validator}.
Implicit Types (db : DB) (b : slot_body) (id uuid : string).

Lemma required_true (p : string → bool) v :
  required p v = true ↔ ∃ s, v = Some s ∧ p s = true.
Proof.
  destruct v as [s|]; simpl.
  - split; [by eexists|]. by intros (s' & [= <-] & Hs).
  - split; [done|]. by intros (s' & ? & _).
Qed.

Lemma validate_post_slots_nil b :
  validate_post_slots b = []
  ↔ (∃ d, req_doctorId b = Some d ∧ d ≠ "")
    ∧ (∃ dt, req_date b = Some dt ∧ isISO8601 dt = true)
    ∧ (∃ t, req_time b = Some t ∧ time_regex t = true).
Proof.
  unfold validate_post_slots.
  rewrite !app_nil, !check_nil, string_notEmpty_true, !required_true. tauto.
Qed.

Lemma post_slots_fresh uuid b db :
  validate_post_slots b = [] →
  default_to (req_doctorId b) "" ∈ d_id <$> doctors db →
  uuid ∉ s_id <$> slots db →
  post_slots uuid b db
  = (Response 201 (JSlot uuid (default_to (req_doctorId b) "")
                     (default_to (req_date b) "") (default_to (req_time b) "")),
     MkDB (doctors db)
       (slots db ++ [Slot uuid (default_to (req_doctorId b) "")
                       (default_to (req_date b) "") (default_to (req_time b) "")])
       (appointments db)).
Proof.
  intros Hv Hin Hid. destruct (select_doctor_Some _ _ Hin) as (d & Hd & _).
  unfold post_slots.
  rewrite Hv, handleValidation_nil, Hd. unfold insert_slot. simpl.
  rewrite decide_False by done. by rewrite decide_True by done.
Qed.

Lemma post_slots_201 uuid b db :
  status (post_slots uuid b db).1 = 201 →
  validate_post_slots b = []
  ∧ default_to (req_doctorId b) "" ∈ d_id <$> doctors db
  ∧ uuid ∉ s_id <$> slots db.
Proof.
  unfold post_slots.
  destruct (validate_post_slots b) as [|e errs] eqn:Hv; [|done]. simpl.
  destruct (select_doctor _ db) as [d|] eqn:Hd; [|done].
  unfold insert_slot. simpl. repeat case_decide; try done.
Qed.

(** [X8] What [POST /slots] answers, for every body, generated id and
    database.  Unless [doctorId] is a non-empty string, [date] an ISO 8601
    date and [time] a time of day [HH:MM], the answer is 400 with the
    validation errors.  A valid body for a doctor that does not exist is
    answered 400 "Doctor not found"; a generated id that is already the id
    of a slot is answered 500 "Internal error".  In these cases the
    database is as before.  Otherwise the answer is 201 and one slot with
    the generated id and the fields of the body was appended. *)
Theorem post_slots_outcomes uuid b db :
  (validate_post_slots b = []
   ↔ (∃ d, req_doctorId b = Some d ∧ d ≠ "")
     ∧ (∃ dt, req_date b = Some dt ∧ isISO8601 dt = true)
     ∧ (∃ t, req_time b = Some t ∧ time_regex t = true))
  ∧ (validate_post_slots b ≠ [] →
     post_slots uuid b db = (Response 400 (JErrors (validate_post_slots b)), db))
  ∧ (validate_post_slots b = [] →
     default_to (req_doctorId b) "" ∉ d_id <$> doctors db →
     post_slots uuid b db = (Response 400 (JError "Doctor not found"), db))
  ∧ (validate_post_slots b = [] →
     default_to (req_doctorId b) "" ∈ d_id <$> doctors db →
     uuid ∈ s_id <$> slots db →
     post_slots uuid b db = (Response 500 (JError "Internal error"), db))
  ∧ (validate_post_slots b = [] →
     default_to (req_doctorId b) "" ∈ d_id <$> doctors db →
     uuid ∉ s_id <$> slots db →
     post_slots uuid b db
     = (Response 201 (JSlot uuid (default_to (req_doctorId b) "")
                        (default_to (req_date b) "") (default_to (req_time b) "")),
        MkDB (doctors db)
          (slots db ++ [Slot uuid (default_to (req_doctorId b) "")
                          (default_to (req_date b) "") (default_to (req_time b) "")])
          (appointments db))).
Proof.
  split_and!.
  - apply validate_post_slots_nil.
  - intros Hv. unfold post_slots. by rewrite handleValidation_errors.
  - intros Hv Hd%select_doctor_None. unfold post_slots.
    by rewrite Hv, handleValidation_nil, Hd.
  - intros Hv (d & Hd & _)%select_doctor_Some Hid. unfold post_slots.
    rewrite Hv, handleValidation_nil, Hd. unfold insert_slot. simpl.
    by rewrite decide_True.
  - apply post_slots_fresh.
Qed.

(** [X9] A slot that [POST /slots] created is open and can be booked at
    once: in a well-formed database, after a 201 from [POST /slots] no
    appointment references the new slot, and a valid booking of it (with an
    unused generated id) is answered 201 and becomes its only
    appointment. *)
Theorem created_slot_is_bookable uuid b db uuid' now ab :
  wf db →
  status (post_slots uuid b db).1 = 201 →
  validate_post_appointments ab = [] →
  req_slotId ab = Some uuid →
  uuid' ∉ a_id <$> appointments db →
  bookings uuid (post_slots uuid b db).2 = []
  ∧ ∃ row db2,
      post_appointments uuid' now ab (post_slots uuid b db).2 = (created row, db2)
      ∧ a_slot_id row = uuid
      ∧ bookings uuid db2 = [row].
Proof.
  intros Hwf (Hv & Hd & Hid)%post_slots_201 Hav Hslot Hid'.
  rewrite post_slots_fresh by done. cbn [snd].
  assert (uuid ∉ a_slot_id <$> appointments db) as Hopen.
  { intros (a & -> & Ha)%list_elem_of_fmap. apply Hid.
    pose proof (wf_appointment_fk _ Hwf) as Hfk. rewrite Forall_forall in Hfk.
    by apply Hfk. }
  split; [by apply (filter_key_nil a_slot_id)|].
  exists (new_appointment uuid' now ab). eexists. split_and!.
  - apply book_open; [done| | |done]; rewrite Hslot; simpl; [|done].
    rewrite fmap_app, elem_of_app. right. simpl. by apply list_elem_of_singleton.
  - simpl. by rewrite Hslot.
  - apply bookings_after_insert; [done|]. simpl. by rewrite Hslot.
Qed.

(** [X10] What [PUT /slots/:id] answers when the slot has no appointment.
    A patch that fails validation is answered 400 and an id that no slot
    has is answered 404 "Slot not found".  For a slot that exists and is
    open, a field that is absent or empty keeps its old value.  When the
    resulting doctor does not exist the update fails on the foreign key,
    the handler does not catch it and the answer is 500; in all these cases
    the database is as before.  Otherwise the answer is 200, the slot
    holds the new values under its old id and in its old place, and every
    other slot is as before. *)
Theorem put_slots_outcomes id b db :
  (validate_put_slots b ≠ [] →
   put_slots id b db = (Response 400 (JErrors (validate_put_slots b)), db))
  ∧ (validate_put_slots b = [] →
     id ∉ s_id <$> slots db →
     put_slots id b db = (Response 404 (JError "Slot not found"), db))
  ∧ (validate_put_slots b = [] →
     ∀ s, select_slot id db = Some s →
       id ∉ a_slot_id <$> appointments db →
       let doctorId := or_else (req_doctorId b) (s_doctor_id s) in
       let date := or_else (req_date b) (s_date s) in
       let time := or_else (req_time b) (s_time s) in
       (doctorId ∉ d_id <$> doctors db →
        put_slots id b db = (Response 500 (JUncaught SQLITE_CONSTRAINT_FOREIGNKEY), db))
       ∧ (doctorId ∈ d_id <$> doctors db →
          (put_slots id b db).1 = Response 200 (JSlot id doctorId date time)
          ∧ doctors (put_slots id b db).2 = doctors db
          ∧ appointments (put_slots id b db).2 = appointments db
          ∧ ∀ i x, slots db !! i = Some x →
              slots (put_slots id b db).2 !! i
              = Some (if decide (s_id x = id) then Slot id doctorId date time else x))).
Proof.
  split_and!.
  - intros Hv. unfold put_slots. by rewrite handleValidation_errors.
  - intros Hv Hs%select_slot_None. unfold put_slots.
    by rewrite Hv, handleValidation_nil, Hs.
  - intros Hv s Hs Hopen doctorId date time.
    assert (id ∈ s_id <$> slots db) as Hin.
    { apply head_Some_elem_of, list_elem_of_filter in Hs as [<- Hs].
      by apply list_elem_of_fmap_2. }
    apply (head_filter_key_None a_slot_id) in Hopen.
    fold (select_appointment_by_slot id db) in Hopen.
    unfold put_slots. rewrite Hv, handleValidation_nil, Hs, Hopen.
    fold doctorId date time. unfold update_slot. rewrite decide_True by done.
    split; intros Hd.
    + by rewrite decide_False.
    + rewrite decide_True by done. simpl. split_and!; try done.
      intros i x Hx. rewrite list_lookup_fmap, Hx. simpl.
      destruct (decide (s_id x = id)) as [->|]; done.
Qed.

End slot_routes.

Section delete_routes.
Context `{validator}.
Implicit Types (db : DB) (id uuid : string).

Lemma delete_slot_present id db :
  id ∈ s_id <$> slots db →
  delete_slot id db
  = MkDB (doctors db) (filter (λ s, s_id s ≠ id) (slots db))
      (filter (λ a, a_slot_id a ≠ id) (appointments db)).
Proof.
  intros Hid. unfold delete_slot. f_equal.
  apply list_filter_iff. intros a. rewrite elem_of_keys_selected. tauto.
Qed.

(** [X11] [DELETE /slots/:id] on a slot of a well-formed database removes
    that slot and the appointment booked on it, if there is one (there is
    at most one), and nothing else: the doctors, the other slots and the
    other appointments are as before, in their order.  No appointment is
    left without its slot. *)
Theorem delete_slot_cascade id db :
  wf db →
  id ∈ s_id <$> slots db →
  (delete_slots id db).1 = Response 204 JEmpty
  ∧ doctors (delete_slots id db).2 = doctors db
  ∧ slots (delete_slots id db).2 = filter (λ s, s_id s ≠ id) (slots db)
  ∧ appointments (delete_slots id db).2 = filter (λ a, a_slot_id a ≠ id) (appointments db)
  ∧ length (slots db) = length (slots (delete_slots id db).2) + 1
  ∧ length (appointments db)
    = length (appointments (delete_slots id db).2) + length (bookings id db)
  ∧ length (bookings id db) ≤ 1
  ∧ bookings id (delete_slots id db).2 = []
  ∧ wf (delete_slots id db).2.
Proof.
  intros Hwf Hid. unfold delete_slots. cbn [fst snd].
  assert (wf (delete_slot id db)) as Hwf' by by apply delete_slot_wf.
  rewrite delete_slot_present in * by done. cbn [doctors slots appointments].
  split_and!; try done.
  - rewrite (length_filter_split (λ s, s_id s ≠ id) (λ s, s_id s = id) (slots db)).
    + f_equal.
      pose proof (proj1 (NoDup_fmap_count s_id (slots db)) (wf_slot_pk _ Hwf) id) as Hle.
      destruct (filter (λ s, s_id s = id) (slots db)) as [|s l] eqn:Hf.
      * by apply (filter_key_nil s_id) in Hf.
      * simpl in *. lia.
    + intros s. destruct (decide (s_id s = id)); tauto.
  - unfold bookings. apply length_filter_split. intros a.
    destruct (decide (a_slot_id a = id)); tauto.
  - apply unique_booking_NoDup, Hwf.
  - unfold bookings. cbn [appointments]. apply filter_none, Forall_forall.
    by intros a [Hne _]%list_elem_of_filter.
Qed.

(** [X12] The three [DELETE] routes are idempotent: deleting the same id
    again gets the same 204 and leaves the database as the first deletion
    left it. *)
Theorem delete_is_idempotent id db :
  delete_doctors id (delete_doctors id db).2 = delete_doctors id db
  ∧ delete_slots id (delete_slots id db).2 = delete_slots id db
  ∧ delete_appointments id (delete_appointments id db).2 = delete_appointments id db.
Proof.
  unfold delete_doctors, delete_slots, delete_appointments. cbn [snd].
  split_and!; f_equal.
  - apply delete_doctor_absent. simpl.
    by intros (d & Hd & [Hne _]%list_elem_of_filter)%list_elem_of_fmap.
  - apply delete_slot_absent. simpl.
    by intros (s & Hs & [Hne _]%list_elem_of_filter)%list_elem_of_fmap.
  - apply delete_appointment_absent. simpl.
    by intros (a & Ha & [Hne _]%list_elem_of_filter)%list_elem_of_fmap.
Qed.

Lemma filter_snoc_other {A} (f : A → string) (k : string) (l : list A) (x : A) :
  k ∉ f <$> l → f x = k → filter (λ a, f a ≠ k) (l ++ [x]) = l.
Proof.
  intros Hk Hx. rewrite filter_app, filter_cons_False, filter_nil, app_nil_r by by intros [].
  apply filter_all, Forall_forall. intros a Ha Heq. apply Hk. rewrite <- Heq.
  by apply list_elem_of_fmap_2.
Qed.

(** [X13] Creating and then deleting gives the database back.  When
    [POST /appointments] answered 201, [DELETE /appointments/:id] with the
    id of the new appointment restores the database exactly; in a
    well-formed database the same holds for [POST /slots] followed by
    [DELETE /slots/:id] and for [POST /doctors] followed by
    [DELETE /doctors/:id] with the trimmed id. *)
Theorem create_then_delete_restores :
  (∀ uuid now b db,
     status (post_appointments uuid now b db).1 = 201 →
     delete_appointments uuid (post_appointments uuid now b db).2
     = (Response 204 JEmpty, db))
  ∧ (∀ uuid b db,
       wf db →
       status (post_slots uuid b db).1 = 201 →
       delete_slots uuid (post_slots uuid b db).2 = (Response 204 JEmpty, db))
  ∧ (∀ b db,
       wf db →
       status (post_doctors b db).1 = 201 →
       delete_doctors (sanitized (req_id b)) (post_doctors b db).2
       = (Response 204 JEmpty, db)).
Proof.
  split_and!.
  - intros uuid now b db H201. unfold post_appointments, post_appointments_with in *.
    destruct (validate_post_appointments b) as [|e errs]; [|done]. simpl in *.
    destruct (select_slot _ _); [|done].
    destruct (insert_appointment _ db) as [code|db'] eqn:Hins;
      [by destruct (startsWith _ _)|].
    unfold insert_appointment in Hins. repeat case_decide; simplify_eq.
    unfold delete_appointments, delete_appointment. simpl.
    rewrite (filter_snoc_other a_id) by done. by destruct db.
  - intros uuid b db Hwf (Hv & Hd & Hid)%post_slots_201.
    rewrite post_slots_fresh by done. unfold delete_slots. f_equal.
    rewrite delete_slot_present.
    2:{ simpl. rewrite fmap_app, elem_of_app. right. by apply list_elem_of_singleton. }
    simpl. rewrite (filter_snoc_other s_id) by done.
    destruct db as [ds ss aps]. simpl in *. f_equal.
    apply filter_all. pose proof (wf_appointment_fk _ Hwf) as Hfk. simpl in Hfk.
    eapply Forall_impl; [exact Hfk|]. simpl. intros a Ha Heq. apply Hid. by rewrite <- Heq.
  - intros b db Hwf (Hv & Hid)%post_doctors_201.
    rewrite post_doctors_fresh by done. unfold delete_doctors. f_equal.
    rewrite delete_doctor_present.
    2:{ simpl. rewrite fmap_app, elem_of_app. right. by apply list_elem_of_singleton. }
    simpl. rewrite (filter_snoc_other d_id) by done.
    assert (filter (λ s, s_doctor_id s ≠ sanitized (req_id b)) (slots db) = slots db) as Hss.
    { apply filter_all. pose proof (wf_slot_fk _ Hwf) as Hfk.
      eapply Forall_impl; [exact Hfk|]. simpl. intros s Hs Heq. apply Hid. by rewrite <- Heq. }
    destruct db as [ds ss aps]. simpl in *. f_equal; [done|].
    apply filter_all, Forall_forall. intros a _ (s & _ & Hs)%list_elem_of_fmap.
    unfold slots_of in Hs. simpl in Hs. apply list_elem_of_filter in Hs as [Heq Hs].
    pose proof (wf_slot_fk _ Hwf) as Hfk. simpl in Hfk. rewrite Forall_forall in Hfk.
    apply Hid. rewrite <- Heq. by apply Hfk.
Qed.

End delete_routes.

(** ** The read routes *)

Section ordering.
Context {A : Type} (le : A → A → bool).
Hypothesis le_total : ∀ x y, le x y = true ∨ le y x = true.

Lemma insert_by_Permutation (x : A) (l : list A) : insert_by le x l ≡ₚ x :: l.
Proof.
  induction l as [|y l IH]; [done|]. simpl.
  destruct (le x y); [done|]. rewrite IH. apply perm_swap.
Qed.

Lemma order_by_Permutation (l : list A) : order_by le l ≡ₚ l.
Proof.
  induction l as [|x l IH]; [done|]. simpl.
  by rewrite insert_by_Permutation, IH.
Qed.

Lemma ordered_nil : ordered le [].
Proof. by intros i x y Hx. Qed.

Lemma ordered_singleton (x : A) : ordered le [x].
Proof. intros [|i] y z Hy Hz; simplify_eq/=. Qed.

Lemma ordered_cons (x y : A) (l : list A) :
  ordered le (x :: y :: l) ↔ le x y = true ∧ ordered le (y :: l).
Proof.
  split.
  - intros Ho. split; [by apply (Ho 0)|].
    intros i a b Ha Hb. by apply (Ho (S i)).
  - intros [Hxy Ho] [|i] a b Ha Hb; simplify_eq/=; [done|]. by apply (Ho i).
Qed.

Lemma insert_by_ordered (x : A) (l : list A) :
  ordered le l → ordered le (insert_by le x l).
Proof using le_total.
  induction l as [|y l IH]; intros Ho; [apply ordered_singleton|].
  simpl. destruct (le x y) eqn:Hxy.
  - by apply ordered_cons.
  - assert (le y x = true) as Hyx by (destruct (le_total x y); congruence).
    destruct l as [|z l]; simpl in *.
    + apply ordered_cons. split; [done|apply ordered_singleton].
    + apply ordered_cons in Ho as [Hyz Ho]. specialize (IH Ho).
      destruct (le x z); apply ordered_cons; by split.
Qed.

Lemma order_by_ordered (l : list A) : ordered le (order_by le l).
Proof using le_total.
  induction l as [|x l IH]; [apply ordered_nil|]. simpl. by apply insert_by_ordered.
Qed.

End ordering.

Section read_routes.
Implicit Types (db : DB) (id : string).

Lemma by_date_time_total (a b : slot) :
  by_date_time a b = true ∨ by_date_time b a = true.
Proof.
  unfold by_date_time. rewrite (String.compare_antisym (s_date a) (s_date b)).
  destruct (String.compare (s_date b) (s_date a)); simpl; auto.
  apply String.leb_total.
Qed.

(** [X14] [GET /doctors] lists every doctor of the database exactly once,
    in ascending order of name. *)
Theorem get_doctors_lists_all db :
  get_doctors db ≡ₚ doctors db
  ∧ ordered (λ a b, String.leb (d_name a) (d_name b)) (get_doctors db).
Proof.
  split; [apply order_by_Permutation|].
  apply order_by_ordered. intros x y. apply String.leb_total.
Qed.

Lemma filter_fmap {A B} (f : A → B) (P : B → Prop) `{∀ y, Decision (P y)} (l : list A) :
  filter P (f <$> l) = f <$> filter (λ x, P (f x)) l.
Proof.
  induction l as [|x l IH]; [done|].
  rewrite fmap_cons, !filter_cons, IH. by case_decide.
Qed.

Lemma filter_key_singleton {A} (f : A → string) (l : list A) (x : A) :
  NoDup (f <$> l) → x ∈ l → filter (λ a, f a = f x) l = [x].
Proof.
  induction l as [|y l IH]; [by intros _ ?%not_elem_of_nil|].
  rewrite fmap_cons, NoDup_cons. intros [Hy Hl] [->|Hx]%elem_of_cons.
  - rewrite filter_cons_True by done. f_equal. by apply (filter_key_nil f).
  - rewrite filter_cons_False; [by apply IH|].
    intros Heq. apply Hy. rewrite Heq. by apply list_elem_of_fmap_2.
Qed.

(** In a well-formed database the join keeps every slot once, next to its
    doctor. *)
Lemma slots_join_doctors_wf db :
  wf db → r_slot <$> slots_join_doctors db = slots db.
Proof.
  intros Hwf. unfold slots_join_doctors.
  pose proof (wf_slot_fk _ Hwf) as Hfk. pose proof (wf_doctor_pk _ Hwf) as Hpk.
  induction Hfk as [|s ss Hs _ IH]; [done|].
  rewrite bind_cons, fmap_app, IH. simpl.
  apply list_elem_of_fmap in Hs as (d & -> & Hd).
  by rewrite filter_key_singleton.
Qed.

Lemma slots_join_doctors_row db r :
  r ∈ slots_join_doctors db →
  r_slot r ∈ slots db
  ∧ ∃ d, d ∈ doctors db ∧ d_id d = s_doctor_id (r_slot r)
         ∧ r_doctor_name r = d_name d ∧ r_speciality r = d_speciality d.
Proof.
  unfold slots_join_doctors.
  intros (s & (d & ->%list_elem_of_singleton & [Hd Hin]%list_elem_of_filter)%list_elem_of_bind
            & Hs)%list_elem_of_bind.
  split; [done|]. by exists d.
Qed.

(** A filter of [GET /slots] is applied when its field is a non-empty
    string. *)
Lemma elem_of_optional_filter {A} (g : A → string) (v : option string) (rows : list A) r :
  r ∈ (if truthy_opt v then filter (λ r, g r = default_to v "") rows else rows)
  ↔ r ∈ rows ∧ (∀ d, v = Some d → d ≠ "" → g r = d).
Proof.
  destruct v as [d|]; simpl.
  - destruct (truthy d) eqn:Hd.
    + apply truthy_true in Hd. rewrite list_elem_of_filter. split.
      * intros [Hg Hr]. split; [done|]. by intros d' [= <-] _.
      * intros [Hr Hg]. split; [|done]. by apply Hg.
    + destruct d; [|done]. split; [|by intros [? _]].
      intros Hr. split; [done|]. by intros d' [= <-] Hne.
  - split; [|by intros [? _]]. intros Hr. split; [done|]. by intros d' [=].
Qed.

Lemma optional_filter_fmap (g : slot → string) (v : option string) (rows : list slot_row) :
  r_slot <$> (if truthy_opt v then filter (λ r, g (r_slot r) = default_to v "") rows
              else rows)
  = if truthy_opt v then filter (λ s, g s = default_to v "") (r_slot <$> rows)
    else r_slot <$> rows.
Proof. destruct (truthy_opt v); [|done]. by rewrite filter_fmap. Qed.

(** [X15] [GET /slots] on a well-formed database lists, in ascending order
    of date and then time, exactly the slots that pass the filters, each
    once and with the name and speciality of its doctor.  A filter that is
    absent or empty is not applied; a [doctorId] that no slot has gives
    the empty list. *)
Theorem get_slots_lists_matching doctorId date db :
  wf db →
  (∀ s, s ∈ r_slot <$> get_slots doctorId date db
        ↔ s ∈ slots db
          ∧ (∀ d, doctorId = Some d → d ≠ "" → s_doctor_id s = d)
          ∧ (∀ dt, date = Some dt → dt ≠ "" → s_date s = dt))
  ∧ NoDup (s_id <$> (r_slot <$> get_slots doctorId date db))
  ∧ ordered (λ a b, by_date_time (r_slot a) (r_slot b)) (get_slots doctorId date db)
  ∧ (∀ r, r ∈ get_slots doctorId date db →
       ∃ d, d ∈ doctors db ∧ d_id d = s_doctor_id (r_slot r)
            ∧ r_doctor_name r = d_name d ∧ r_speciality r = d_speciality d).
Proof.
  intros Hwf. unfold get_slots.
  set (rows1 := if truthy_opt doctorId then _ else _).
  set (rows2 := if truthy_opt date then _ else _).
  assert (∀ r, r ∈ rows2 ↔
    r ∈ slots_join_doctors db
    ∧ (∀ d, doctorId = Some d → d ≠ "" → s_doctor_id (r_slot r) = d)
    ∧ (∀ dt, date = Some dt → dt ≠ "" → s_date (r_slot r) = dt)) as Hrows.
  { intros r. subst rows2 rows1. rewrite !elem_of_optional_filter. tauto. }
  assert (NoDup (s_id <$> (r_slot <$> rows2))) as Hnd.
  { subst rows2 rows1. rewrite !optional_filter_fmap, (slots_join_doctors_wf db Hwf).
    destruct (truthy_opt doctorId), (truthy_opt date);
      repeat apply NoDup_fmap_filter; apply Hwf. }
  split_and!.
  - intros s. rewrite (order_by_Permutation _ rows2).
    rewrite list_elem_of_fmap. split.
    + intros (r & -> & [Hr Hf]%Hrows). split; [|done].
      by apply slots_join_doctors_row in Hr as [? _].
    + intros (Hs & Hd & Hdt). rewrite <- (slots_join_doctors_wf db Hwf) in Hs.
      apply list_elem_of_fmap in Hs as (r & -> & Hr). exists r. split; [done|].
      by apply Hrows.
  - by rewrite (order_by_Permutation _ rows2).
  - apply order_by_ordered. intros x y. apply by_date_time_total.
  - intros r. rewrite (order_by_Permutation _ rows2). intros [Hr _]%Hrows.
    by apply slots_join_doctors_row in Hr as [_ ?].
Qed.

End read_routes.

Section appointment_reads.
Implicit Types (db : DB) (id : string).

(** The rows the two left joins give for one appointment. *)
Lemma appointments_joined_cons a aps ds ss :
  appointments_joined (MkDB ds ss (a :: aps))
  = appointments_joined (MkDB ds ss [a]) ++ appointments_joined (MkDB ds ss aps).
Proof. unfold appointments_joined. simpl. by rewrite app_nil_r. Qed.

Lemma appointments_joined_row db r :
  r ∈ appointments_joined db → r_appointment r ∈ appointments db.
Proof.
  unfold appointments_joined.
  intros (a & (s & (d & ->%list_elem_of_singleton & _)%list_elem_of_bind & _)%list_elem_of_bind
            & Ha)%list_elem_of_bind.
  done.
Qed.

(** With its slot and the doctor of the slot in place, an appointment gets
    one row and no [NULL]. *)
Lemma appointments_joined_one ds ss a s d :
  NoDup (d_id <$> ds) → NoDup (s_id <$> ss) →
  s ∈ ss → s_id s = a_slot_id a → d ∈ ds → d_id d = s_doctor_id s →
  appointments_joined (MkDB ds ss [a])
  = [AppointmentRow a (Some (s_date s)) (Some (s_time s)) (Some (s_doctor_id s))
       (Some (d_name d)) (d_speciality d)].
Proof.
  intros Hds Hss Hs Hsa Hd Hds'. unfold appointments_joined. simpl.
  rewrite <- Hsa, (filter_key_singleton s_id) by done. simpl.
  rewrite <- Hds', (filter_key_singleton d_id) by done. done.
Qed.

Lemma appointments_joined_wf db a :
  wf db → a ∈ appointments db →
  ∃ s d, s ∈ slots db ∧ s_id s = a_slot_id a ∧ d ∈ doctors db ∧ d_id d = s_doctor_id s
    ∧ appointments_joined (MkDB (doctors db) (slots db) [a])
      = [AppointmentRow a (Some (s_date s)) (Some (s_time s)) (Some (s_doctor_id s))
           (Some (d_name d)) (d_speciality d)].
Proof.
  intros Hwf Ha.
  pose proof (wf_appointment_fk _ Hwf) as Hafk. rewrite Forall_forall in Hafk.
  destruct (proj1 (list_elem_of_fmap _ _ _) (Hafk a Ha)) as (s & Hsa & Hs).
  pose proof (wf_slot_fk _ Hwf) as Hsfk. rewrite Forall_forall in Hsfk.
  destruct (proj1 (list_elem_of_fmap _ _ _) (Hsfk s Hs)) as (d & Hds & Hd).
  exists s, d. split_and!; try done.
  apply appointments_joined_one; try done; apply Hwf.
Qed.

(** [X16] [GET /appointments/:id] answers 404 "Appointment not found" when
    no appointment has the id.  In a well-formed database it answers an
    appointment that exists with 200 and the appointment together with the
    date and time of its slot and the id, name and speciality of the doctor
    of that slot; the date, time, doctor id and doctor name are never
    [NULL]. *)
Theorem get_appointment_outcomes id db :
  (id ∉ a_id <$> appointments db →
   get_appointment id db = (404, RError "Appointment not found"))
  ∧ (wf db →
     ∀ a, a ∈ appointments db → a_id a = id →
       ∃ s d, s ∈ slots db ∧ s_id s = a_slot_id a
         ∧ d ∈ doctors db ∧ d_id d = s_doctor_id s
         ∧ get_appointment id db
           = (200, RAppointment
                     (AppointmentRow a (Some (s_date s)) (Some (s_time s))
                        (Some (s_doctor_id s)) (Some (d_name d)) (d_speciality d)))).
Proof.
  split.
  - intros Hid. unfold get_appointment.
    destruct (head _) as [r|] eqn:Hr; [|done].
    apply head_Some_elem_of, list_elem_of_filter in Hr as [Heq Hr].
    apply appointments_joined_row in Hr. exfalso. apply Hid. rewrite <- Heq.
    by apply list_elem_of_fmap_2.
  - intros Hwf a Ha Hid.
    destruct (appointments_joined_wf db a Hwf Ha) as (s & d & Hs & Hsa & Hd & Hds & Hrow).
    exists s, d. split_and!; try done.
    unfold get_appointment.
    assert (filter (λ r, a_id (r_appointment r) = id) (appointments_joined db)
            = [AppointmentRow a (Some (s_date s)) (Some (s_time s)) (Some (s_doctor_id s))
                 (Some (d_name d)) (d_speciality d)]) as ->; [|done].
    rewrite <- Hrow. clear Hrow Hs Hsa Hd Hds.
    pose proof (wf_appointment_pk _ Hwf) as Hpk.
    destruct db as [ds ss aps]. simpl in *. clear Hwf.
    induction aps as [|a' aps IH]; [by apply not_elem_of_nil in Ha|].
    rewrite fmap_cons, NoDup_cons in Hpk. destruct Hpk as [Ha' Hpk].
    rewrite appointments_joined_cons, filter_app.
    apply elem_of_cons in Ha as [->|Ha].
    + rewrite filter_all.
      2:{ apply Forall_forall. intros r Hr%appointments_joined_row. simpl in Hr.
          apply list_elem_of_singleton in Hr. by rewrite Hr. }
      rewrite filter_none, app_nil_r; [done|].
      apply Forall_forall. intros r Hr%appointments_joined_row Heq. simpl in Hr.
      apply Ha'. rewrite Hid, <- Heq. by apply list_elem_of_fmap_2.
    + rewrite filter_none.
      2:{ apply Forall_forall. intros r Hr%appointments_joined_row Heq. simpl in Hr.
          apply list_elem_of_singleton in Hr. apply Ha'. rewrite <- Hr, Heq, <- Hid.
          by apply list_elem_of_fmap_2. }
      simpl. by apply IH.
Qed.

(** [X17] [GET /appointments] on a well-formed database lists every
    appointment exactly once, newest first, and no row has a [NULL] date,
    time, doctor id or doctor name. *)
Theorem get_appointments_lists_all db :
  wf db →
  r_appointment <$> get_appointments db ≡ₚ appointments db
  ∧ ordered (λ a b, String.leb (a_created_at (r_appointment b))
                       (a_created_at (r_appointment a)))
      (get_appointments db)
  ∧ ∀ r, r ∈ get_appointments db →
      is_Some (r_date r) ∧ is_Some (r_time r) ∧ is_Some (r_doctor_id r)
      ∧ is_Some (r_appointment_doctor_name r).
Proof.
  intros Hwf.
  assert (r_appointment <$> appointments_joined db = appointments db
          ∧ ∀ r, r ∈ appointments_joined db →
              is_Some (r_date r) ∧ is_Some (r_time r) ∧ is_Some (r_doctor_id r)
              ∧ is_Some (r_appointment_doctor_name r)) as [Hall Hsome].
  { assert (∀ a, a ∈ appointments db →
      ∃ s d, appointments_joined (MkDB (doctors db) (slots db) [a])
             = [AppointmentRow a (Some (s_date s)) (Some (s_time s)) (Some (s_doctor_id s))
                  (Some (d_name d)) (d_speciality d)]) as Hone.
    { intros a Ha. destruct (appointments_joined_wf db a Hwf Ha) as (s & d & Hrow).
      exists s, d. apply Hrow. }
    clear Hwf. destruct db as [ds ss aps]. simpl in *.
    induction aps as [|a aps IH]; [split; [done|by intros r ?%not_elem_of_nil]|].
    rewrite appointments_joined_cons.
    destruct (Hone a) as (s & d & ->); [left|].
    destruct IH as [IH1 IH2]; [intros a' Ha'; apply Hone; by right|].
    split; [by rewrite fmap_app, IH1|].
    intros r [->|Hr]%elem_of_cons; [simpl; by eauto|by apply IH2]. }
  unfold get_appointments. split_and!.
  - by rewrite order_by_Permutation, Hall.
  - apply order_by_ordered. intros x y. apply String.leb_total.
  - intros r. rewrite order_by_Permutation. apply Hsome.
Qed.

End appointment_reads.

(** ** More about the browser demo *)

Module DemoUIFacts.
Import Demo DemoUI.

Section demo_forms.
Implicit Types (st : state) (a : action).

Lemma assign_found_keys {A} (f : A → string) (P : A → Prop) `{∀ x, Decision (P x)}
    (patch : A → A) (l : list A) :
  (∀ x, f (patch x) = f x) → f <$> assign_found P patch l = f <$> l.
Proof.
  intros Hf. induction l as [|x l IH]; [done|]. cbn [assign_found].
  case_decide; rewrite !fmap_cons; [by rewrite Hf|by rewrite IH].
Qed.

Lemma assign_found_lookup {A} (P : A → Prop) `{∀ x, Decision (P x)}
    (patch : A → A) (l : list A) i x :
  l !! i = Some x → ¬ P x → assign_found P patch l !! i = Some x.
Proof.
  revert i. induction l as [|y l IH]; intros [|i] Hi HP; simplify_eq/=.
  - by rewrite decide_False.
  - case_decide; [done|]. by apply IH.
Qed.

Lemma truthy_false s : truthy s = false ↔ s = "".
Proof. destruct s; simpl; split; congruence. Qed.

Lemma saveDoctor_slots e i n s r st : slots (saveDoctor e i n s r st).2 = slots st.
Proof.
  unfold saveDoctor. destruct (negb _ || negb _); [done|].
  destruct e; by case_bool_decide.
Qed.

Lemma saveDoctor_ids e i n s r st :
  NoDup (d_id <$> doctors st) → NoDup (d_id <$> doctors (saveDoctor e i n s r st).2).
Proof.
  intros Hnd. unfold saveDoctor. destruct (negb _ || negb _); [done|].
  destruct e; case_bool_decide as Hex; simpl; try done.
  - by rewrite assign_found_keys.
  - apply NoDup_snoc_fresh; [done|]. simpl.
    intros (d & Heq & Hd)%list_elem_of_fmap. apply Hex, Exists_exists. by exists d.
Qed.

(** [X18] In the demo the ids of the doctors stay pairwise distinct,
    whatever the user does: the Save button compares the trimmed id with
    the ids that exist before it adds a doctor, editing keeps ids, and
    deleting only removes. *)
Theorem demo_doctor_ids_distinct acts st :
  NoDup (d_id <$> doctors st) → NoDup (d_id <$> doctors (run acts st)).
Proof.
  revert st. induction acts as [|a acts IH]; intros st Hnd; [done|].
  simpl. apply IH.
  destruct a as [e i n s r|c d|i d dt t r|slotId n p r rnd now|c i]; simpl.
  - by apply saveDoctor_ids.
  - unfold deleteDoctor. destruct (negb c); [done|]. simpl. by apply NoDup_fmap_filter.
  - unfold saveSlot. destruct (negb _ || negb _ || negb _); [done|].
    destruct (truthy_opt i); [by case_bool_decide|done].
  - unfold confirmAppointment.
    destruct (negb (truthy slotId)); [done|].
    destruct (negb (truthy (trim n))); [done|].
    by destruct (isSlotBooked st slotId).
  - unfold cancelAppointment. by destruct (negb c).
Qed.

(** [X19] What the Save button of the doctor form does.  With a blank id or
    name it alerts and changes nothing.  Adding a doctor whose trimmed id
    exists alerts "Doctor ID already exists" and changes nothing;
    otherwise the doctor is appended with all four fields trimmed.
    Editing a doctor whose id is not in the state throws and changes
    nothing; editing one that is (ids being distinct) rewrites the name,
    speciality and room of that doctor only, and no slot or appointment. *)
Theorem saveDoctor_outcomes editing docId docName docSpec docRoom st :
  (trim docId = "" ∨ trim docName = "" →
   saveDoctor editing docId docName docSpec docRoom st
   = (Alert "ID and name required", st))
  ∧ (trim docId ≠ "" → trim docName ≠ "" →
     (editing = false → trim docId ∈ d_id <$> doctors st →
      saveDoctor editing docId docName docSpec docRoom st
      = (Alert "Doctor ID already exists", st))
     ∧ (editing = false → trim docId ∉ d_id <$> doctors st →
        saveDoctor editing docId docName docSpec docRoom st
        = (Done,
           State (doctors st
                  ++ [Doctor (trim docId) (trim docName) (trim docSpec) (trim docRoom)])
             (slots st) (appointments st)))
     ∧ (editing = true → trim docId ∉ d_id <$> doctors st →
        saveDoctor editing docId docName docSpec docRoom st = (Threw, st))
     ∧ (editing = true → trim docId ∈ d_id <$> doctors st →
        NoDup (d_id <$> doctors st) →
        (saveDoctor editing docId docName docSpec docRoom st).1 = Done
        ∧ slots (saveDoctor editing docId docName docSpec docRoom st).2 = slots st
        ∧ appointments (saveDoctor editing docId docName docSpec docRoom st).2
          = appointments st
        ∧ ∀ i d, doctors st !! i = Some d →
            doctors (saveDoctor editing docId docName docSpec docRoom st).2 !! i
            = Some (if decide (d_id d = trim docId)
                    then Doctor (d_id d) (trim docName) (trim docSpec) (trim docRoom)
                    else d))).
Proof.
  assert (∀ k, k ∈ d_id <$> doctors st ↔ Exists (λ x, d_id x = k) (doctors st)) as Hex.
  { intros k. rewrite Exists_exists, list_elem_of_fmap.
    split; intros (x & H1 & H2); exists x; by split. }
  split.
  - intros Hblank. unfold saveDoctor.
    destruct Hblank as [-> | ->]; simpl; [done|]. by rewrite orb_true_r.
  - intros Hid%truthy_true Hn%truthy_true. unfold saveDoctor. rewrite Hid, Hn. simpl.
    split_and!.
    + intros -> Hin%Hex. by rewrite bool_decide_eq_true_2.
    + intros -> Hin. rewrite bool_decide_eq_false_2; [done|]. by rewrite <- Hex.
    + intros -> Hin. rewrite bool_decide_eq_false_2; [done|]. by rewrite <- Hex.
    + intros -> Hin Hnd. rewrite bool_decide_eq_true_2 by by apply Hex. simpl.
      split_and!; try done.
      clear Hin. revert Hnd. generalize (doctors st). intros l Hnd i.
      revert l Hnd. induction i as [|i IH]; intros [|y l] Hnd d Hd; simplify_eq/=.
      * by case_decide.
      * rewrite NoDup_cons in Hnd. destruct Hnd as [Hy Hnd].
        destruct (decide (d_id y = trim docId)) as [Hy'|Hy']; simpl; [|by apply IH].
        rewrite Hd. f_equal. rewrite decide_False; [done|].
        intros Heq. apply Hy. rewrite Hy', <- Heq.
        apply list_elem_of_fmap_2. by eapply list_elem_of_lookup_2.
Qed.

Lemma getAppointmentForSlot_None st slotId :
  getAppointmentForSlot st slotId = None ↔ isSlotBooked st slotId = false.
Proof.
  unfold getAppointmentForSlot. rewrite (head_filter_key_None a_slotId).
  by rewrite DemoFacts.isSlotBooked_false.
Qed.

Lemma slotStatus_Available st s :
  slotStatus st s = "Available" ↔ isSlotBooked st (s_id s) = false.
Proof.
  rewrite <- getAppointmentForSlot_None. unfold slotStatus.
  by destruct (getAppointmentForSlot st (s_id s)).
Qed.

Section sorted.
Variable sort : list slot → list slot.
Hypothesis sort_Permutation : ∀ l, sort l ≡ₚ l.

Lemma availableSlots_Permutation prefill st :
  (availableSlots sort prefill st).1
  ≡ₚ filter (λ s, isSlotBooked st (s_id s) = false) (slots st).
Proof using sort_Permutation.
  unfold availableSlots.
  destruct (truthy_opt prefill && negb _); [|apply sort_Permutation].
  destruct (list_find _ _) as [[idx s]|] eqn:Hfind.
  - simpl. apply list_find_Some in Hfind as (Hidx & _ & _).
    rewrite <- (delete_Permutation _ _ _ Hidx). apply sort_Permutation.
  - destruct (isSlotBooked st _); apply sort_Permutation.
Qed.

Lemma elem_of_availableSlots prefill st s :
  s ∈ (availableSlots sort prefill st).1
  ↔ s ∈ slots st ∧ isSlotBooked st (s_id s) = false.
Proof using sort_Permutation.
  rewrite availableSlots_Permutation, list_elem_of_filter. tauto.
Qed.

(** What the [bookingSlot] select can hold: nothing, or the id of a slot
    of the state that has no appointment. *)
Lemma bookingSlot_values_open prefill st v :
  v ∈ bookingSlot_values (availableSlots sort prefill st).1 →
  v = "" ∨ (v ∈ s_id <$> slots st ∧ isSlotBooked st v = false).
Proof using sort_Permutation.
  unfold bookingSlot_values.
  destruct (availableSlots sort prefill st).1 as [|s0 l] eqn:Hl.
  - intros ->%list_elem_of_singleton. by left.
  - intros (s & -> & Hs)%list_elem_of_fmap. right.
    rewrite <- Hl in Hs. apply elem_of_availableSlots in Hs as [Hs Hopen].
    split; [by apply list_elem_of_fmap_2|done].
Qed.

(** [X20] The slots the booking form offers are exactly the slots of the
    state that have no appointment, each once: the ones the slot table
    shows as Available.  When the form is opened for a slot that is open,
    that slot comes first.  The alert "Selected slot already booked" that
    [renderBookingForm] contains is never shown. *)
Theorem availableSlots_offers_open_slots prefill st :
  (availableSlots sort prefill st).1
  ≡ₚ filter (λ s, isSlotBooked st (s_id s) = false) (slots st)
  ∧ (∀ s, s ∈ slots st →
       s ∈ (availableSlots sort prefill st).1 ↔ slotStatus st s = "Available")
  ∧ (∀ slotId, prefill = Some slotId → slotId ≠ "" →
       slotId ∈ s_id <$> slots st → isSlotBooked st slotId = false →
       ∃ s rest, (availableSlots sort prefill st).1 = s :: rest ∧ s_id s = slotId)
  ∧ (availableSlots sort prefill st).2 = None.
Proof using sort_Permutation.
  split_and!.
  - apply availableSlots_Permutation.
  - intros s Hs. rewrite elem_of_availableSlots, slotStatus_Available. tauto.
  - intros slotId -> Hne%truthy_true (s & -> & Hs)%list_elem_of_fmap Hopen.
    unfold availableSlots. simpl. rewrite Hne, Hopen. simpl.
    destruct (list_find _ _) as [[idx s']|] eqn:Hfind.
    + apply list_find_Some in Hfind as (_ & Hid & _). by eexists _, _.
    + apply list_find_None in Hfind. rewrite Forall_forall in Hfind.
      exfalso. apply (Hfind s); [|done].
      rewrite sort_Permutation. by apply list_elem_of_filter.
  - unfold availableSlots.
    destruct (truthy_opt prefill); simpl; [|done].
    destruct (isSlotBooked st (default_to prefill "")); simpl; [done|].
    by destruct (list_find _ _) as [[idx s]|].
Qed.

(** [X21] A booking made from the form goes through: when the selected
    value is one the [bookingSlot] select offers and is not the empty
    placeholder, and the patient name is not blank, the Confirm button
    appends a Confirmed appointment for that slot with the trimmed fields;
    the slot is booked from then on. *)
Theorem booking_from_form_succeeds prefill bookingSlot n p r rnd now st :
  bookingSlot ∈ bookingSlot_values (availableSlots sort prefill st).1 →
  bookingSlot ≠ "" →
  trim n ≠ "" →
  confirmAppointment bookingSlot n p r rnd now st
  = (Done,
     State (doctors st) (slots st)
       (appointments st
        ++ [Appointment (uid "AP" rnd) bookingSlot (trim n) (trim p) (trim r)
              "Confirmed" now]))
  ∧ isSlotBooked (confirmAppointment bookingSlot n p r rnd now st).2 bookingSlot = true.
Proof using sort_Permutation.
  intros [->|[_ Hopen]]%bookingSlot_values_open Hne Hn; [done|].
  apply truthy_true in Hne, Hn.
  unfold confirmAppointment. rewrite Hne, Hn, Hopen. simpl. split; [done|].
  apply DemoFacts.isSlotBooked_true. simpl. rewrite fmap_app, elem_of_app. right.
  by apply list_elem_of_singleton.
Qed.

Lemma Forall_assign_found {A} (Q P : A → Prop) `{∀ x, Decision (P x)}
    (patch : A → A) (l : list A) :
  Forall Q l → (∀ x, Q (patch x)) → Forall Q (assign_found P patch l).
Proof.
  intros Hl Hpatch. induction Hl as [|x l Hx Hl IH]; [done|]. cbn [assign_found].
  case_decide; by constructor.
Qed.

Lemma step_integrity a st :
  from_forms sort a st → integrity st → integrity (step a st).
Proof using sort_Permutation.
  intros Hforms [Haps Hss].
  destruct a as [e i n s r|c d|i d dt t r|slotId n p r rnd now|c i]; simpl.
  - split.
    + by rewrite DemoFacts.saveDoctor_appointments, saveDoctor_slots.
    + rewrite saveDoctor_slots. eapply Forall_impl; [exact Hss|]. simpl. intros x Hx.
      unfold saveDoctor. destruct (negb _ || negb _); [done|].
      destruct e; case_bool_decide; simpl; try done.
      * by rewrite assign_found_keys.
      * rewrite fmap_app, elem_of_app. by left.
  - unfold deleteDoctor. destruct (negb c); [done|]. split; simpl.
    + apply Forall_forall. intros ap [(s & Hs & Heq)%Exists_exists _]%list_elem_of_filter.
      rewrite <- Heq. by apply list_elem_of_fmap_2.
    + apply Forall_forall. intros s [Hne Hs]%list_elem_of_filter.
      rewrite Forall_forall in Hss.
      destruct (proj1 (list_elem_of_fmap _ _ _) (Hss s Hs)) as (x & Heq & Hx).
      rewrite Heq. apply list_elem_of_fmap_2, list_elem_of_filter. split; [|done].
      by rewrite <- Heq.
  - simpl in Hforms. unfold saveSlot.
    destruct (truthy d) eqn:Hd; simpl; [|done].
    assert (d ∈ d_id <$> doctors st) as Hdoc.
    { unfold slotDoctor_values in Hforms. destruct (doctors st) as [|x l]; [|done].
      apply list_elem_of_singleton in Hforms. by subst d. }
    destruct (negb (truthy dt) || negb (truthy t)); [done|].
    destruct (truthy_opt i).
    + case_bool_decide; [|done]. split; simpl.
      * by rewrite assign_found_keys.
      * by apply Forall_assign_found.
    + split; simpl.
      * eapply Forall_impl; [exact Haps|]. simpl. intros ap Hap.
        rewrite fmap_app, elem_of_app. by left.
      * apply Forall_app. split; [done|]. by apply Forall_singleton.
  - destruct Hforms as [prefill Hv].
    apply bookingSlot_values_open in Hv as [->|[Hin Hopen]]; [done|].
    unfold confirmAppointment.
    destruct (negb (truthy slotId)); [done|].
    destruct (negb (truthy (trim n))); [done|].
    rewrite Hopen. split; simpl; [|done].
    apply Forall_app. split; [done|]. by apply Forall_singleton.
  - unfold cancelAppointment. destruct (negb c); [done|]. split; simpl; [|done].
    by apply Forall_filter_keep.
Qed.

(** [X22] As long as the selects of the booking form and of the slot form
    hold values their forms offer, every appointment of the demo
    references a slot of the state and every slot a doctor of the state:
    no action leaves an appointment without its slot or a slot without its
    doctor. *)
Theorem demo_referential_integrity acts st :
  integrity st → all_from_forms sort acts st → integrity (run acts st).
Proof using sort_Permutation.
  revert st. induction acts as [|a acts IH]; intros st Hst Hforms; [done|].
  destruct Hforms as [Ha Hacts]. simpl. apply IH; [|done]. by apply step_integrity.
Qed.

End sorted.

(** [X23] Booking and then cancelling gives the state back: when the
    Confirm button has appended an appointment whose id [uid('AP')] drew is
    not the id of an older appointment, cancelling that id restores the
    state exactly. *)
Theorem book_then_cancel_restores slotId n p r rnd now st :
  slotId ≠ "" →
  trim n ≠ "" →
  isSlotBooked st slotId = false →
  uid "AP" rnd ∉ a_id <$> appointments st →
  (confirmAppointment slotId n p r rnd now st).1 = Done
  ∧ cancelAppointment true (uid "AP" rnd) (confirmAppointment slotId n p r rnd now st).2
    = st.
Proof.
  intros Hne%truthy_true Hn%truthy_true Hopen Hid.
  unfold confirmAppointment. rewrite Hne, Hn, Hopen. simpl. split; [done|].
  unfold cancelAppointment. simpl. destruct st as [ds ss aps]. simpl in *. f_equal.
  rewrite filter_app, filter_cons_False, filter_nil, app_nil_r by by intros [].
  apply filter_all, Forall_forall. intros ap Hap Heq. apply Hid. rewrite <- Heq.
  by apply list_elem_of_fmap_2.
Qed.

Lemma assign_found_lookup_key {A} (f : A → string) (k : string) (patch : A → A)
    (l : list A) i x :
  NoDup (f <$> l) → l !! i = Some x →
  assign_found (λ y, f y = k) patch l !! i
  = Some (if decide (f x = k) then patch x else x).
Proof.
  revert i. induction l as [|y l IH]; intros [|i] Hnd Hi; simplify_eq/=.
  - by case_decide.
  - rewrite NoDup_cons in Hnd. destruct Hnd as [Hy Hnd].
    destruct (decide (f y = k)) as [Hy'|Hy']; simpl; [|by apply IH].
    rewrite Hi. f_equal. rewrite decide_False; [done|].
    intros Heq. apply Hy. rewrite Hy', <- Heq.
    apply list_elem_of_fmap_2. by eapply list_elem_of_lookup_2.
Qed.

(** [X25] What the Save slot button does.  With an empty doctor, date or
    time it alerts and changes nothing.  Without a slot id it appends a
    slot with the id [uid('SL')] drew.  With the id of a slot that is not
    in the state it throws and changes nothing.  With the id of a slot of
    the state it rewrites the doctor, date and time of that slot, whether
    or not the slot has an appointment: the ids of the slots, the doctors
    and the appointments are as before, so an appointment on the slot now
    points at the rewritten slot. *)
Theorem saveSlot_outcomes data_id slotDoctor slotDate slotTime rnd st :
  (slotDoctor = "" ∨ slotDate = "" ∨ slotTime = "" →
   saveSlot data_id slotDoctor slotDate slotTime rnd st
   = (Alert "Doctor, date and time are required", st))
  ∧ (slotDoctor ≠ "" → slotDate ≠ "" → slotTime ≠ "" →
     (truthy_opt data_id = false →
      saveSlot data_id slotDoctor slotDate slotTime rnd st
      = (Done,
         State (doctors st)
           (slots st ++ [Slot (uid "SL" rnd) slotDoctor slotDate slotTime])
           (appointments st)))
     ∧ (∀ id, data_id = Some id → id ≠ "" → id ∉ s_id <$> slots st →
          saveSlot data_id slotDoctor slotDate slotTime rnd st = (Threw, st))
     ∧ (∀ id, data_id = Some id → id ≠ "" → id ∈ s_id <$> slots st →
          (saveSlot data_id slotDoctor slotDate slotTime rnd st).1 = Done
          ∧ doctors (saveSlot data_id slotDoctor slotDate slotTime rnd st).2 = doctors st
          ∧ appointments (saveSlot data_id slotDoctor slotDate slotTime rnd st).2
            = appointments st
          ∧ s_id <$> slots (saveSlot data_id slotDoctor slotDate slotTime rnd st).2
            = s_id <$> slots st
          ∧ (NoDup (s_id <$> slots st) →
             ∀ i s, slots st !! i = Some s →
               slots (saveSlot data_id slotDoctor slotDate slotTime rnd st).2 !! i
               = Some (if decide (s_id s = id)
                       then Slot (s_id s) slotDoctor slotDate slotTime else s)))).
Proof.
  assert (∀ k, k ∈ s_id <$> slots st ↔ Exists (λ x, s_id x = k) (slots st)) as Hex.
  { intros k. rewrite Exists_exists, list_elem_of_fmap.
    split; intros (x & H1 & H2); exists x; by split. }
  split.
  - intros Hblank. unfold saveSlot.
    destruct Hblank as [-> | [-> | ->]]; simpl; [done| |];
      rewrite ?orb_true_r; done.
  - intros Hd%truthy_true Hdt%truthy_true Ht%truthy_true. unfold saveSlot.
    rewrite Hd, Hdt, Ht. simpl. split_and!.
    + by intros ->.
    + intros id -> Hid%truthy_true Hin. simpl. rewrite Hid.
      rewrite bool_decide_eq_false_2; [done|]. by rewrite <- Hex.
    + intros id -> Hid%truthy_true Hin. simpl. rewrite Hid.
      rewrite bool_decide_eq_true_2 by by apply Hex. simpl.
      split_and!; try done.
      * by apply assign_found_keys.
      * intros Hnd i s Hs. by apply (assign_found_lookup_key s_id).
Qed.

End demo_forms.

End DemoUIFacts.

(** ** The time pattern *)

Section times.

Lemma in_range_spec lo hi c :
  in_range lo hi c = true ↔ nat_of_ascii lo ≤ nat_of_ascii c ≤ nat_of_ascii hi.
Proof. unfold in_range. rewrite andb_true_iff, !Nat.leb_le. lia. Qed.

Lemma is_digit_spec c : is_digit c = true ↔ 48 ≤ nat_of_ascii c ≤ 57.
Proof. unfold is_digit. cbv zeta. rewrite andb_true_iff, !Nat.leb_le. lia. Qed.

Lemma digit_char_nat_of_ascii c :
  48 ≤ nat_of_ascii c → digit_char (nat_of_ascii c - 48) = c.
Proof.
  intros Hc. unfold digit_char.
  replace (48 + (nat_of_ascii c - 48)) with (nat_of_ascii c) by lia.
  apply ascii_nat_embedding.
Qed.

Lemma two_digits_chars c1 c2 :
  48 ≤ nat_of_ascii c1 → 48 ≤ nat_of_ascii c2 ≤ 57 →
  two_digits (10 * (nat_of_ascii c1 - 48) + (nat_of_ascii c2 - 48))
  = String c1 (String c2 EmptyString).
Proof.
  intros H1 H2. unfold two_digits.
  assert ((10 * (nat_of_ascii c1 - 48) + (nat_of_ascii c2 - 48)) / 10
          = nat_of_ascii c1 - 48) as ->.
  { symmetry. apply (Nat.div_unique _ _ _ (nat_of_ascii c2 - 48)); lia. }
  assert ((10 * (nat_of_ascii c1 - 48) + (nat_of_ascii c2 - 48)) mod 10
          = nat_of_ascii c2 - 48) as ->.
  { symmetry. apply (Nat.mod_unique _ _ (nat_of_ascii c1 - 48)); lia. }
  by rewrite !digit_char_nat_of_ascii by lia.
Qed.

(** [X26] The pattern the slot routes match [time] against accepts exactly
    the 1440 times of day written [HH:MM], from [00:00] to [23:59]. *)
Theorem time_regex_accepts_times t :
  time_regex t = true ↔ ∃ h m, h < 24 ∧ m < 60 ∧ t = time_of_day h m.
Proof.
  split.
  - destruct t as [|h1 [|h2 [|c [|m1 [|m2 [|x t]]]]]]; try done. simpl.
    rewrite !andb_true_iff, orb_true_iff, !andb_true_iff, !in_range_spec, !is_digit_spec.
    rewrite !Ascii.eqb_eq.
    change (nat_of_ascii "0") with 48. change (nat_of_ascii "1") with 49.
    change (nat_of_ascii "3") with 51. change (nat_of_ascii "5") with 53.
    intros [[[[[Hh1 Hh2]|[-> Hh2]] ->] Hm1] Hm2].
    + exists (10 * (nat_of_ascii h1 - 48) + (nat_of_ascii h2 - 48)),
             (10 * (nat_of_ascii m1 - 48) + (nat_of_ascii m2 - 48)).
      split; [lia|]. split; [lia|].
      unfold time_of_day. by rewrite !two_digits_chars by lia.
    + exists (10 * (nat_of_ascii "2" - 48) + (nat_of_ascii h2 - 48)),
             (10 * (nat_of_ascii m1 - 48) + (nat_of_ascii m2 - 48)).
      change (nat_of_ascii "2") with 50.
      split; [lia|]. split; [lia|].
      unfold time_of_day.
      rewrite (two_digits_chars m1 m2) by lia.
      change 50 with (nat_of_ascii "2").
      rewrite (two_digits_chars "2" h2); [done| |lia].
      change (nat_of_ascii "2") with 50. lia.
  - intros (h & m & Hh & Hm & ->).
    assert (forallb (λ h, forallb (λ m, time_regex (time_of_day h m)) (seq 0 60))
              (seq 0 24) = true) as Hall by by vm_compute.
    rewrite forallb_forall in Hall.
    specialize (Hall h). rewrite forallb_forall in Hall.
    apply Hall; apply in_seq; lia.
Qed.

End times.

(** ** Required texts and white space *)

Section required_texts.
Context `{validator}.

(** [X29] A required text made of white space only (spaces, tabs, line
    breaks, no-break spaces and the other white space of Unicode) counts as
    missing.  [POST /appointments] with such a patient name, and
    [POST /doctors] with such an id or name, are answered 400 with the field
    among the errors, and the database is as before; the demo alerts and
    keeps its state.  A patient name with anything else in it is not among
    the errors. *)
Theorem white_space_only_is_refused v :
  whitespace_only v →
  (∀ uuid now b db, req_patientName b = Some v →
     post_appointments uuid now b db
     = (Response 400 (JErrors (validate_post_appointments b)), db)
     ∧ "patientName" ∈ validate_post_appointments b)
  ∧ (∀ b db, req_id b = Some v →
       post_doctors b db = (Response 400 (JErrors (validate_post_doctors b)), db)
       ∧ "id" ∈ validate_post_doctors b)
  ∧ (∀ b db, req_name b = Some v →
       post_doctors b db = (Response 400 (JErrors (validate_post_doctors b)), db)
       ∧ "name" ∈ validate_post_doctors b)
  ∧ (∀ bookingSlot p r rnd now st, bookingSlot ≠ "" →
       Demo.confirmAppointment bookingSlot v p r rnd now st
       = (Demo.Alert "Enter patient name", st))
  ∧ (∀ editing docId docName docSpec docRoom st, docId = v ∨ docName = v →
       Demo.saveDoctor editing docId docName docSpec docRoom st
       = (Demo.Alert "ID and name required", st))
  ∧ (∀ b n, req_patientName b = Some n → ¬ whitespace_only n →
       "patientName" ∉ validate_post_appointments b).
Proof.
  intros Hv%trim_whitespace_only. split_and!.
  - intros uuid now b db Hb.
    assert ("patientName" ∈ validate_post_appointments b) as Hin.
    { unfold validate_post_appointments. rewrite Hb. simpl. rewrite Hv. simpl.
      rewrite elem_of_app. right. apply list_elem_of_here. }
    split; [|done]. apply book_invalid. intros Hnil. rewrite Hnil in Hin.
    by apply not_elem_of_nil in Hin.
  - intros b db Hb.
    assert ("id" ∈ validate_post_doctors b) as Hin.
    { unfold validate_post_doctors. rewrite Hb. simpl. rewrite Hv. simpl.
      apply list_elem_of_here. }
    split; [|done]. unfold post_doctors.
    destruct (validate_post_doctors b); [by apply not_elem_of_nil in Hin|done].
  - intros b db Hb.
    assert ("name" ∈ validate_post_doctors b) as Hin.
    { unfold validate_post_doctors. rewrite Hb. simpl. rewrite Hv. simpl.
      rewrite elem_of_app. right. apply list_elem_of_here. }
    split; [|done]. unfold post_doctors.
    destruct (validate_post_doctors b); [by apply not_elem_of_nil in Hin|done].
  - intros bookingSlot p r rnd now st Hslot%truthy_true.
    unfold Demo.confirmAppointment. by rewrite Hslot, Hv.
  - intros editing docId docName docSpec docRoom st Hblank.
    unfold Demo.saveDoctor. destruct Hblank as [-> | ->]; rewrite Hv; simpl; [done|].
    by rewrite orb_true_r.
  - intros b n Hb Hn. rewrite <- trim_whitespace_only in Hn.
    unfold validate_post_appointments. rewrite Hb. simpl.
    apply truthy_true in Hn. rewrite Hn, !optional_string_true. simpl.
    rewrite app_nil_r. unfold check.
    destruct (string_notEmpty _); [apply not_elem_of_nil|].
    by intros ?%list_elem_of_singleton.
Qed.

End required_texts.

(** ** The further properties on the sample data *)

Section more_samples.
Local Existing Instance calendar_dates.

Ltac by_computation := by apply (bool_decide_unpack _); vm_compute.

Lemma referential_integrity_witness :
  reachable seeded_booked
  ∧ (∀ a, a ∈ appointments seeded_booked →
       ∃ s, s ∈ slots seeded_booked ∧ s_id s = a_slot_id a).
Proof.
  assert (reachable seeded_booked) as Hr.
  { exact (reachable_step (POST_appointments "a1" "2024-01-10T08:00:00.000Z" alice) _
             (reachable_init "2024-01-10")). }
  split; [exact Hr|].
  exact (proj2 (proj2 (proj2 (proj2 (referential_integrity seeded_booked Hr))))).
Defined.

Lemma failure_changes_nothing_witness :
  400 ≤ status (handle (POST_appointments "a2" "2024-01-10T09:00:00.000Z" bob)
                  seeded_booked).1
  ∧ (handle (POST_appointments "a2" "2024-01-10T09:00:00.000Z" bob) seeded_booked).2
    = seeded_booked.
Proof.
  assert (400 ≤ status (handle (POST_appointments "a2" "2024-01-10T09:00:00.000Z" bob)
                          seeded_booked).1) as Hs by by_computation.
  split; [exact Hs|].
  exact (failure_changes_nothing _ _ Hs).
Defined.

Lemma post_doctors_outcomes_witness :
  validate_post_doctors new_doctor = []
  ∧ (sanitized (req_id new_doctor) ∉ d_id <$> doctors seeded)
  ∧ select_doctor "D003" (post_doctors new_doctor seeded).2
    = Some (Doctor "D003" "Dr. Lee" None None).
Proof.
  assert (validate_post_doctors new_doctor = []) as Hv by by vm_compute.
  assert (sanitized (req_id new_doctor) ∉ d_id <$> doctors seeded) as Hid by by_computation.
  refine (conj Hv (conj Hid _)).
  exact (proj2 (proj2 (proj2 (proj2 (post_doctors_outcomes new_doctor seeded))) Hv Hid)).
Defined.

Lemma put_doctors_missing_or_empty_witness :
  ("D9" ∉ d_id <$> doctors seeded)
  ∧ put_doctors "D9" rename seeded = (Response 404 (JError "Doctor not found"), seeded).
Proof.
  assert ("D9" ∉ d_id <$> doctors seeded) as Hid by by_computation.
  split; [exact Hid|].
  exact (proj1 (put_doctors_missing_or_empty "D9" rename seeded) Hid).
Defined.

Lemma post_slots_outcomes_witness :
  validate_post_slots new_slot = []
  ∧ (default_to (req_doctorId new_slot) "" ∈ d_id <$> doctors seeded)
  ∧ ("s4" ∉ s_id <$> slots seeded)
  ∧ post_slots "s4" new_slot seeded
    = (Response 201 (JSlot "s4" (default_to (req_doctorId new_slot) "")
                       (default_to (req_date new_slot) "")
                       (default_to (req_time new_slot) "")),
       MkDB (doctors seeded)
         (slots seeded ++ [Slot "s4" (default_to (req_doctorId new_slot) "")
                             (default_to (req_date new_slot) "")
                             (default_to (req_time new_slot) "")])
         (appointments seeded)).
Proof.
  assert (validate_post_slots new_slot = []) as Hv by by vm_compute.
  assert (default_to (req_doctorId new_slot) "" ∈ d_id <$> doctors seeded) as Hd
    by by_computation.
  assert ("s4" ∉ s_id <$> slots seeded) as Hid by by_computation.
  refine (conj Hv (conj Hd (conj Hid _))).
  exact (proj2 (proj2 (proj2 (proj2 (post_slots_outcomes "s4" new_slot seeded))))
           Hv Hd Hid).
Defined.

Lemma created_slot_is_bookable_witness :
  wf seeded
  ∧ status (post_slots "s4" new_slot seeded).1 = 201
  ∧ validate_post_appointments carol = []
  ∧ req_slotId carol = Some "s4"
  ∧ ("a3" ∉ a_id <$> appointments seeded)
  ∧ bookings "s4" (post_slots "s4" new_slot seeded).2 = []
  ∧ ∃ row db2,
      post_appointments "a3" "2024-01-10T10:00:00.000Z" carol
        (post_slots "s4" new_slot seeded).2 = (created row, db2)
      ∧ a_slot_id row = "s4"
      ∧ bookings "s4" db2 = [row].
Proof.
  pose proof (wf_init "2024-01-10") as Hwf.
  assert (status (post_slots "s4" new_slot seeded).1 = 201) as H201 by by vm_compute.
  assert (validate_post_appointments carol = []) as Hv by by vm_compute.
  assert (req_slotId carol = Some "s4") as Hslot by done.
  assert ("a3" ∉ a_id <$> appointments seeded) as Hid by by_computation.
  refine (conj Hwf (conj H201 (conj Hv (conj Hslot (conj Hid _))))).
  exact (created_slot_is_bookable "s4" new_slot seeded "a3" "2024-01-10T10:00:00.000Z"
           carol Hwf H201 Hv Hslot Hid).
Defined.

Lemma put_slots_outcomes_witness :
  validate_put_slots reschedule = []
  ∧ ("SL9" ∉ s_id <$> slots seeded)
  ∧ put_slots "SL9" reschedule seeded = (Response 404 (JError "Slot not found"), seeded).
Proof.
  assert (validate_put_slots reschedule = []) as Hv by by vm_compute.
  assert ("SL9" ∉ s_id <$> slots seeded) as Hid by by_computation.
  refine (conj Hv (conj Hid _)).
  exact (proj1 (proj2 (put_slots_outcomes "SL9" reschedule seeded)) Hv Hid).
Defined.

Lemma delete_slot_cascade_witness :
  wf seeded_booked
  ∧ ("SL1" ∈ s_id <$> slots seeded_booked)
  ∧ length (appointments seeded_booked)
    = length (appointments (delete_slots "SL1" seeded_booked).2)
      + length (bookings "SL1" seeded_booked)
  ∧ wf (delete_slots "SL1" seeded_booked).2.
Proof.
  pose proof wf_seeded_booked as Hwf.
  assert ("SL1" ∈ s_id <$> slots seeded_booked) as Hid by by_computation.
  refine (conj Hwf (conj Hid _)).
  destruct (delete_slot_cascade "SL1" seeded_booked Hwf Hid)
    as (_ & _ & _ & _ & _ & Hlen & _ & _ & Hwf').
  exact (conj Hlen Hwf').
Defined.

Lemma create_then_delete_restores_witness :
  status (post_appointments "a2" "2024-01-10T09:00:00.000Z"
            (AppointmentBody (Some "SL2") (Some "Bob") None None) seeded_booked).1 = 201
  ∧ delete_appointments "a2"
      (post_appointments "a2" "2024-01-10T09:00:00.000Z"
         (AppointmentBody (Some "SL2") (Some "Bob") None None) seeded_booked).2
    = (Response 204 JEmpty, seeded_booked).
Proof.
  assert (status (post_appointments "a2" "2024-01-10T09:00:00.000Z"
                    (AppointmentBody (Some "SL2") (Some "Bob") None None)
                    seeded_booked).1 = 201) as H201 by by vm_compute.
  split; [exact H201|].
  exact (proj1 create_then_delete_restores _ _ _ _ H201).
Defined.

Lemma get_slots_lists_matching_witness :
  wf seeded_booked
  ∧ NoDup (s_id <$> (r_slot <$> get_slots (Some "D001") None seeded_booked))
  ∧ ordered (λ a b, by_date_time (r_slot a) (r_slot b))
      (get_slots (Some "D001") None seeded_booked).
Proof.
  pose proof wf_seeded_booked as Hwf.
  split; [exact Hwf|].
  destruct (get_slots_lists_matching (Some "D001") None seeded_booked Hwf)
    as (_ & Hnd & Hord & _).
  exact (conj Hnd Hord).
Defined.

Lemma get_appointment_outcomes_witness :
  ("a9" ∉ a_id <$> appointments seeded_booked)
  ∧ get_appointment "a9" seeded_booked = (404, RError "Appointment not found").
Proof.
  assert ("a9" ∉ a_id <$> appointments seeded_booked) as Hid by by_computation.
  split; [exact Hid|].
  exact (proj1 (get_appointment_outcomes "a9" seeded_booked) Hid).
Defined.

Lemma get_appointments_lists_all_witness :
  wf seeded_booked
  ∧ r_appointment <$> get_appointments seeded_booked ≡ₚ appointments seeded_booked.
Proof.
  pose proof wf_seeded_booked as Hwf.
  split; [exact Hwf|].
  exact (proj1 (get_appointments_lists_all seeded_booked Hwf)).
Defined.

Lemma demo_doctor_ids_distinct_witness :
  NoDup (Demo.d_id <$> Demo.doctors demo_booked)
  ∧ NoDup (Demo.d_id <$> Demo.doctors
             (Demo.run [Demo.SaveDoctor false " D001 " "Dr. Twin" "" ""] demo_booked)).
Proof.
  assert (NoDup (Demo.d_id <$> Demo.doctors demo_booked)) as Hnd by by_computation.
  split; [exact Hnd|].
  exact (DemoUIFacts.demo_doctor_ids_distinct _ _ Hnd).
Defined.

Lemma saveDoctor_outcomes_witness :
  trim " D001 " ≠ ""
  ∧ trim "Dr. Twin" ≠ ""
  ∧ (trim " D001 " ∈ Demo.d_id <$> Demo.doctors demo_booked)
  ∧ Demo.saveDoctor false " D001 " "Dr. Twin" "" "" demo_booked
    = (Demo.Alert "Doctor ID already exists", demo_booked).
Proof.
  assert (trim " D001 " ≠ "") as Hid by by vm_compute.
  assert (trim "Dr. Twin" ≠ "") as Hn by by vm_compute.
  assert (trim " D001 " ∈ Demo.d_id <$> Demo.doctors demo_booked) as Hin by by_computation.
  refine (conj Hid (conj Hn (conj Hin _))).
  exact (proj1 (proj2 (DemoUIFacts.saveDoctor_outcomes false " D001 " "Dr. Twin" "" ""
                         demo_booked) Hid Hn) eq_refl Hin).
Defined.

Lemma sort_slots_Permutation (l : list Demo.slot) : sort_slots l ≡ₚ l.
Proof. apply order_by_Permutation. Qed.

Lemma availableSlots_offers_open_slots_witness :
  (∀ l, sort_slots l ≡ₚ l)
  ∧ (DemoUI.availableSlots sort_slots (Some "S3") demo_booked).1
    ≡ₚ filter (λ s, Demo.isSlotBooked demo_booked (Demo.s_id s) = false)
         (Demo.slots demo_booked)
  ∧ (DemoUI.availableSlots sort_slots (Some "S3") demo_booked).2 = None.
Proof.
  split; [exact sort_slots_Permutation|].
  destruct (DemoUIFacts.availableSlots_offers_open_slots sort_slots sort_slots_Permutation
              (Some "S3") demo_booked) as (Hperm & _ & _ & Halert).
  exact (conj Hperm Halert).
Defined.

Lemma booking_from_form_succeeds_witness :
  (∀ l, sort_slots l ≡ₚ l)
  ∧ "S2" ∈ DemoUI.bookingSlot_values (DemoUI.availableSlots sort_slots None demo_booked).1
  ∧ "S2" ≠ ""
  ∧ trim "Bob" ≠ ""
  ∧ Demo.isSlotBooked
      (Demo.confirmAppointment "S2" "Bob" "" "" "p0q1r2s" "2024-01-10T09:00:00.000Z"
         demo_booked).2 "S2" = true.
Proof.
  assert ("S2" ∈ DemoUI.bookingSlot_values
                   (DemoUI.availableSlots sort_slots None demo_booked).1) as Hv
    by by_computation.
  assert ("S2" ≠ "") as Hne by done.
  assert (trim "Bob" ≠ "") as Hn by by vm_compute.
  refine (conj sort_slots_Permutation (conj Hv (conj Hne (conj Hn _)))).
  exact (proj2 (DemoUIFacts.booking_from_form_succeeds sort_slots sort_slots_Permutation
                  None "S2" "Bob" "" "" "p0q1r2s" "2024-01-10T09:00:00.000Z" demo_booked
                  Hv Hne Hn)).
Defined.

Lemma demo_referential_integrity_witness :
  (∀ l, sort_slots l ≡ₚ l)
  ∧ DemoUI.integrity demo_booked
  ∧ DemoUI.all_from_forms sort_slots demo_session demo_booked
  ∧ DemoUI.integrity (Demo.run demo_session demo_booked).
Proof.
  assert (DemoUI.integrity demo_booked) as Hi by (split; by_computation).
  assert (DemoUI.all_from_forms sort_slots demo_session demo_booked) as Hf.
  { split; [exists None; by_computation|]. split; [exact I|exact I]. }
  refine (conj sort_slots_Permutation (conj Hi (conj Hf _))).
  exact (DemoUIFacts.demo_referential_integrity sort_slots sort_slots_Permutation
           demo_session demo_booked Hi Hf).
Defined.

Lemma book_then_cancel_restores_witness :
  "S2" ≠ ""
  ∧ trim "Bob" ≠ ""
  ∧ Demo.isSlotBooked demo_booked "S2" = false
  ∧ (Demo.uid "AP" "p0q1r2s" ∉ Demo.a_id <$> Demo.appointments demo_booked)
  ∧ Demo.cancelAppointment true (Demo.uid "AP" "p0q1r2s")
      (Demo.confirmAppointment "S2" "Bob" "" "" "p0q1r2s" "2024-01-10T09:00:00.000Z"
         demo_booked).2
    = demo_booked.
Proof.
  assert ("S2" ≠ "") as Hne by done.
  assert (trim "Bob" ≠ "") as Hn by by vm_compute.
  assert (Demo.isSlotBooked demo_booked "S2" = false) as Hopen by by vm_compute.
  assert (Demo.uid "AP" "p0q1r2s" ∉ Demo.a_id <$> Demo.appointments demo_booked) as Hid
    by by_computation.
  refine (conj Hne (conj Hn (conj Hopen (conj Hid _)))).
  exact (proj2 (DemoUIFacts.book_then_cancel_restores "S2" "Bob" "" "" "p0q1r2s"
                  "2024-01-10T09:00:00.000Z" demo_booked Hne Hn Hopen Hid)).
Defined.

Lemma saveSlot_outcomes_witness :
  "D002" ≠ ""
  ∧ "2024-02-01" ≠ ""
  ∧ "11:00" ≠ ""
  ∧ ("S1" ∈ Demo.s_id <$> Demo.slots demo_booked)
  ∧ Demo.isSlotBooked demo_booked "S1" = true
  ∧ (Demo.saveSlot (Some "S1") "D002" "2024-02-01" "11:00" "" demo_booked).1 = Demo.Done
  ∧ Demo.appointments (Demo.saveSlot (Some "S1") "D002" "2024-02-01" "11:00" ""
                         demo_booked).2
    = Demo.appointments demo_booked.
Proof.
  assert ("D002" ≠ "") as Hd by done.
  assert ("2024-02-01" ≠ "") as Hdt by done.
  assert ("11:00" ≠ "") as Ht by done.
  assert ("S1" ∈ Demo.s_id <$> Demo.slots demo_booked) as Hin by by_computation.
  assert (Demo.isSlotBooked demo_booked "S1" = true) as Hb by by vm_compute.
  refine (conj Hd (conj Hdt (conj Ht (conj Hin (conj Hb _))))).
  destruct (proj2 (proj2 (proj2 (DemoUIFacts.saveSlot_outcomes (Some "S1") "D002"
                                    "2024-02-01" "11:00" "" demo_booked) Hd Hdt Ht))
              "S1" eq_refl ltac:(done) Hin) as (Hdone & _ & Haps & _).
  exact (conj Hdone Haps).
Defined.

Lemma deleteDoctor_exact_witness :
  Forall (λ ap, Demo.a_slotId ap ∈ Demo.s_id <$> Demo.slots demo_booked)
    (Demo.appointments demo_booked)
  ∧ NoDup (Demo.s_id <$> Demo.slots demo_booked)
  ∧ Demo.deleteDoctor true "D001" demo_booked
    = Demo.State
        (filter (λ d, Demo.d_id d ≠ "D001") (Demo.doctors demo_booked))
        (filter (λ s, Demo.s_doctorId s ≠ "D001") (Demo.slots demo_booked))
        (filter (λ ap, Demo.a_slotId ap
                       ∉ Demo.s_id <$> filter (λ s, Demo.s_doctorId s = "D001")
                                         (Demo.slots demo_booked))
           (Demo.appointments demo_booked)).
Proof.
  assert (Forall (λ ap, Demo.a_slotId ap ∈ Demo.s_id <$> Demo.slots demo_booked)
            (Demo.appointments demo_booked)) as Hfk by by_computation.
  assert (NoDup (Demo.s_id <$> Demo.slots demo_booked)) as Hnd by by_computation.
  refine (conj Hfk (conj Hnd _)).
  exact (DemoFacts.deleteDoctor_exact "D001" demo_booked Hfk Hnd).
Defined.

Lemma cancel_then_rebook_demo_witness :
  Demo.unique_booking demo_booked
  ∧ demo_alice ∈ Demo.appointments demo_booked
  ∧ Demo.a_slotId demo_alice ≠ ""
  ∧ trim "Bob" ≠ ""
  ∧ Demo.isSlotBooked (Demo.cancelAppointment true (Demo.a_id demo_alice) demo_booked)
      (Demo.a_slotId demo_alice) = false.
Proof.
  assert (Demo.unique_booking demo_booked) as Hu.
  { apply DemoFacts.demo_unique_booking_NoDup. by_computation. }
  assert (demo_alice ∈ Demo.appointments demo_booked) as Hin by (vm_compute; left).
  assert (Demo.a_slotId demo_alice ≠ "") as Hne by done.
  assert (trim "Bob" ≠ "") as Hn by by vm_compute.
  refine (conj Hu (conj Hin (conj Hne (conj Hn _)))).
  exact (proj1 (DemoFacts.cancel_then_rebook_demo demo_alice "Bob" "" "" "p0q1r2s"
                  "2024-01-10T09:00:00.000Z" demo_booked Hu Hin Hne Hn)).
Defined.

Lemma white_space_only_is_refused_witness :
  whitespace_only (nbsp +:+ line_separator)
  ∧ post_appointments "a2" "2024-01-10T09:00:00.000Z"
      (AppointmentBody (Some "SL2") (Some (nbsp +:+ line_separator)) None None) seeded
    = (Response 400 (JErrors ["patientName"]), seeded).
Proof.
  assert (whitespace_only (nbsp +:+ line_separator)) as Hv.
  { apply (whitespace_more nbsp); [by_computation|].
    apply (whitespace_more line_separator ""); [by_computation|constructor]. }
  refine (conj Hv _).
  exact (proj1 (proj1 (white_space_only_is_refused (nbsp +:+ line_separator) Hv)
                  "a2" "2024-01-10T09:00:00.000Z"
                  (AppointmentBody (Some "SL2") (Some (nbsp +:+ line_separator)) None None)
                  seeded eq_refl)).
Defined.

End more_samples.
